(** * Cluster-wide GPU configuration analyzer: a shallow embedding

    The development follows [task1/scripts/cluster_wide_gpu_debug.py].

    - [PyStr]     : the [str] methods the script uses ([lower], [in],
                    [split], [strip], [replace], negative slices).
    - [Runtime]   : the effects of the script (sub-processes, sleeping,
                    temporary files) as a state-and-exception monad over
                    the history of what was run and what came back.
    - [Analyzer]  : the methods of [ClusterGPUAnalyzer], one definition
                    per method and one per loop.
    - [Spec]      : the notions the properties are stated with.
    - [Scenarios] : a few concrete clusters.
    - [Report]    : the counters of the report's summary.
    - [Toolkit]   : the check of the release's toolkit section.
    - [Cluster]   : the checks of the cluster as a whole ([kubectl] and
                    [helm] command lines), over a monad of their own.
    - [Cases], [Notions], [ClusterNotions] : further cases and notions.
    - [PyStrFacts], [RuntimeFacts], [Proofs], [Extras], [ClusterFacts] :
                    the properties.

    Text is modelled by Rocq's [string]: a sequence of code points below
    256.  Every external program ([kubectl], the node's file system, the
    JSON decoder) is a parameter of the model, and so are the standard
    output's encoding and the width of the pool.  Of what the script
    prints the model keeps what can make a difference: a progress message
    with a pictograph raises on a stdout that cannot encode it; messages
    of plain text are left out. *)

From Stdlib Require Import String Ascii List Bool Arith ZArith Lia.
From Stdlib Require Import Permutation Sorted.
Import ListNotations.
Open Scope list_scope.
Open Scope string_scope.

(* ===================================================================== *)
(** ** Python strings *)
(* ===================================================================== *)

Module PyStr.

(** [c.lower()] for one code point below 256: [A-Z] and the Latin-1
    capitals (all of U+00C0..U+00DE but the multiplication sign). *)
Definition lower_char (c : ascii) : ascii :=
  let n := nat_of_ascii c in
  if (((65 <=? n) && (n <=? 90))
      || ((192 <=? n) && (n <=? 222) && negb (n =? 215)))%nat
  then ascii_of_nat (n + 32) else c.

(** [s.lower()] *)
Fixpoint lower (s : string) : string :=
  match s with
  | EmptyString => EmptyString
  | String c s' => String (lower_char c) (lower s')
  end.

(** [s.startswith(p)] *)
Fixpoint startswith (p s : string) : bool :=
  match p, s with
  | EmptyString, _ => true
  | String a p', String b s' => Ascii.eqb a b && startswith p' s'
  | String _ _, EmptyString => false
  end.

(** [sub in s] *)
Fixpoint contains (sub s : string) : bool :=
  startswith sub s ||
  match s with
  | EmptyString => false
  | String _ s' => contains sub s'
  end.

(** [s.split(sep)] for a one-character separator: never the empty list. *)
Fixpoint split (sep : ascii) (s : string) : list string :=
  match s with
  | EmptyString => [EmptyString]
  | String c s' =>
      if Ascii.eqb c sep then EmptyString :: split sep s'
      else match split sep s' with
           | l :: ls => String c l :: ls
           | [] => [String c EmptyString]
           end
  end.

(** [s.split(sep, 1)]: cut at the first separator only. *)
Fixpoint split1 (sep : ascii) (s : string) : list string :=
  match s with
  | EmptyString => [EmptyString]
  | String c s' =>
      if Ascii.eqb c sep then [EmptyString; s']
      else match split1 sep s' with
           | l :: ls => String c l :: ls
           | [] => [String c EmptyString]
           end
  end.

(** [c.isspace()] below 256: TAB..CR, FS..US, space, NEL and NBSP. *)
Definition isspace (c : ascii) : bool :=
  let n := nat_of_ascii c in
  (((9 <=? n) && (n <=? 13)) || ((28 <=? n) && (n <=? 32))
   || (n =? 133) || (n =? 160))%nat.

Fixpoint lstrip_by (p : ascii -> bool) (s : string) : string :=
  match s with
  | EmptyString => EmptyString
  | String c s' => if p c then lstrip_by p s' else s
  end.

Fixpoint rstrip_by (p : ascii -> bool) (s : string) : string :=
  match s with
  | EmptyString => EmptyString
  | String c s' =>
      match rstrip_by p s' with
      | EmptyString => if p c then EmptyString else String c EmptyString
      | r => String c r
      end
  end.

Definition strip_by (p : ascii -> bool) (s : string) : string :=
  rstrip_by p (lstrip_by p s).

(** [s.strip()] *)
Definition strip : string -> string := strip_by isspace.

(** [s.strip(ch)] for a one-character argument *)
Definition strip_char (ch : ascii) : string -> string :=
  strip_by (Ascii.eqb ch).

(** [s.replace(old, new)] for one-character [old] and [new] *)
Fixpoint replace (old new : ascii) (s : string) : string :=
  match s with
  | EmptyString => EmptyString
  | String c s' =>
      String (if Ascii.eqb c old then new else c) (replace old new s')
  end.

(** [s[-n:]] for [n > 0]: the last [n] characters, all of [s] when it is
    shorter. *)
Definition last_chars (n : nat) (s : string) : string :=
  substring (String.length s - n) n s.

(** Truthiness of a string: non-empty. *)
Definition truthy (s : string) : bool :=
  match s with EmptyString => false | String _ _ => true end.

End PyStr.

(* ===================================================================== *)
(** ** Effects: sub-processes, sleeping, exceptions *)
(* ===================================================================== *)

Module Runtime.

(** Python exceptions.  [except Exception] catches the first kind only; a
    bare [except:] and [finally] see both.  [KeyboardInterrupt] stands for
    the caller's cancellation, which reaches the main thread only. *)
Inductive exn : Type :=
| Exception (cls msg : string)
| KeyboardInterrupt.

Definition is_Exception (e : exn) : bool :=
  match e with Exception _ _ => true | KeyboardInterrupt => false end.

(** [str(e)], what an f-string prints for [{e}]. *)
Definition str (e : exn) : string :=
  match e with Exception _ msg => msg | KeyboardInterrupt => EmptyString end.

Inductive result (A : Type) : Type :=
| Ok (a : A)
| Raise (e : exn).
Arguments Ok {A} a.
Arguments Raise {A} e.

(** The manifest built by [create_debug_pod_spec]. *)
Record VolumeMount := {
  vm_name : string; mountPath : string; readOnly : bool }.

Record Volume := { vol_name : string; hostPath : string }.

Record Container := {
  c_name : string; image : string; command : list string;
  privileged : bool; volumeMounts : list VolumeMount }.

Record Manifest := {
  apiVersion : string; kind : string;
  meta_name : string; meta_namespace : string;
  meta_labels : list (string * string);
  nodeName : string;
  hostNetwork : bool; hostPID : bool; hostIPC : bool;
  restartPolicy : string;
  tolerations : list (list (string * string));
  containers : list Container;
  volumes : list Volume }.

(** What the script asks of the outside world.  Each constructor is one
    call site's argument vector, with the values that vary as arguments. *)
Inductive Cmd : Type :=
| KubectlGetNodes
    (* kubectl get nodes -o json *)
| KubectlGetPodsOnNode (node : string)
    (* kubectl get pods --all-namespaces
         --field-selector spec.nodeName=<node> -o json *)
| KubectlGetPod (pod ns : string)
    (* kubectl get pod <pod> -n <ns> *)
| TempYaml (doc : Manifest)
    (* NamedTemporaryFile(mode='w', suffix='.yaml', delete=False) and
       yaml.dump(doc, f); the answer's stdout is the file's name *)
| KubectlApply (pod_file : string) (doc : Manifest)
    (* kubectl apply -f <pod_file>, the file holding <doc> *)
| Unlink (pod_file : string)
    (* Path(pod_file).unlink() *)
| KubectlGetPodField (pod ns jsonpath : string)
    (* kubectl get pod <pod> -n <ns> -o jsonpath=<jsonpath> *)
| KubectlDescribePod (pod ns : string)
    (* kubectl describe pod <pod> -n <ns> *)
| KubectlExec (ns pod : string) (argv : list string) (timeout : option nat)
    (* kubectl exec -n <ns> <pod> -- <argv>, with subprocess timeout *)
| KubectlDeletePod (pod ns : string)
    (* kubectl delete pod <pod> -n <ns> --ignore-not-found=true,
       timeout=30 *)
| PathExists (path : string)
    (* Path(path).exists(); returncode 0 for True *)
| ReadFile (path : string)
    (* open(path).read(); stdout is the content *).

(** What came back: a completed process, or an exception of class [cls]
    raised by the call itself (a time-out, a missing executable, an I/O
    error: all subclasses of [Exception]). *)
Inductive Response : Type :=
| Completed (returncode : nat) (stdout stderr : string)
| Fails (cls msg : string).

Inductive Event : Type :=
| Ran (c : Cmd) (r : Response)
| Slept (seconds : nat).


(** The outside world answers a request knowing all that happened before. *)
Definition Oracle : Type := list Event -> Cmd -> Response.

Record CompletedProcess := {
  returncode : nat; stdout : string; stderr : string }.

(** A computation reads the history, extends it, and returns or raises. *)
Definition M (A : Type) : Type := list Event -> result A * list Event.

Definition ret {A} (a : A) : M A := fun h => (Ok a, h).

Definition raise {A} (e : exn) : M A := fun h => (Raise e, h).

Definition bind {A B} (m : M A) (k : A -> M B) : M B :=
  fun h => match m h with
           | (Ok a, h') => k a h'
           | (Raise e, h') => (Raise e, h')
           end.

(** [try: body except Exception as e: handler e] *)
Definition try_except {A} (body : M A) (handler : exn -> M A) : M A :=
  fun h => match body h with
           | (Ok a, h') => (Ok a, h')
           | (Raise e, h') =>
               if is_Exception e then handler e h' else (Raise e, h')
           end.

(** [try: body except: handler] *)
Definition try_except_all {A} (body : M A) (handler : M A) : M A :=
  fun h => match body h with
           | (Ok a, h') => (Ok a, h')
           | (Raise _, h') => handler h'
           end.

(** [try: body finally: final] *)
Definition try_finally {A} (body : M A) (final : M unit) : M A :=
  fun h => match body h with
           | (r, h') =>
               match final h' with
               | (Ok _, h'') => (r, h'')
               | (Raise e, h'') => (Raise e, h'')
               end
           end.

(** [subprocess.run(...)] and the file operations: ask the world, record
    the exchange. *)
Definition run (env : Oracle) (c : Cmd) : M CompletedProcess :=
  fun h =>
    let r := env h c in
    match r with
    | Completed rc out err =>
        (Ok {| returncode := rc; stdout := out; stderr := err |},
         (h ++ [Ran c r])%list)
    | Fails cls msg => (Raise (Exception cls msg), (h ++ [Ran c r])%list)
    end.

(** [subprocess.run(..., check=True)] *)
Definition run_checked (env : Oracle) (c : Cmd) : M CompletedProcess :=
  bind (run env c) (fun p =>
    if (returncode p =? 0)%nat then ret p
    else raise (Exception "CalledProcessError" (stderr p))).

(** [time.sleep(seconds)] *)
Definition sleep (seconds : nat) : M unit :=
  fun h => (Ok tt, (h ++ [Slept seconds])%list).

(** The pictographs of the progress messages: the hourglass of line 607,
    the magnifying glass of line 969, the broom of line 1008, the rocket
    of line 1022, the cross mark of lines 1027 and 1051, the bar chart of
    line 1030 and the check mark of line 1049. *)
Inductive Pictograph : Type :=
| Hourglass | Magnifier | Broom | Rocket | CrossMark | BarChart | CheckMark.

(** [sys.stdout], by the pictographs its encoding has.  Text of plain
    characters is taken by every stdout. *)
Definition Console : Type := Pictograph -> bool.

(** [print(message)] for a message that holds the pictograph [p]: on a
    stdout whose encoding lacks it the call raises; what is written is not
    kept. *)
Definition print (console : Console) (p : Pictograph) : M unit :=
  fun h =>
    if console p then (Ok tt, h)
    else (Raise (Exception "UnicodeEncodeError"
                   "codec can't encode character"), h).

Declare Scope py_scope.
Delimit Scope py_scope with py.
Notation "x <- c ;; k" := (bind c (fun x => k))
  (at level 100, c at next level, right associativity) : py_scope.
Notation "c ;;; k" := (bind c (fun _ => k))
  (at level 100, right associativity) : py_scope.

(** The events a computation added to the history. *)
Definition added (h h' : list Event) : list Event :=
  skipn (List.length h) h'.

(** Counting the seconds slept and the requests made. *)
Fixpoint seconds_slept (ev : list Event) : nat :=
  match ev with
  | [] => 0
  | Slept n :: ev' => n + seconds_slept ev'
  | Ran _ _ :: ev' => seconds_slept ev'
  end.

Definition cmds (ev : list Event) : list Cmd :=
  flat_map (fun e => match e with Ran c _ => [c] | Slept _ => [] end) ev.

End Runtime.

(* ===================================================================== *)
(** ** The analyzer *)
(* ===================================================================== *)

Module Analyzer.
Import PyStr Runtime.
Local Open Scope py_scope.

(** *** Data classes *)

Record NodeInfo := {
  name : string;
  roles : list string;
  status : string;
  gpu_pods : nat;
  has_gpu_resources : bool }.

(** [exists] is [exists_] here, and the [node_name] of a configuration
    record is [cfg_node_name]. *)
Record ContainerdConfig := {
  cfg_node_name : string;
  config_path : string;
  exists_ : bool;
  nvidia_runtime_configured : bool;
  config_content : string;
  binary_name : string;
  binary_exists : bool;
  binary_path_used : string;
  error : option string }.

Record NodeGPUStatus := {
  node_name : string;
  containerd_configs : list ContainerdConfig;
  gpu_failure_symptoms : option string;
  debug_pod_deployed : bool;
  execution_error : option string }.

(** The dataclass constructor takes the declared fields only; any other
    keyword is a [TypeError]. *)
Definition ContainerdConfig_fields : list string :=
  ["node_name"; "config_path"; "exists"; "nvidia_runtime_configured";
   "config_content"; "binary_name"; "binary_exists"; "binary_path_used";
   "error"].

Definition dataclass_init {A} (fields keywords : list string) (value : A)
  : M A :=
  match find (fun k => negb (existsb (String.eqb k) fields)) keywords with
  | Some k =>
      raise (Exception "TypeError"
               ("__init__() got an unexpected keyword argument '" ++ k ++ "'"))
  | None => ret value
  end.

(** Truthiness of an [Optional[str]]: neither [None] nor empty. *)
Definition truthy_opt (o : option string) : bool :=
  match o with Some s => truthy s | None => false end.

(** *** Dictionaries keyed by strings, in insertion order *)

Definition dict (V : Type) : Type := list (string * V).

Fixpoint dict_get {V} (d : dict V) (k : string) : option V :=
  match d with
  | [] => None
  | (k', v) :: d' => if String.eqb k' k then Some v else dict_get d' k
  end.

(** [d[k] = v]: in place when [k] is there, at the end otherwise. *)
Fixpoint dict_set {V} (d : dict V) (k : string) (v : V) : dict V :=
  match d with
  | [] => [(k, v)]
  | (k', v') :: d' =>
      if String.eqb k' k then (k', v) :: d'
      else (k', v') :: dict_set d' k v
  end.

Definition keys {V} (d : dict V) : list string := map fst d.

(** *** Decoded JSON *)

Local Set Warnings "-register-all".
Inductive JSON : Type :=
| JNull
| JBool (b : bool)
| JNum (n : nat)
| JStr (s : string)
| JList (l : list JSON)
| JDict (items : dict JSON).

(** [v[k]] *)
Definition getitem (v : JSON) (k : string) : result JSON :=
  match v with
  | JDict d => match dict_get d k with
               | Some x => Ok x
               | None => Raise (Exception "KeyError" k)
               end
  | _ => Raise (Exception "TypeError" "indices must be integers")
  end.

(** [v.get(k, default)] *)
Definition get (v : JSON) (k : string) (default : JSON) : result JSON :=
  match v with
  | JDict d => match dict_get d k with
               | Some x => Ok x
               | None => Ok default
               end
  | _ => Raise (Exception "AttributeError" "object has no attribute 'get'")
  end.

(** [v.items()] *)
Definition items (v : JSON) : result (dict JSON) :=
  match v with
  | JDict d => Ok d
  | _ => Raise (Exception "AttributeError" "object has no attribute 'items'")
  end.

(** [for x in v] *)
Definition iterate (v : JSON) : result (list JSON) :=
  match v with
  | JList l => Ok l
  | JDict d => Ok (map JStr (keys d))
  | JStr s => Ok (map (fun c => JStr (String c EmptyString))
                      (list_ascii_of_string s))
  | _ => Raise (Exception "TypeError" "object is not iterable")
  end.

(** [k in v] for a string [k] *)
Definition member (k : string) (v : JSON) : result bool :=
  match v with
  | JDict d => Ok (existsb (String.eqb k) (keys d))
  | JList l => Ok (existsb (fun x => match x with
                                     | JStr s => String.eqb k s
                                     | _ => false
                                     end) l)
  | JStr s => Ok (contains k s)
  | _ => Raise (Exception "TypeError" "argument is not iterable")
  end.

(** [v == s] for a string [s] *)
Definition eq_str (v : JSON) (s : string) : bool :=
  match v with JStr s' => String.eqb s' s | _ => false end.

(** A node's name is a [str] ([NodeInfo.name]); anything else is
    refused here. *)
Definition as_str (v : JSON) : result string :=
  match v with
  | JStr s => Ok s
  | _ => Raise (Exception "TypeError" "expected str")
  end.

Definition rbind {A B} (r : result A) (k : A -> result B) : result B :=
  match r with Ok a => k a | Raise e => Raise e end.

Definition lift {A} (r : result A) : M A := fun h => (r, h).

Notation "x <~ r ;; k" := (rbind r (fun x => k))
  (at level 100, r at next level, right associativity) : py_scope.

Definition empty_dict : JSON := JDict [].
Definition empty_list : JSON := JList [].

Section Methods.

(** The outside world, the JSON decoder ([None] for a [JSONDecodeError]),
    the constructor's [namespace], and the base64 text of the bundled
    probe script. *)
Variable env : Oracle.
Variable json_loads : string -> option JSON.
Variable namespace : string.
Variable script_b64 : string.
(** [sys.stdout] and [self.max_workers]. *)
Variable console : Console.
Variable max_workers : Z.

Definition debug_pod_prefix : string := "gpu-debug".

Definition loads (s : string) : result JSON :=
  match json_loads s with
  | Some v => Ok v
  | None => Raise (Exception "JSONDecodeError" "Expecting value")
  end.

(** *** Node discovery *)

(** The inner loop of both pod scans: does some container request a GPU?
    Stops at the first that does. *)
Fixpoint requests_gpu (containers : list JSON) : result bool :=
  match containers with
  | [] => Ok false
  | container :: rest =>
      resources <~ get container "resources" empty_dict ;;
      requests <~ get resources "requests" empty_dict ;;
      found <~ member "nvidia.com/gpu" requests ;;
      if found then Ok true else requests_gpu rest
  end.

Fixpoint count_gpu_pods (pods : list JSON) (gpu_pod_count : nat)
  : result nat :=
  match pods with
  | [] => Ok gpu_pod_count
  | pod :: rest =>
      spec <~ get pod "spec" empty_dict ;;
      containers <~ get spec "containers" empty_list ;;
      cs <~ iterate containers ;;
      found <~ requests_gpu cs ;;
      count_gpu_pods rest (if found then S gpu_pod_count else gpu_pod_count)
  end.

Definition _count_gpu_pods_on_node (node_name : string) : M nat :=
  try_except
    (result <- run env (KubectlGetPodsOnNode node_name) ;;
     if negb (returncode result =? 0)%nat then ret 0
     else
       lift (pods_data <~ loads (stdout result) ;;
             its <~ get pods_data "items" empty_list ;;
             pods <~ iterate its ;;
             count_gpu_pods pods 0))
    (fun _ => ret 0).

(** [label.split('/')[-1]] *)
Definition last_component (label : string) : string :=
  last (split "/" label) EmptyString.

Definition node_roles (labels : dict JSON) : list string :=
  flat_map (fun kv =>
              if contains "node-role.kubernetes.io" (fst kv)
              then [last_component (fst kv)] else [])
           labels.

(** The scan of the conditions, up to the first of type [Ready]. *)
Fixpoint node_status (conditions : list JSON) : result string :=
  match conditions with
  | [] => Ok "Unknown"
  | condition :: rest =>
      ty <~ get condition "type" JNull ;;
      if eq_str ty "Ready" then
        st <~ get condition "status" JNull ;;
        Ok (if eq_str st "True" then "Ready" else "NotReady")
      else node_status rest
  end.

Fixpoint scan_nodes (nodes_items : list JSON) (nodes : list NodeInfo)
  : M (list NodeInfo) :=
  match nodes_items with
  | [] => ret nodes
  | node :: rest =>
      parsed <- lift (
        metadata <~ getitem node "metadata" ;;
        nm <~ getitem metadata "name" ;;
        name <~ as_str nm ;;
        labels_v <~ get metadata "labels" empty_dict ;;
        labels <~ items labels_v ;;
        st <~ get node "status" empty_dict ;;
        conditions_v <~ get st "conditions" empty_list ;;
        conditions <~ iterate conditions_v ;;
        status <~ node_status conditions ;;
        allocatable <~ get st "allocatable" empty_dict ;;
        has_gpu <~ member "nvidia.com/gpu" allocatable ;;
        Ok (name, node_roles labels, status, has_gpu)) ;;
      let '(name, roles, status, has_gpu) := parsed in
      gpu_pods <- _count_gpu_pods_on_node name ;;
      scan_nodes rest
        (nodes ++ [{| name := name;
                      roles := match roles with [] => ["worker"] | _ => roles end;
                      status := status;
                      gpu_pods := gpu_pods;
                      has_gpu_resources := has_gpu |}])%list
  end.

Definition get_cluster_nodes : M (list NodeInfo) :=
  try_except
    (result <- run_checked env KubectlGetNodes ;;
     nodes_data <- lift (loads (stdout result)) ;;
     its <- lift (v <~ getitem nodes_data "items" ;; iterate v) ;;
     scan_nodes its [])
    (fun _ => ret []).

(** *** The inspection pod *)

Definition create_debug_pod_spec (node_name : string) : Manifest :=
  let pod_name := debug_pod_prefix ++ "-" ++ replace "." "-" node_name in
  {| apiVersion := "v1";
     kind := "Pod";
     meta_name := pod_name;
     meta_namespace := namespace;
     meta_labels := [("app", "gpu-cluster-debug"); ("node", node_name)];
     nodeName := node_name;
     hostNetwork := true;
     hostPID := true;
     hostIPC := true;
     restartPolicy := "Never";
     tolerations := [[("operator", "Exists")]];
     containers :=
       [{| c_name := "debug";
           image := "python:3.9-slim";
           command := ["/bin/sleep"; "300"];
           privileged := true;
           volumeMounts :=
             [{| vm_name := "host-etc"; mountPath := "/host/etc";
                 readOnly := true |};
              {| vm_name := "host-var"; mountPath := "/host/var";
                 readOnly := true |};
              {| vm_name := "host-usr"; mountPath := "/host/usr";
                 readOnly := true |};
              {| vm_name := "host-dev"; mountPath := "/host/dev";
                 readOnly := true |}] |}];
     volumes :=
       [{| vol_name := "host-etc"; hostPath := "/etc" |};
        {| vol_name := "host-var"; hostPath := "/var" |};
        {| vol_name := "host-usr"; hostPath := "/usr" |};
        {| vol_name := "host-dev"; hostPath := "/dev" |}] |}.

(** The readiness loop of [deploy_debug_pod], [for attempt in
    range(attempts)]: [true] as soon as the pod is running with its
    container ready, [false] when the attempts are used up. *)
Fixpoint wait_ready (pod_name : string) (attempts : nat) : M bool :=
  match attempts with
  | 0 => ret false
  | S remaining =>
      result <- run env
        (KubectlGetPodField pod_name namespace "{.status.phase}") ;;
      ready <-
        (if String.eqb (stdout result) "Running" then
           result <- run env
             (KubectlGetPodField pod_name namespace
                "{.status.containerStatuses[0].ready}") ;;
           ret (String.eqb (stdout result) "true")
         else ret false) ;;
      if (ready : bool) then ret true
      else (sleep 1 ;;; wait_ready pod_name remaining)
  end.

Definition deploy_debug_pod (node_name : string) : M (bool * string) :=
  let pod_name := debug_pod_prefix ++ "-" ++ replace "." "-" node_name in
  try_except
    (result <- run env (KubectlGetPod pod_name namespace) ;;
     if (returncode result =? 0)%nat then ret (true, pod_name)
     else
       let pod_spec := create_debug_pod_spec node_name in
       f <- run env (TempYaml pod_spec) ;;
       let pod_file := stdout f in
       result <- run env (KubectlApply pod_file pod_spec) ;;
       run env (Unlink pod_file) ;;;
       if negb (returncode result =? 0)%nat then
         ret (false, "Failed to create pod: " ++ stderr result)
       else
         (* Waiting for pod to be ready... *)
         print console Hourglass ;;;
         ready <- wait_ready pod_name 60 ;;
         if (ready : bool) then ret (true, pod_name)
         else
           result <- run env (KubectlDescribePod pod_name namespace) ;;
           ret (false,
                "Pod failed to start within timeout. Details: "
                ++ last_chars 500 (stdout result)))
    (fun e => ret (false, "Exception deploying pod: " ++ str e)).

(** *** Reading the runtime configuration *)

Definition dquote : ascii := "034"%char.

(** The chain of four [strip] calls applied to [parts[1]]: white space,
    then double quotes, then single quotes, then white space again. *)
Definition unquote (rhs : string) : string :=
  strip (strip_char "'" (strip_char dquote (strip rhs))).

Definition is_binary_line (line : string) : bool :=
  contains "BinaryName" line && contains "=" line.

(** The scan of [_extract_and_verify_binary] and of the local check: the
    declared path of the first line that names the binary. *)
Fixpoint first_binary_path (lines : list string) : option string :=
  match lines with
  | [] => None
  | line :: rest =>
      if is_binary_line line then
        let parts := split1 "=" line in
        if (List.length parts =? 2)%nat
        then Some (unquote (nth 1 parts EmptyString))
        else first_binary_path rest
      else first_binary_path rest
  end.

(** The dictionary [binary_info]. *)
Record BinaryInfo := {
  bi_binary_name : string;
  bi_binary_exists : bool;
  bi_binary_path : string;
  bi_error : option string }.

(** The source's [try] spans the whole scan; only the sub-process can
    raise, and [binary_name] is stored before it runs, so the handler
    adds [error] to a dictionary that already holds the name. *)
Definition _extract_and_verify_binary (config_content pod_name : string)
  : M BinaryInfo :=
  match first_binary_path (split "010" config_content) with
  | None =>
      ret {| bi_binary_name := EmptyString; bi_binary_exists := false;
             bi_binary_path := EmptyString; bi_error := None |}
  | Some binary_path =>
      let host_binary_path := "/host" ++ binary_path in
      try_except
        (result <- run env
           (KubectlExec namespace pod_name ["test"; "-f"; host_binary_path]
              (Some 10)) ;;
         ret {| bi_binary_name := binary_path;
                bi_binary_exists := (returncode result =? 0)%nat;
                bi_binary_path := binary_path;
                bi_error := None |})
        (fun e =>
           ret {| bi_binary_name := binary_path;
                  bi_binary_exists := false;
                  bi_binary_path := EmptyString;
                  bi_error := Some (str e) |})
  end.

(** The test of the remote path (case folded) ... *)
Definition remote_nvidia_configured (config_content : string) : bool :=
  let content_lower := lower config_content in
  contains "nvidia" content_lower && contains "runc" content_lower.

(** ... and the test of the local path. *)
Definition local_nvidia_configured (config_content : string) : bool :=
  contains "nvidia" config_content && contains "runc" config_content.

Definition remote_config_paths : list string :=
  ["/host/var/lib/k8s-containerd/k8s-containerd/etc/containerd/config.toml";
   "/host/etc/containerd/config.toml";
   "/host/var/lib/rancher/k3s/agent/etc/containerd/config.toml";
   "/host/etc/k3s/containerd/config.toml";
   "/host/var/lib/containerd/config.toml"].

(** One turn of the loop of [get_containerd_config_from_node]: the record
    appended for [config_path]. *)
Definition inspect_config_path (node_name pod_name config_path : string)
  : M ContainerdConfig :=
  try_except
    (result <- run env
       (KubectlExec namespace pod_name ["test"; "-f"; config_path] None) ;;
     let config :=
       {| cfg_node_name := node_name; config_path := config_path;
          exists_ := (returncode result =? 0)%nat;
          nvidia_runtime_configured := false;
          config_content := EmptyString;
          binary_name := EmptyString; binary_exists := false;
          binary_path_used := EmptyString; error := None |} in
     if exists_ config then
       result <- run env
         (KubectlExec namespace pod_name ["cat"; config_path] None) ;;
       if (returncode result =? 0)%nat then
         let content := stdout result in
         let configured := remote_nvidia_configured content in
         if configured then
           binary_info <- _extract_and_verify_binary content pod_name ;;
           ret {| cfg_node_name := node_name; config_path := config_path;
                  exists_ := true;
                  nvidia_runtime_configured := true;
                  config_content := content;
                  binary_name := bi_binary_name binary_info;
                  binary_exists := bi_binary_exists binary_info;
                  binary_path_used := bi_binary_path binary_info;
                  error := None |}
         else
           ret {| cfg_node_name := node_name; config_path := config_path;
                  exists_ := true;
                  nvidia_runtime_configured := false;
                  config_content := content;
                  binary_name := EmptyString; binary_exists := false;
                  binary_path_used := EmptyString; error := None |}
       else
         ret {| cfg_node_name := node_name; config_path := config_path;
                exists_ := true;
                nvidia_runtime_configured := false;
                config_content := EmptyString;
                binary_name := EmptyString; binary_exists := false;
                binary_path_used := EmptyString;
                error := Some ("Failed to read file: " ++ stderr result) |}
     else ret config)
    (fun e =>
       ret {| cfg_node_name := node_name; config_path := config_path;
              exists_ := false;
              nvidia_runtime_configured := false;
              config_content := EmptyString;
              binary_name := EmptyString; binary_exists := false;
              binary_path_used := EmptyString;
              error := Some ("Exception: " ++ str e) |}).

Fixpoint inspect_config_paths (node_name pod_name : string)
    (paths : list string) (configs : list ContainerdConfig)
  : M (list ContainerdConfig) :=
  match paths with
  | [] => ret configs
  | config_path :: rest =>
      config <- inspect_config_path node_name pod_name config_path ;;
      inspect_config_paths node_name pod_name rest (configs ++ [config])%list
  end.

Definition get_containerd_config_from_node (node_name pod_name : string)
  : M (list ContainerdConfig) :=
  inspect_config_paths node_name pod_name remote_config_paths [].

(** *** The probe *)

Definition class_of (e : exn) : string :=
  match e with Exception cls _ => cls | KeyboardInterrupt => EmptyString end.

Definition run_gpu_detection_on_node (node_name pod_name : string)
  : M string :=
  try_except
    (result <- run env
       (KubectlExec namespace pod_name
          ["sh"; "-c";
           "echo " ++ String dquote script_b64
           ++ String dquote " | base64 -d | python3 2>&1"]
          (Some 90)) ;;
     ret (stdout result ++ stderr result))
    (fun e =>
       if String.eqb (class_of e) "TimeoutExpired"
       then ret "GPU detection timed out"
       else ret ("GPU detection failed: " ++ str e)).

(** *** The per-node worker *)

(** [analyze_single_node], with the two methods it calls inside its
    [try] as arguments. *)
Definition analyze_single_node_with
    (get_configs : string -> string -> M (list ContainerdConfig))
    (run_detection : string -> string -> M string)
    (node : NodeInfo) : M NodeGPUStatus :=
  (* Analyzing node: <name> *)
  print console Magnifier ;;;
  deployed <- deploy_debug_pod (name node) ;;
  let '(success, pod_name_or_error) := deployed in
  if negb success then
    ret {| node_name := name node;
           containerd_configs := [];
           gpu_failure_symptoms := None;
           debug_pod_deployed := false;
           execution_error := Some pod_name_or_error |}
  else
    let pod_name := pod_name_or_error in
    try_except
      (containerd_configs <- get_configs (name node) pod_name ;;
       gpu_symptoms <- run_detection (name node) pod_name ;;
       ret {| node_name := name node;
              containerd_configs := containerd_configs;
              gpu_failure_symptoms := Some gpu_symptoms;
              debug_pod_deployed := true;
              execution_error := None |})
      (fun e =>
         ret {| node_name := name node;
                containerd_configs := [];
                gpu_failure_symptoms := None;
                debug_pod_deployed := true;
                execution_error := Some ("Analysis failed: " ++ str e) |}).

Definition analyze_single_node : NodeInfo -> M NodeGPUStatus :=
  analyze_single_node_with
    get_containerd_config_from_node run_gpu_detection_on_node.

(** *** The sweep *)

(** The loop of [cleanup_debug_pods] (lines 1010-1018). *)
Fixpoint cleanup_loop (nodes : list NodeInfo) : M unit :=
  match nodes with
  | [] => ret tt
  | node :: rest =>
      let pod_name :=
        debug_pod_prefix ++ "-" ++ replace "." "-" (name node) in
      try_except_all
        (run env (KubectlDeletePod pod_name namespace) ;;; ret tt)
        (ret tt) ;;;
      cleanup_loop rest
  end.

Definition cleanup_debug_pods (nodes : list NodeInfo) : M unit :=
  (* Cleaning up debug pods... *)
  print console Broom ;;;
  cleanup_loop nodes.

(** *** The orchestrator *)

(** How the pool ran: the order in which the futures completed, as
    positions in the order of submission, and, when the caller cancels,
    the number of futures collected before the interrupt arrives. *)
Record Schedule := {
  completion : list nat;
  interrupt : option nat }.

(** A finished future: the value its worker returned or the exception it
    raised, which [future.result] raises again. *)
Definition Future : Type := (NodeInfo * result NodeGPUStatus)%type.

(** [executor.submit(worker, node) for node in nodes].  The workers are
    run to their end one after the other in the order of submission: the
    interleaving of the workers' requests is not modelled. *)
Fixpoint submit_all (worker : NodeInfo -> M NodeGPUStatus)
    (nodes : list NodeInfo) : M (list Future) :=
  match nodes with
  | [] => ret []
  | node :: rest =>
      fut <- (fun h => let '(r, h') := worker node h in
                       (Ok (node, r), h')) ;;
      futs <- submit_all worker rest ;;
      ret (fut :: futs)
  end.

(** [as_completed(future_to_node)] *)
Definition as_completed (futures : list Future) (order : list nat)
  : list Future :=
  flat_map (fun i => match nth_error futures i with
                     | Some f => [f]
                     | None => []
                     end) order.

Definition tick (interrupt : option nat) : option nat :=
  match interrupt with Some n => Some (pred n) | None => None end.

(** The handler of the collecting loop (lines 1050-1056): the message,
    then the error outcome, stored in the mapping as it is by then. *)
Definition record_failure (node : NodeInfo) (e : exn)
    (results : dict NodeGPUStatus) : M (dict NodeGPUStatus) :=
  (* Failed to analyze <name>: <e> *)
  print console CrossMark ;;;
  ret (dict_set results (name node)
         {| node_name := name node;
            containerd_configs := [];
            gpu_failure_symptoms := None;
            debug_pod_deployed := false;
            execution_error := Some ("Analysis exception: " ++ str e) |}).

(** One turn of the collecting loop (lines 1045-1056).  The result is
    stored before its message is printed, and the handler covers the
    message as well. *)
Definition collect_one (node : NodeInfo) (outcome : result NodeGPUStatus)
    (results : dict NodeGPUStatus) : M (dict NodeGPUStatus) :=
  match outcome with
  | Ok result =>
      let results := dict_set results (name node) result in
      try_except
        ((* Completed analysis for <name> *)
         print console CheckMark ;;;
         ret results)
        (fun e => record_failure node e results)
  | Raise e =>
      if is_Exception e then record_failure node e results else raise e
  end.

(** The collecting loop. *)
Fixpoint collect (completed : list Future) (interrupt : option nat)
    (results : dict NodeGPUStatus) : M (dict NodeGPUStatus) :=
  match interrupt with
  | Some 0 => raise KeyboardInterrupt
  | _ =>
      match completed with
      | [] => ret results
      | (node, outcome) :: rest =>
          results <- collect_one node outcome results ;;
          collect rest (tick interrupt) results
      end
  end.

(** The body of the [try] of [analyze_cluster].
    [ThreadPoolExecutor(max_workers=...)] refuses a width that is not
    positive. *)
Definition run_pool (worker : NodeInfo -> M NodeGPUStatus)
    (sched : Schedule) (nodes : list NodeInfo) : M (dict NodeGPUStatus) :=
  if (max_workers <=? 0)%Z then
    raise (Exception "ValueError" "max_workers must be greater than 0")
  else
    futures <- submit_all worker nodes ;;
    collect (as_completed futures (completion sched)) (interrupt sched) [].

(** [analyze_cluster], with the callable it submits as an argument. *)
Definition analyze_cluster_with (worker : NodeInfo -> M NodeGPUStatus)
    (sched : Schedule) (cleanup : bool) : M (dict NodeGPUStatus) :=
  (* Starting cluster-wide GPU configuration analysis... *)
  print console Rocket ;;;
  nodes <- get_cluster_nodes ;;
  match nodes with
  | [] =>
      (* No nodes found in cluster *)
      print console CrossMark ;;;
      ret []
  | _ =>
      (* Found <n> nodes in cluster *)
      print console BarChart ;;;
      try_finally
        (run_pool worker sched nodes)
        (if cleanup then cleanup_debug_pods nodes else ret tt)
  end.

Definition analyze_cluster : Schedule -> bool -> M (dict NodeGPUStatus) :=
  analyze_cluster_with analyze_single_node.

(** *** Issues *)

Definition has_nvidia_runtime (result : NodeGPUStatus) : bool :=
  existsb nvidia_runtime_configured
    (filter exists_ (containerd_configs result)).

Definition missing_binary (config : ContainerdConfig) : bool :=
  nvidia_runtime_configured config && truthy (binary_name config)
  && negb (binary_exists config).

(** What one turn of the loop of [get_runtime_config_issues] appends. *)
Definition node_issues (node_name : string) (result : NodeGPUStatus)
  : list string :=
  if truthy_opt (execution_error result) then []
  else
    List.app
      (if negb (has_nvidia_runtime result)
       then ["Node " ++ node_name
             ++ ": NVIDIA runtime not configured in containerd config"]
       else [])
      (flat_map (fun config =>
                   if missing_binary config
                   then ["Node " ++ node_name
                         ++ ": NVIDIA runtime binary not found at "
                         ++ binary_name config]
                   else [])
                (containerd_configs result)).

Fixpoint get_runtime_config_issues (results : dict NodeGPUStatus)
  : list string :=
  match results with
  | [] => []
  | (node_name, result) :: rest =>
      (node_issues node_name result ++ get_runtime_config_issues rest)%list
  end.

(** *** Recommendations *)

(** The three buckets of the recommendations of [print_cluster_report]. *)
Record MissingBinary := {
  mb_node : string;
  mb_binary_path : string;
  mb_config_path : string }.

Record Buckets := {
  unconfigured_nodes : list string;
  error_nodes : list string;
  missing_binary_nodes : list MissingBinary }.

Fixpoint fill_buckets (results : dict NodeGPUStatus) (b : Buckets)
  : Buckets :=
  match results with
  | [] => b
  | (node_name, result) :: rest =>
      if truthy_opt (execution_error result) then
        fill_buckets rest
          {| unconfigured_nodes := unconfigured_nodes b;
             error_nodes := List.app (error_nodes b) [node_name];
             missing_binary_nodes := missing_binary_nodes b |}
      else if negb (has_nvidia_runtime result) then
        fill_buckets rest
          {| unconfigured_nodes := List.app (unconfigured_nodes b) [node_name];
             error_nodes := error_nodes b;
             missing_binary_nodes := missing_binary_nodes b |}
      else
        fill_buckets rest
          {| unconfigured_nodes := unconfigured_nodes b;
             error_nodes := error_nodes b;
             missing_binary_nodes :=
               List.app (missing_binary_nodes b)
                 (flat_map
                    (fun config =>
                       if missing_binary config
                       then [{| mb_node := node_name;
                                mb_binary_path := binary_name config;
                                mb_config_path := config_path config |}]
                       else [])
                    (containerd_configs result)) |}
  end.

(** The groups the report prints, by their headings. *)
Inductive Recommendation : Type :=
| MissingBinaryGroup (l : list MissingBinary)
    (* 1. Nodes with missing NVIDIA runtime binary *)
| UnconfiguredGroup (l : list string)
    (* 2. Configure NVIDIA runtime on nodes without it *)
| ErrorGroup (l : list string)
    (* 3. Investigate nodes with analysis errors *)
| VerifyToolkit
    (* 3. Verify NVIDIA Container Toolkit installation *)
| InstallChart
    (* 4. Install or fix NVIDIA GPU Operator Helm chart *)
| FixChart
    (* 4. Fix NVIDIA GPU Operator Helm configuration *)
| RestartContainerd
    (* 5. Restart containerd on misconfigured nodes *).

(** The recommendations of [print_cluster_report], given what the check
    of the release found. *)
Definition recommendations (results : dict NodeGPUStatus)
    (helm_release_found toolkit_config_valid : bool)
  : list Recommendation :=
  let b := fill_buckets results
             {| unconfigured_nodes := []; error_nodes := [];
                missing_binary_nodes := [] |} in
  List.app
    (match missing_binary_nodes b with
     | [] => []
     | l => [MissingBinaryGroup l]
     end)
    (List.app
       (match unconfigured_nodes b with
        | [] => []
        | l => [UnconfiguredGroup l]
        end)
       (List.app
          (match error_nodes b with
           | [] => []
           | l => [ErrorGroup l]
           end)
          (VerifyToolkit
           :: List.app
                (if negb helm_release_found then [InstallChart]
                 else if negb toolkit_config_valid then [FixChart]
                 else [])
                [RestartContainerd]))).

(** *** The local node *)

Definition local_config_paths : list string :=
  ["/var/lib/k8s-containerd/k8s-containerd/etc/containerd/config.toml";
   "/etc/containerd/config.toml";
   "/var/lib/rancher/k3s/agent/etc/containerd/config.toml"].

(** One turn of the loop of [check_local_node_config] for a path that
    exists.  Both constructor calls pass [config_valid], which
    [ContainerdConfig] does not declare. *)
Definition inspect_local_path (config_path : string) : M ContainerdConfig :=
  try_except
    (f <- run env (ReadFile config_path) ;;
     let config_content := stdout f in
     let nvidia_configured := local_nvidia_configured config_content in
     found <-
       match first_binary_path (split "010" config_content) with
       | Some binary_name =>
           e <- run env (PathExists binary_name) ;;
           ret (binary_name, (returncode e =? 0)%nat)
       | None => ret (EmptyString, false)
       end ;;
     let '(binary_name, binary_exists) := found in
     dataclass_init ContainerdConfig_fields
       ["node_name"; "config_path"; "exists"; "nvidia_runtime_configured";
        "config_content"; "binary_name"; "binary_exists";
        "binary_path_used"; "config_valid"]
       {| cfg_node_name := "localhost"; config_path := config_path;
          exists_ := true;
          nvidia_runtime_configured := nvidia_configured;
          config_content := config_content;
          binary_name := binary_name; binary_exists := binary_exists;
          binary_path_used := binary_name; error := None |})
    (fun e =>
       dataclass_init ContainerdConfig_fields
         ["node_name"; "config_path"; "exists";
          "nvidia_runtime_configured"; "config_content"; "config_valid";
          "error"]
         {| cfg_node_name := "localhost"; config_path := config_path;
            exists_ := true;
            nvidia_runtime_configured := false;
            config_content := EmptyString;
            binary_name := EmptyString; binary_exists := false;
            binary_path_used := EmptyString;
            error := Some ("Failed to read: " ++ str e) |}).

Fixpoint check_local_paths (paths : list string)
    (configs : list ContainerdConfig) : M (list ContainerdConfig) :=
  match paths with
  | [] => ret configs
  | config_path :: rest =>
      e <- run env (PathExists config_path) ;;
      if (returncode e =? 0)%nat then
        config <- inspect_local_path config_path ;;
        check_local_paths rest (configs ++ [config])%list
      else check_local_paths rest configs
  end.

Definition check_local_node_config : M (list ContainerdConfig) :=
  configs <- check_local_paths local_config_paths [] ;;
  match configs with
  | [] =>
      ret [{| cfg_node_name := "localhost"; config_path := EmptyString;
              exists_ := false;
              nvidia_runtime_configured := false;
              config_content := EmptyString;
              binary_name := EmptyString; binary_exists := false;
              binary_path_used := EmptyString;
              error := Some "No containerd config found" |}]
  | _ => ret configs
  end.

End Methods.
End Analyzer.

(* ===================================================================== *)
(** ** Notions used to state the properties *)
(* ===================================================================== *)

Module Spec.
Import PyStr Runtime Analyzer.

(** The derived identity of a node's inspection pod, as the three call
    sites are meant to agree on it. *)
Definition pod_identity (node_name : string) : string :=
  "gpu-debug-" ++ replace "." "-" node_name.

(** A computation returns (never raises), whatever happened before. *)
Definition returns {A} (m : M A) : Prop :=
  forall h, exists a, fst (m h) = Ok a.

(** A computation raises nothing but [Exception]s. *)
Definition tame {A} (m : M A) : Prop :=
  forall h, match fst (m h) with
            | Raise e => is_Exception e = true
            | Ok _ => True
            end.

(** A computation only adds to the history, and what it adds satisfies
    [P]. *)
Definition grows {A} (P : list Event -> Prop) (m : M A) : Prop :=
  forall h, exists ev, snd (m h) = (h ++ ev)%list /\ P ev.

(** What a computation returns, when it returns, satisfies [Q]. *)
Definition yields {A} (Q : A -> Prop) (m : M A) : Prop :=
  forall h, match fst (m h) with Ok a => Q a | Raise _ => True end.

(** The pod a request is about, when it is about one. *)
Definition target (c : Cmd) : option string :=
  match c with
  | KubectlGetPod pod _ => Some pod
  | TempYaml doc => Some (meta_name doc)
  | KubectlApply _ doc => Some (meta_name doc)
  | KubectlGetPodField pod _ _ => Some pod
  | KubectlDescribePod pod _ => Some pod
  | KubectlExec _ pod _ _ => Some pod
  | KubectlDeletePod pod _ => Some pod
  | _ => None
  end.

Definition about (pod : string) (e : Event) : Prop :=
  match e with
  | Ran c _ => match target c with Some p => p = pod | None => True end
  | Slept _ => True
  end.



(** The pods of the cluster after a history, from those there before it:
    an [apply] that exits with 0 creates the pod of its manifest, a
    [delete] that exits with 0 leaves no pod of that name (with
    [--ignore-not-found] that also covers a pod that was not there). *)
Definition pod_key : Type := (string * string)%type.

Definition pod_key_dec (a b : pod_key) : {a = b} + {a <> b}.
Proof. decide equality; apply string_dec. Defined.

Definition cluster_step (live : list pod_key) (e : Event) : list pod_key :=
  match e with
  | Ran (KubectlApply _ doc) (Completed 0 _ _) =>
      (meta_namespace doc, meta_name doc) :: live
  | Ran (KubectlDeletePod pod ns) (Completed 0 _ _) =>
      remove pod_key_dec (ns, pod) live
  | _ => live
  end.

Definition pods_after (before : list pod_key) (h : list Event)
  : list pod_key :=
  fold_left cluster_step h before.

(** The sweep's request for a node, with the world's answer to it. *)
Definition swept (env : Oracle) (ns : string) (e : Event) (n : NodeInfo)
  : Prop :=
  exists h,
    e = Ran (KubectlDeletePod (pod_identity (name n)) ns)
            (env h (KubectlDeletePod (pod_identity (name n)) ns)).

Definition is_delete (e : Event) : Prop :=
  match e with
  | Ran (KubectlDeletePod _ _) _ => True
  | _ => False
  end.

Definition succeeded (e : Event) : Prop :=
  match e with
  | Ran _ (Completed 0 _ _) => True
  | _ => False
  end.

(** [marker] occurs in [text] up to letter case ([marker] is lower case). *)
Definition occurs_ci (marker text : string) : Prop :=
  exists pre mid post, text = pre ++ mid ++ post /\ lower mid = marker.

(** What the collecting loop records for a finished future. *)
Definition recorded (node : NodeInfo) (outcome : result NodeGPUStatus)
  : NodeGPUStatus :=
  match outcome with
  | Ok r => r
  | Raise e =>
      {| node_name := name node;
         containerd_configs := [];
         gpu_failure_symptoms := None;
         debug_pod_deployed := false;
         execution_error := Some ("Analysis exception: " ++ str e) |}
  end.

(** The mapping's entry for a finished future. *)
Definition entry (f : Future) : string * NodeGPUStatus :=
  (name (fst f), recorded (fst f) (snd f)).

(** The mapping after the futures of [completed] were collected into
    [results]. *)
Definition collected (completed : list Future)
    (results : dict NodeGPUStatus) : dict NodeGPUStatus :=
  fold_left (fun d f => dict_set d (name (fst f)) (recorded (fst f) (snd f)))
            completed results.

(** A future that holds a value or an [Exception]. *)
Definition settled (f : Future) : Prop :=
  match snd f with Raise e => is_Exception e = true | Ok _ => True end.

(** The two requests of one readiness poll. *)
Definition phase_poll (pod ns : string) : Cmd :=
  KubectlGetPodField pod ns "{.status.phase}".

Definition ready_poll (pod ns : string) : Cmd :=
  KubectlGetPodField pod ns "{.status.containerStatuses[0].ready}".



(** Listing the nodes fails outright: the call itself raises, [kubectl]
    exits with something other than 0, or what it prints is not JSON. *)
Definition listing_fails (env : Oracle)
    (json_loads : string -> option JSON) (h : list Event) : Prop :=
  match env h KubectlGetNodes with
  | Fails _ _ => True
  | Completed rc out _ => rc <> 0 \/ json_loads out = None
  end.

(** A pure step raises nothing but [Exception]s. *)
Definition mild {A} (r : result A) : Prop :=
  match r with Raise e => is_Exception e = true | Ok _ => True end.




(** The two kinds of issue [get_runtime_config_issues] reports. *)
Definition unconfigured_issue (node_name : string) : string :=
  "Node " ++ node_name
  ++ ": NVIDIA runtime not configured in containerd config".

Definition missing_binary_issue (node_name binary : string) : string :=
  "Node " ++ node_name ++ ": NVIDIA runtime binary not found at " ++ binary.

Definition is_unconfigured_issue (s : string) : bool :=
  contains "NVIDIA runtime not configured" s.

Definition is_missing_binary_issue (s : string) : bool :=
  contains "NVIDIA runtime binary not found" s.

(** The priority of a group of recommendations. *)
Definition rank (r : Recommendation) : nat :=
  match r with
  | MissingBinaryGroup _ => 1
  | UnconfiguredGroup _ => 2
  | ErrorGroup _ => 3
  | VerifyToolkit => 3
  | InstallChart => 4
  | FixChart => 4
  | RestartContainerd => 5
  end.

(** The order the specification asks of an issue list: no unconfigured
    issue before a missing-binary issue. *)
Definition prioritized (issues : list string) : Prop :=
  forall i j a b,
    i < j -> nth_error issues i = Some a -> nth_error issues j = Some b ->
    is_missing_binary_issue b = true -> is_unconfigured_issue a = false.

(** A string made of characters of one class only. *)
Fixpoint all_chars (p : ascii -> bool) (s : string) : bool :=
  match s with
  | EmptyString => true
  | String c s' => p c && all_chars p s'
  end.

Fixpoint last_char (s : string) (d : ascii) : ascii :=
  match s with
  | EmptyString => d
  | String c s' => last_char s' c
  end.

(** A non-empty string with no character of the class at either end. *)
Definition bare (p : ascii -> bool) (s : string) : Prop :=
  match s with
  | EmptyString => False
  | String c s' => p c = false /\ p (last_char s' c) = false
  end.

End Spec.

(* ===================================================================== *)
(** ** Concrete clusters *)
(* ===================================================================== *)

Module Scenarios.
Import PyStr Runtime Analyzer Spec.

Definition nl : string := String "010" EmptyString.

(** A configuration that wires in the runtime and names its binary. *)
Definition config_toml : string :=
  "[plugins.cri.containerd.runtimes.nvidia]" ++ nl
  ++ "  runtime_type = io.containerd.runc.v2" ++ nl
  ++ "  BinaryName = " ++ String dquote "/usr/bin/nvidia-container-runtime"
  ++ String dquote nl.

(** Two lines that name a binary, after a comment. *)
Definition config_two_binaries : string :=
  "# containerd" ++ nl
  ++ "  BinaryName = " ++ String dquote "/usr/bin/foo"
  ++ String dquote nl
  ++ "BinaryName = /usr/bin/bar".

(** The same markers in another letter case. *)
Definition config_mixed_case : string :=
  "[plugins.cri.containerd.runtimes.NVIDIA]" ++ nl
  ++ "  runtime_type = io.containerd.RunC.v2" ++ nl.

Definition node_json (name : string) : JSON :=
  JDict
    [("metadata",
      JDict [("name", JStr name);
             ("labels",
              JDict [("node-role.kubernetes.io/worker", JStr "")])]);
     ("status",
      JDict [("conditions",
              JList [JDict [("type", JStr "Ready");
                            ("status", JStr "True")]]);
             ("allocatable", JDict [("nvidia.com/gpu", JStr "1")])])].

(** What the decoder makes of the two documents the cluster prints. *)
Definition demo_json (s : string) : option JSON :=
  if String.eqb s "nodes" then
    Some (JDict [("items",
                  JList [node_json "a.local"; node_json "b.local";
                         node_json "c.local"])])
  else if String.eqb s "pods" then Some (JDict [("items", JList [])])
  else None.

(** A cluster of three nodes.  Every inspection pod starts at once.
    Nodes [a.local] and [b.local] have [/etc/containerd/config.toml],
    holding [config_toml]; node [c.local] has no configuration file.  The
    runtime binary is present on [a.local] only. *)
Definition demo_env : Oracle := fun _ c =>
  match c with
  | KubectlGetNodes => Completed 0 "nodes" ""
  | KubectlGetPodsOnNode _ => Completed 0 "pods" ""
  | KubectlGetPod _ _ => Completed 1 "" "NotFound"
  | TempYaml _ => Completed 0 "/tmp/pod.yaml" ""
  | KubectlApply _ _ => Completed 0 "created" ""
  | Unlink _ => Completed 0 "" ""
  | KubectlGetPodField _ _ path =>
      if String.eqb path "{.status.phase}"
      then Completed 0 "Running" "" else Completed 0 "true" ""
  | KubectlDescribePod _ _ => Completed 0 "" ""
  | KubectlExec _ pod argv _ =>
      match argv with
      | [a1; a2; a3] =>
          if String.eqb a1 "test" then
            if String.eqb a3 "/host/etc/containerd/config.toml" then
              if String.eqb pod "gpu-debug-c-local"
              then Completed 1 "" "" else Completed 0 "" ""
            else if String.eqb a3 "/host/usr/bin/nvidia-container-runtime"
            then
              if String.eqb pod "gpu-debug-a-local"
              then Completed 0 "" "" else Completed 1 "" ""
            else Completed 1 "" ""
          else Completed 0 "=== GPU DETECTION RESULTS ===" ""
      | [a1; a2] => Completed 0 config_toml ""
      | _ => Completed 1 "" ""
      end
  | KubectlDeletePod _ _ => Completed 0 "" ""
  | PathExists _ => Completed 1 "" ""
  | ReadFile _ => Completed 1 "" ""
  end.

(** The futures complete in the order of submission, or in the opposite
    order. *)
Definition in_order : Schedule :=
  {| completion := [0; 1; 2]; interrupt := None |}.

Definition reversed : Schedule :=
  {| completion := [2; 1; 0]; interrupt := None |}.

(** The caller cancels after one future was collected. *)
Definition cancelled : Schedule :=
  {| completion := [0; 1; 2]; interrupt := Some 1 |}.

(** A cluster whose API server cannot be reached. *)
Definition down_env : Oracle := fun _ _ =>
  Completed 1 "" "Unable to connect to the server".

(** A cluster without nodes. *)
Definition empty_env : Oracle := fun _ _ => Completed 0 "none" "".

Definition empty_json (s : string) : option JSON :=
  Some (JDict [("items", JList [])]).

(** A cluster where the pod of every node stays [Pending]. *)
Definition pending_env : Oracle := fun _ c =>
  match c with
  | KubectlGetPod _ _ => Completed 1 "" "NotFound"
  | KubectlGetPodField _ _ _ => Completed 0 "Pending" ""
  | KubectlDescribePod _ _ => Completed 0 "0/1 nodes are available" ""
  | _ => Completed 0 "" ""
  end.

(** A cluster where every pod is already there. *)
Definition present_env : Oracle := fun _ _ => Completed 0 "" "".

(** A node of its own, with [config_mixed_case] at the default path. *)
Definition local_env : Oracle := fun _ c =>
  match c with
  | PathExists path =>
      if String.eqb path "/etc/containerd/config.toml"
      then Completed 0 "" "" else Completed 1 "" ""
  | ReadFile _ => Completed 0 config_mixed_case ""
  | _ => Completed 1 "" ""
  end.

(** A worker that fails on [b.local] and returns an empty status
    elsewhere. *)
Definition flaky_worker (node : NodeInfo) : M NodeGPUStatus :=
  if String.eqb (name node) "b.local"
  then raise (Exception "RuntimeError" "worker crashed")
  else ret {| node_name := name node;
              containerd_configs := [];
              gpu_failure_symptoms := None;
              debug_pod_deployed := true;
              execution_error := None |}.

(** Steps that fail, and steps that do nothing. *)
Definition broken_configs (node_name pod_name : string)
  : M (list ContainerdConfig) :=
  raise (Exception "OSError" "too many open files").

Definition silent_detection (node_name pod_name : string) : M string :=
  ret EmptyString.

Definition node_b : NodeInfo :=
  {| name := "b.local"; roles := ["worker"]; status := "Ready";
     gpu_pods := 0; has_gpu_resources := true |}.

(** A stdout in UTF-8, and one whose encoding has no pictograph. *)
Definition utf8 : Console := fun _ => true.

Definition ascii_only : Console := fun _ => false.

(** A stdout that has every pictograph but the cross mark. *)
Definition no_cross_mark : Console :=
  fun p => match p with CrossMark => false | _ => true end.

(** The three-node cluster with deletions refused. *)
Definition stubborn_env : Oracle := fun h c =>
  match c with
  | KubectlDeletePod _ _ => Completed 1 "" "pods is forbidden"
  | _ => demo_env h c
  end.


(** A binary name in single quotes around double quotes. *)
Definition config_nested_quotes : string :=
  "BinaryName = '" ++ String dquote "/usr/bin/foo" ++ String dquote "'".

End Scenarios.

(* ===================================================================== *)
(** ** The report's figures and the check of the release *)
(* ===================================================================== *)

Module Report.
Import PyStr Runtime Analyzer.

(** The counters of the node-level summary of [print_cluster_report]. *)
Record Summary := {
  total_nodes : nat;
  nodes_with_nvidia_runtime : nat;
  nodes_with_errors : nat;
  nodes_with_configs : nat;
  nodes_with_missing_binary : nat }.

(** The loop over [results.values()]. *)
Fixpoint tally (results : list NodeGPUStatus) (s : Summary) : Summary :=
  match results with
  | [] => s
  | result :: rest =>
      if truthy_opt (execution_error result) then
        tally rest
          {| total_nodes := total_nodes s;
             nodes_with_nvidia_runtime := nodes_with_nvidia_runtime s;
             nodes_with_errors := nodes_with_errors s + 1;
             nodes_with_configs := nodes_with_configs s;
             nodes_with_missing_binary := nodes_with_missing_binary s |}
      else
        let has_config := existsb exists_ (containerd_configs result) in
        let has_nvidia :=
          existsb nvidia_runtime_configured (containerd_configs result) in
        tally rest
          {| total_nodes := total_nodes s;
             nodes_with_nvidia_runtime :=
               if has_nvidia then nodes_with_nvidia_runtime s + 1
               else nodes_with_nvidia_runtime s;
             nodes_with_errors := nodes_with_errors s;
             nodes_with_configs :=
               if has_config then nodes_with_configs s + 1
               else nodes_with_configs s;
             nodes_with_missing_binary :=
               if has_nvidia
                  && existsb missing_binary (containerd_configs result)
               then nodes_with_missing_binary s + 1
               else nodes_with_missing_binary s |}
  end.

Definition summary (results : dict NodeGPUStatus) : Summary :=
  tally (map snd results)
    {| total_nodes := List.length results;
       nodes_with_nvidia_runtime := 0;
       nodes_with_errors := 0;
       nodes_with_configs := 0;
       nodes_with_missing_binary := 0 |}.

End Report.

Module Toolkit.
Import PyStr Runtime Analyzer.

(** Truthiness of a decoded value. *)
Definition truthy_value (v : JSON) : bool :=
  match v with
  | JNull => false
  | JBool b => b
  | JNum n => negb (n =? 0)%nat
  | JStr s => truthy s
  | JList l => match l with [] => false | _ => true end
  | JDict d => match d with [] => false | _ => true end
  end.

(** What a required setting is compared with: [True], or a string. *)
Inductive Expected : Type :=
| ExpTrue
| ExpStr (s : string).

(** [actual != expected] *)
Definition differs (actual : JSON) (expected : Expected) : bool :=
  match expected with
  | ExpStr s => negb (eq_str actual s)
  | ExpTrue => match actual with
               | JBool true => false
               | JNum 1 => false
               | _ => true
               end
  end.

Definition required_toolkit_config : list (string * Expected) :=
  [("enabled", ExpTrue);
   ("image", ExpStr "container-toolkit");
   ("imagePullPolicy", ExpStr "IfNotPresent");
   ("installDir", ExpStr "/usr/local/nvidia");
   ("repository", ExpStr "nvcr.io/nvidia/k8s");
   ("version", ExpStr "v1.17.5-ubuntu20.04")].

Definition required_env_vars : list (string * string) :=
  [("CONTAINERD_CONFIG",
    "/var/lib/k8s-containerd/k8s-containerd/etc/containerd/config.toml");
   ("CONTAINERD_SOCKET",
    "/var/lib/k8s-containerd/k8s-containerd/run/containerd/containerd.sock");
   ("CONTAINERD_RUNTIME_CLASS", "nvidia")].

(** The dictionary [_validate_toolkit_config] returns. *)
Record Validation := {
  toolkit_config_valid : bool;
  missing_configs : list string;
  config_details : JSON }.

(** [v.copy()] *)
Definition copy (v : JSON) : result JSON :=
  match v with
  | JDict _ => Ok v
  | JList _ => Ok v
  | _ => Raise (Exception "AttributeError" "object has no attribute 'copy'")
  end.

(** [d.get(k)] on a value known to be a dictionary: [None] by default. *)
Definition lookup (d : dict JSON) (k : string) : JSON :=
  match dict_get d k with Some v => v | None => JNull end.

Section Validate.

(** [str(v)] of a decoded value, as an f-string prints it. *)
Variable py_str : JSON -> string.

Definition expected_text (e : Expected) : string :=
  match e with ExpTrue => "True" | ExpStr s => s end.

(** The loop over the required fields: the messages it appends. *)
Fixpoint field_messages (required : list (string * Expected))
    (toolkit_config : dict JSON) : list string :=
  match required with
  | [] => []
  | (field, expected_value) :: rest =>
      if String.eqb field "enabled" then field_messages rest toolkit_config
      else
        let actual_value := lookup toolkit_config field in
        if differs actual_value expected_value then
          ("toolkit." ++ field ++ " should be '"
           ++ expected_text expected_value ++ "', found: '"
           ++ py_str actual_value ++ "'")
          :: field_messages rest toolkit_config
        else field_messages rest toolkit_config
  end.

(** The inner loop: is the required variable among [env_vars]? *)
Definition env_found (env_vars : list JSON) (required_env : string * string)
  : bool :=
  existsb (fun env_var =>
             match env_var with
             | JDict d =>
                 eq_str (lookup d "name") (fst required_env)
                 && eq_str (lookup d "value") (snd required_env)
             | _ => false
             end) env_vars.

Definition env_messages (env_vars : list JSON) : list string :=
  flat_map (fun required_env =>
              if env_found env_vars required_env then []
              else ["toolkit.env missing: " ++ fst required_env ++ "="
                    ++ snd required_env])
           required_env_vars.

Definition _validate_toolkit_config (values : JSON) : result Validation :=
  rbind (get values "toolkit" empty_dict) (fun toolkit_config =>
  rbind (copy toolkit_config) (fun details =>
  rbind (get toolkit_config "enabled" (JBool false)) (fun enabled =>
  match toolkit_config with
  | JDict d =>
      let m1 := if negb (truthy_value enabled)
                then ["toolkit.enabled should be true"] else [] in
      let m2 := field_messages required_toolkit_config d in
      let m3 := match dict_get d "env" with
                | None => env_messages []
                | Some (JList env_vars) => env_messages env_vars
                | Some _ => ["toolkit.env should be a list"]
                end in
      let missing := List.app m1 (List.app m2 m3) in
      Ok {| toolkit_config_valid :=
              match missing with [] => true | _ => false end;
            missing_configs := missing;
            config_details := details |}
  | _ => Raise (Exception "AttributeError" "object has no attribute 'get'")
  end))).

End Validate.
End Toolkit.

(* ===================================================================== *)
(** ** The checks of the cluster as a whole *)
(* ===================================================================== *)

Module Cluster.
Import PyStr Runtime Analyzer.

(** A command line, as [subprocess.run] takes it. *)
Definition Argv : Type := list string.

Inductive Call : Type :=
| Spawned (argv : Argv) (r : Response).

(** The outside world answers a command line knowing what ran before. *)
Definition World : Type := list Call -> Argv -> Response.

(** A computation over a value of type [S] that it updates in place (the
    dictionary a check fills in) and the command lines run so far: what
    was written before an exception stays written. *)
Definition St (S A : Type) : Type :=
  S * list Call -> result A * (S * list Call).

Definition ret {S A} (a : A) : St S A := fun s => (Ok a, s).

Definition raise {S A} (e : exn) : St S A := fun s => (Raise e, s).

Definition bind {S A B} (m : St S A) (k : A -> St S B) : St S B :=
  fun s => match m s with
           | (Ok a, s') => k a s'
           | (Raise e, s') => (Raise e, s')
           end.

Definition lift {S A} (r : result A) : St S A := fun s => (r, s).

Definition modify {S} (f : S -> S) : St S unit :=
  fun s => (Ok tt, (f (fst s), snd s)).

(** [except (cls1, cls2, ...)] *)
Definition is_class (classes : list string) (e : exn) : bool :=
  match e with
  | Exception cls _ => existsb (String.eqb cls) classes
  | KeyboardInterrupt => false
  end.

(** The [except] clauses of a [try], tried in order. *)
Fixpoint handle {S A} (handlers : list (list string * (exn -> St S A)))
    (e : exn) : St S A :=
  match handlers with
  | [] => raise e
  | (classes, handler) :: rest =>
      if is_class classes e then handler e else handle rest e
  end.

Definition try_except_of {S A} (body : St S A)
    (handlers : list (list string * (exn -> St S A))) : St S A :=
  fun s => match body s with
           | (Ok a, s') => (Ok a, s')
           | (Raise e, s') => handle handlers e s'
           end.

(** [try: body except Exception as e: handler e] *)
Definition try_except {S A} (body : St S A) (handler : exn -> St S A)
  : St S A :=
  fun s => match body s with
           | (Ok a, s') => (Ok a, s')
           | (Raise e, s') =>
               if is_Exception e then handler e s' else (Raise e, s')
           end.

Declare Scope sh_scope.
Delimit Scope sh_scope with sh.
Notation "x <- c ;; k" := (bind c (fun x => k))
  (at level 100, c at next level, right associativity) : sh_scope.
Notation "c ;;; k" := (bind c (fun _ => k))
  (at level 100, right associativity) : sh_scope.
Local Open Scope sh_scope.

(** What [get_pending_gpu_pods] records of a pod. *)
Record PendingPod := {
  pp_name : JSON;
  pp_namespace : JSON;
  pp_status : JSON;
  pp_node : JSON }.

(** The dictionary [check_gpu_operator_helm_config] fills in;
    [config_details] is there once a validation was merged in. *)
Record ConfigStatus := {
  helm_release_found : bool;
  toolkit_config_valid : bool;
  missing_configs : list string;
  errors : list string;
  config_details : option JSON }.

Definition initial_status : ConfigStatus :=
  {| helm_release_found := false; toolkit_config_valid := false;
     missing_configs := []; errors := []; config_details := None |}.

(** [config_status['errors'].append(msg)] *)
Definition add_error (msg : string) : St ConfigStatus unit :=
  modify (fun c =>
            {| helm_release_found := helm_release_found c;
               toolkit_config_valid := toolkit_config_valid c;
               missing_configs := missing_configs c;
               errors := (errors c ++ [msg])%list;
               config_details := config_details c |}).

(** [config_status['helm_release_found'] = True] *)
Definition set_found : St ConfigStatus unit :=
  modify (fun c =>
            {| helm_release_found := true;
               toolkit_config_valid := toolkit_config_valid c;
               missing_configs := missing_configs c;
               errors := errors c;
               config_details := config_details c |}).

(** [config_status.update(validation)] *)
Definition update (v : Toolkit.Validation) : St ConfigStatus unit :=
  modify (fun c =>
            {| helm_release_found := helm_release_found c;
               toolkit_config_valid := Toolkit.toolkit_config_valid v;
               missing_configs := Toolkit.missing_configs v;
               errors := errors c;
               config_details := Some (Toolkit.config_details v) |}).

(** [any(cs.get('state', {}).get('waiting', {}).get('reason', '') in
    ['CreateContainerError', 'ContainerStatusUnknown'] for cs in ...)] *)
Fixpoint has_errors (container_statuses : list JSON) : result bool :=
  match container_statuses with
  | [] => Ok false
  | cs :: rest =>
      (state <~ get cs "state" empty_dict ;;
       waiting <~ get state "waiting" empty_dict ;;
       reason <~ get waiting "reason" (JStr "") ;;
       if eq_str reason "CreateContainerError"
          || eq_str reason "ContainerStatusUnknown"
       then Ok true else has_errors rest)%py
  end.

(** The loop of [get_pending_gpu_pods] over the listed pods. *)
Fixpoint scan_pods (pods : list JSON) (pending_pods : list PendingPod)
  : result (list PendingPod) :=
  match pods with
  | [] => Ok pending_pods
  | pod :: rest =>
      (spec <~ get pod "spec" empty_dict ;;
       containers <~ get spec "containers" empty_list ;;
       cs <~ iterate containers ;;
       has_gpu_request <~ requests_gpu cs ;;
       if has_gpu_request then
         status <~ get pod "status" empty_dict ;;
         phase <~ get status "phase" (JStr "Unknown") ;;
         container_statuses <~ get status "containerStatuses" empty_list ;;
         sts <~ iterate container_statuses ;;
         errs <~ has_errors sts ;;
         if eq_str phase "Pending" || errs then
           metadata <~ getitem pod "metadata" ;;
           name <~ getitem metadata "name" ;;
           metadata' <~ getitem pod "metadata" ;;
           namespace <~ getitem metadata' "namespace" ;;
           spec' <~ get pod "spec" empty_dict ;;
           node <~ get spec' "nodeName" (JStr "Not scheduled") ;;
           scan_pods rest
             (List.app pending_pods
                [{| pp_name := name; pp_namespace := namespace;
                    pp_status := phase; pp_node := node |}])
         else scan_pods rest pending_pods
       else scan_pods rest pending_pods)%py
  end.

(** The first release whose name holds [gpu-operator]. *)
Fixpoint find_release (helm_releases : list JSON) : result (option JSON) :=
  match helm_releases with
  | [] => Ok None
  | release :: rest =>
      (name <~ get release "name" (JStr "") ;;
       hit <~ member "gpu-operator" name ;;
       if hit then Ok (Some release) else find_release rest)%py
  end.

Fixpoint find_helmrelease (items : list JSON) : result (option JSON) :=
  match items with
  | [] => Ok None
  | hr :: rest =>
      (metadata <~ get hr "metadata" empty_dict ;;
       name <~ get metadata "name" (JStr "") ;;
       hit <~ member "gpu-operator" name ;;
       if hit then Ok (Some hr) else find_helmrelease rest)%py
  end.

(** [if x:] for a variable that starts as [None]. *)
Definition found_one (o : option JSON) : bool :=
  match o with Some v => Toolkit.truthy_value v | None => false end.

Section Checks.

Variable world : World.
Variable json_loads : string -> option JSON.
(** [yaml.safe_load]: [None] when it raises a [YAMLError]. *)
Variable yaml_safe_load : string -> option JSON.
(** [str(v)] of a decoded value. *)
Variable py_str : JSON -> string.
(** [str(e)] of the [CalledProcessError] of a command line and an exit
    status. *)
Variable status_text : Argv -> nat -> string.
(** [self.kubectl_available], set when the analyzer is made. *)
Variable kubectl_available : bool.

(** [subprocess.run(argv, capture_output=True, text=True)] *)
Definition spawn {S} (argv : Argv) : St S CompletedProcess :=
  fun s =>
    let r := world (snd s) argv in
    match r with
    | Completed rc out err =>
        (Ok {| returncode := rc; stdout := out; stderr := err |},
         (fst s, (snd s ++ [Spawned argv r])%list))
    | Fails cls msg =>
        (Raise (Exception cls msg), (fst s, (snd s ++ [Spawned argv r])%list))
    end.

(** [subprocess.run(..., check=True)]; the exception's text stands for
    its [stderr]. *)
Definition spawn_checked {S} (argv : Argv) : St S CompletedProcess :=
  p <- spawn argv ;;
  if (returncode p =? 0)%nat then ret p
  else raise (Exception "CalledProcessError" (stderr p)).

Definition loads (s : string) : result JSON :=
  match json_loads s with
  | Some v => Ok v
  | None => Raise (Exception "JSONDecodeError" "Expecting value")
  end.

Definition safe_load (s : string) : result JSON :=
  match yaml_safe_load s with
  | Some v => Ok v
  | None => Raise (Exception "YAMLError" "could not parse")
  end.

Definition _check_kubectl {S} : St S bool :=
  try_except_of
    (spawn_checked ["kubectl"; "version"; "--client"] ;;; ret true)
    [(["CalledProcessError"; "FileNotFoundError"], fun _ => ret false)].

(** With [check=True] a [CalledProcessError] is raised exactly for an exit
    status that is not 0, and handled on the spot: [e.stderr or str(e)]. *)
Definition _run_kubectl {S} (args : list string) : St S (bool * string) :=
  if negb kubectl_available then ret (false, "kubectl not available")
  else
    let cmd := "kubectl" :: args in
    result <- spawn cmd ;;
    if (returncode result =? 0)%nat then ret (true, stdout result)
    else ret (false,
              if truthy (stderr result) then stderr result
              else status_text cmd (returncode result)).

(** Only [json.loads] raises a [JSONDecodeError], so the list is still
    empty when the handler passes. *)
Definition get_pending_gpu_pods {S} : St S (list PendingPod) :=
  so <- _run_kubectl ["get"; "pods"; "--all-namespaces"; "-o"; "json"] ;;
  let '(success, output) := so in
  if negb success then ret []
  else
    try_except_of
      (pods_data <- lift (loads output) ;;
       lift (its <~ get pods_data "items" empty_list ;;
             pods <~ iterate its ;;
             scan_pods pods [])%py)
      [(["JSONDecodeError"], fun _ => ret [])].

Definition check_nvidia_device_plugin_status {S} : St S (dict string) :=
  so <- _run_kubectl ["get"; "daemonset"; "nvidia-device-plugin-daemonset";
                      "-n"; "gpu-operator"; "-o"; "json"] ;;
  let '(success, output) := so in
  if success then
    try_except_of
      (ds_data <- lift (loads output) ;;
       lift (status_info <~ get ds_data "status" empty_dict ;;
             desired <~ get status_info "desiredNumberScheduled" (JNum 0) ;;
             ready <~ get status_info "numberReady" (JNum 0) ;;
             available <~ get status_info "numberAvailable" (JNum 0) ;;
             Ok [("desired", py_str desired); ("ready", py_str ready);
                 ("available", py_str available)])%py)
      [(["JSONDecodeError"],
        fun _ => ret [("error", "Failed to parse device plugin status")])]
  else ret [("error", "Device plugin not found")].

Definition check_nvidia_container_toolkit_status {S} : St S string :=
  so <- _run_kubectl ["get"; "daemonset";
                      "nvidia-container-toolkit-daemonset";
                      "-n"; "gpu-operator"; "-o"; "json"] ;;
  let '(success, output) := so in
  if success then
    try_except_of
      (ds_data <- lift (loads output) ;;
       lift (status_info <~ get ds_data "status" empty_dict ;;
             ready <~ get status_info "numberReady" (JNum 0) ;;
             desired <~ get status_info "desiredNumberScheduled" (JNum 0) ;;
             Ok ("Ready: " ++ py_str ready ++ "/" ++ py_str desired))%py)
      [(["JSONDecodeError"],
        fun _ => ret "Error: Failed to parse toolkit status")]
  else ret "Error: Toolkit not found".

(** The values of the release found by [helm list], checked. *)
Definition check_release_values (release : JSON) : St ConfigStatus unit :=
  try_except_of
    (name <- lift (name <~ getitem release "name" ;; as_str name)%py ;;
     values_output <-
       spawn_checked ["helm"; "get"; "values"; name;
                      "-n"; "gpu-operator"; "-o"; "yaml"] ;;
     values <- lift (safe_load (stdout values_output)) ;;
     v <- lift (Toolkit._validate_toolkit_config py_str values) ;;
     update v)
    [(["CalledProcessError"],
      fun e => add_error ("Failed to get Helm values: " ++ str e));
     (["YAMLError"],
      fun e => add_error ("Failed to parse Helm values: " ++ str e))].

(** The alternative taken when the FluxCD listing fails. *)
Definition check_helm_list : St ConfigStatus unit :=
  try_except_of
    (helm_list <-
       spawn_checked ["helm"; "list"; "-n"; "gpu-operator"; "-o"; "json"] ;;
     helm_releases <- lift (loads (stdout helm_list)) ;;
     gpu_operator_release <-
       lift (releases <~ iterate helm_releases ;; find_release releases)%py ;;
     if found_one gpu_operator_release then
       match gpu_operator_release with
       | Some release => set_found ;;; check_release_values release
       | None => ret tt
       end
     else ret tt)
    [(["CalledProcessError"],
      fun _ => add_error "No GPU Operator Helm release found");
     (["JSONDecodeError"],
      fun _ => add_error "Failed to parse Helm list output")].

(** The FluxCD listing, parsed. *)
Definition check_helmreleases (output : string) : St ConfigStatus unit :=
  try_except_of
    (helmreleases <- lift (loads output) ;;
     gpu_operator_hr <-
       lift (its <~ get helmreleases "items" empty_list ;;
             hrs <~ iterate its ;;
             find_helmrelease hrs)%py ;;
     if found_one gpu_operator_hr then
       match gpu_operator_hr with
       | Some hr =>
           set_found ;;;
           v <- lift (spec <~ get hr "spec" empty_dict ;;
                      values <~ get spec "values" empty_dict ;;
                      Toolkit._validate_toolkit_config py_str values)%py ;;
           update v
       | None => ret tt
       end
     else add_error "No GPU Operator HelmRelease found")
    [(["JSONDecodeError"],
      fun _ => add_error "Failed to parse HelmRelease data")].

Definition fill_config_status : St ConfigStatus unit :=
  try_except
    (helm_check <- spawn ["helm"; "version"] ;;
     if negb (returncode helm_check =? 0)%nat then
       add_error "Helm not available or not configured"
     else
       so <- _run_kubectl ["get"; "helmreleases.helm.fluxcd.io";
                           "-n"; "gpu-operator"; "-o"; "json"] ;;
       let '(success, output) := so in
       if negb success then check_helm_list
       else check_helmreleases output)
    (fun e =>
       add_error ("Unexpected error checking Helm config: " ++ str e)).

(** [check_gpu_operator_helm_config]: the dictionary as it is at the
    end. *)
Definition check_gpu_operator_helm_config (h : list Call)
  : result ConfigStatus * list Call :=
  match fill_config_status (initial_status, h) with
  | (Ok _, (config_status, h')) => (Ok config_status, h')
  | (Raise e, (_, h')) => (Raise e, h')
  end.

End Checks.
End Cluster.

(* ===================================================================== *)
(** ** Further cases *)
(* ===================================================================== *)

Module Cases.
Import PyStr Runtime Analyzer Spec Scenarios.

(** A record of a configured node whose binary is missing, and the
    outcomes of two nodes: that one, and one whose analysis failed. *)
Definition record_b : ContainerdConfig :=
  {| cfg_node_name := "b.local";
     config_path := "/host/etc/containerd/config.toml";
     exists_ := true;
     nvidia_runtime_configured := true;
     config_content := config_toml;
     binary_name := "/usr/bin/nvidia-container-runtime";
     binary_exists := false;
     binary_path_used := EmptyString;
     error := None |}.

Definition two_outcomes : dict NodeGPUStatus :=
  [("b.local",
    {| node_name := "b.local"; containerd_configs := [record_b];
       gpu_failure_symptoms := None; debug_pod_deployed := true;
       execution_error := None |});
   ("d.local",
    {| node_name := "d.local"; containerd_configs := [];
       gpu_failure_symptoms := None; debug_pod_deployed := false;
       execution_error := Some "Failed to create pod: denied" |})].

(** The toolkit section a release must carry, and values that hold it. *)
Definition toolkit_section : dict JSON :=
  [("enabled", JBool true);
   ("image", JStr "container-toolkit");
   ("imagePullPolicy", JStr "IfNotPresent");
   ("installDir", JStr "/usr/local/nvidia");
   ("repository", JStr "nvcr.io/nvidia/k8s");
   ("version", JStr "v1.17.5-ubuntu20.04");
   ("env",
    JList
      [JDict [("name", JStr "CONTAINERD_CONFIG");
              ("value",
               JStr "/var/lib/k8s-containerd/k8s-containerd/etc/containerd/config.toml")];
       JDict [("name", JStr "CONTAINERD_SOCKET");
              ("value",
               JStr "/var/lib/k8s-containerd/k8s-containerd/run/containerd/containerd.sock")];
       JDict [("name", JStr "CONTAINERD_RUNTIME_CLASS");
              ("value", JStr "nvidia")]])].

Definition release_values : JSON :=
  JDict [("driver", JDict [("enabled", JBool true)]);
         ("toolkit", JDict toolkit_section)].

Definition plain_str (v : JSON) : string :=
  match v with JStr s => s | _ => "None" end.

End Cases.

(* ===================================================================== *)
(** ** Further notions *)
(* ===================================================================== *)

Module Notions.
Import PyStr Runtime Analyzer Spec Toolkit.

(** A computation returns, and what it returns satisfies [Q]. *)
Definition always {A} (Q : A -> Prop) (m : M A) : Prop :=
  forall h, exists a, fst (m h) = Ok a /\ Q a.

(** What a configuration record of the remote path never breaks: a
    configured record exists, has no error and holds both markers; a
    record that does not exist or has an error holds no content and is not
    configured; a binary is found only for a configured record; the path
    used is the declared one, or empty. *)
Definition coherent (c : ContainerdConfig) : Prop :=
  (nvidia_runtime_configured c = true ->
   exists_ c = true /\ error c = None
   /\ remote_nvidia_configured (config_content c) = true)
  /\ (exists_ c = false ->
      config_content c = EmptyString /\ nvidia_runtime_configured c = false)
  /\ (error c <> None ->
      config_content c = EmptyString /\ nvidia_runtime_configured c = false)
  /\ (binary_exists c = true -> nvidia_runtime_configured c = true)
  /\ (binary_path_used c = EmptyString
      \/ binary_path_used c = binary_name c).

(** The existence test of a declared binary. *)
Definition binary_test (ns pod binary_path : string) : Cmd :=
  KubectlExec ns pod ["test"; "-f"; "/host" ++ binary_path] (Some 10).

(** A discovered node as discovery always makes it. *)
Definition well_formed_node (n : NodeInfo) : Prop :=
  roles n <> []
  /\ (status n = "Unknown" \/ status n = "Ready" \/ status n = "NotReady").

(** A request that is about [pod] and deletes nothing. *)
Definition harmless (pod : string) (e : Event) : Prop :=
  about pod e /\ ~ is_delete e.

(** A request that deletes nothing. *)
Definition keeps (e : Event) : Prop := ~ is_delete e.

(** The items of a decoded listing: [data.get('items', [])], iterated. *)
Definition listed (data : JSON) : result (list JSON) :=
  rbind (get data "items" empty_list) iterate.

(** A node whose analysis ended in an error. *)
Definition failed (r : NodeGPUStatus) : bool :=
  truthy_opt (execution_error r).

Definition count {A} (p : A -> bool) (l : list A) : nat :=
  List.length (filter p l).

Definition no_buckets : Buckets :=
  {| unconfigured_nodes := []; error_nodes := []; missing_binary_nodes := [] |}.

(** A status whose records are all coherent, as the remote path makes
    them. *)
Definition sound (r : NodeGPUStatus) : Prop :=
  Forall coherent (containerd_configs r).

(** The missing-binary entries of one node. *)
Definition entries_of (node_name : string) (r : NodeGPUStatus)
  : list MissingBinary :=
  map (fun c => {| mb_node := node_name;
                   mb_binary_path := binary_name c;
                   mb_config_path := config_path c |})
      (filter missing_binary (containerd_configs r)).

(** The three kinds of node the recommendations tell apart. *)
Definition is_failed (kv : string * NodeGPUStatus) : bool := failed (snd kv).

Definition is_unconfigured (kv : string * NodeGPUStatus) : bool :=
  negb (failed (snd kv)) && negb (has_nvidia_runtime (snd kv)).

Definition is_configured (kv : string * NodeGPUStatus) : bool :=
  negb (failed (snd kv)) && has_nvidia_runtime (snd kv).

(** The string settings the release must carry. *)
Definition required_strings : list (string * string) :=
  [("image", "container-toolkit");
   ("imagePullPolicy", "IfNotPresent");
   ("installDir", "/usr/local/nvidia");
   ("repository", "nvcr.io/nvidia/k8s");
   ("version", "v1.17.5-ubuntu20.04")].

(** [env_vars] holds the variable [name] with the value [value]. *)
Definition provides (env_vars : list JSON) (name value : string) : Prop :=
  exists d, In (JDict d) env_vars
            /\ dict_get d "name" = Some (JStr name)
            /\ dict_get d "value" = Some (JStr value).

(** A toolkit section that meets every requirement. *)
Definition compliant (toolkit : dict JSON) : Prop :=
  (exists v, dict_get toolkit "enabled" = Some v /\ truthy_value v = true)
  /\ (forall field value, In (field, value) required_strings ->
        dict_get toolkit field = Some (JStr value))
  /\ exists env_vars,
       dict_get toolkit "env" = Some (JList env_vars)
       /\ forall name value, In (name, value) required_env_vars ->
            provides env_vars name value.

(** The toolkit section [_validate_toolkit_config] looks at. *)
Definition section_of (values : JSON) : option JSON :=
  match values with
  | JDict d => Some (match dict_get d "toolkit" with
                     | Some t => t
                     | None => empty_dict
                     end)
  | _ => None
  end.

(** The one record the local path can report. *)
Definition no_config_found : ContainerdConfig :=
  {| cfg_node_name := "localhost"; config_path := EmptyString;
     exists_ := false;
     nvidia_runtime_configured := false;
     config_content := EmptyString;
     binary_name := EmptyString; binary_exists := false;
     binary_path_used := EmptyString;
     error := Some "No containerd config found" |}.

Definition unexpected_config_valid : exn :=
  Exception "TypeError"
    "__init__() got an unexpected keyword argument 'config_valid'".

(** The request found nothing at [path]. *)
Definition absent (path : string) (e : Event) : Prop :=
  exists rc out err,
    e = Ran (PathExists path) (Completed rc out err) /\ rc <> 0.

(** An outcome stored under its own node's name, with coherent records. *)
Definition filed (kv : string * NodeGPUStatus) : Prop :=
  node_name (snd kv) = fst kv /\ sound (snd kv).

(** The outcome a worker may leave for [node]. *)
Definition outcome_of (node : NodeInfo) (status : NodeGPUStatus) : Prop :=
  node_name status = name node /\ sound status.

End Notions.

(* ===================================================================== *)
(** ** Notions for the checks of the cluster *)
(* ===================================================================== *)

Module ClusterNotions.
Import PyStr Runtime Analyzer Spec Notions.
Import Cluster.

Definition argv_of (c : Call) : Argv :=
  match c with Spawned argv _ => argv end.

(** The command lines of [check_gpu_operator_helm_config], in the order
    it can issue them. *)
Definition helm_version : Argv := ["helm"; "version"].

Definition kubectl_helmreleases : Argv :=
  ["kubectl"; "get"; "helmreleases.helm.fluxcd.io";
   "-n"; "gpu-operator"; "-o"; "json"].

Definition helm_list : Argv :=
  ["helm"; "list"; "-n"; "gpu-operator"; "-o"; "json"].

Definition helm_get_values (release : string) : Argv :=
  ["helm"; "get"; "values"; release; "-n"; "gpu-operator"; "-o"; "yaml"].

Definition request_plan (kubectl_available : bool) (release : string)
  : list Argv :=
  helm_version
  :: ((if kubectl_available then [kubectl_helmreleases] else [])
      ++ [helm_list; helm_get_values release])%list.

(** The three states the dictionary of the check can end in: no release
    found (with at most one error), a release found and its values
    validated, a release found and the check of its values failed. *)
Inductive reached (py_str : JSON -> string) : ConfigStatus -> Prop :=
| reached_unfound errs :
    List.length errs <= 1 ->
    reached py_str
      {| helm_release_found := false; toolkit_config_valid := false;
         missing_configs := []; errors := errs; config_details := None |}
| reached_validated values v :
    Toolkit._validate_toolkit_config py_str values = Ok v ->
    reached py_str
      {| helm_release_found := true;
         toolkit_config_valid := Toolkit.toolkit_config_valid v;
         missing_configs := Toolkit.missing_configs v;
         errors := [];
         config_details := Some (Toolkit.config_details v) |}
| reached_failed msg :
    reached py_str
      {| helm_release_found := true; toolkit_config_valid := false;
         missing_configs := []; errors := [msg]; config_details := None |}.

Definition found_status : ConfigStatus :=
  {| helm_release_found := true; toolkit_config_valid := false;
     missing_configs := []; errors := []; config_details := None |}.

(** Some container of the pod requests a GPU. *)
Definition wants_gpu (pod : JSON) : Prop :=
  exists spec containers cs,
    get pod "spec" empty_dict = Ok spec
    /\ get spec "containers" empty_list = Ok containers
    /\ iterate containers = Ok cs
    /\ requests_gpu cs = Ok true.

(** The pod is in phase [phase], and is pending or has a container
    waiting in an error state. *)
Definition stuck (pod phase : JSON) : Prop :=
  exists status container_statuses sts errs,
    get pod "status" empty_dict = Ok status
    /\ get status "phase" (JStr "Unknown") = Ok phase
    /\ get status "containerStatuses" empty_list = Ok container_statuses
    /\ iterate container_statuses = Ok sts
    /\ has_errors sts = Ok errs
    /\ eq_str phase "Pending" || errs = true.

(** The record [p] is the one made of [pod]. *)
Definition describes (pod : JSON) (p : PendingPod) : Prop :=
  (exists metadata,
     getitem pod "metadata" = Ok metadata
     /\ getitem metadata "name" = Ok (pp_name p)
     /\ getitem metadata "namespace" = Ok (pp_namespace p))
  /\ (exists spec,
        get pod "spec" empty_dict = Ok spec
        /\ get spec "nodeName" (JStr "Not scheduled") = Ok (pp_node p)).

Definition pods_listing : Argv :=
  ["kubectl"; "get"; "pods"; "--all-namespaces"; "-o"; "json"].

Definition device_plugin_listing : Argv :=
  ["kubectl"; "get"; "daemonset"; "nvidia-device-plugin-daemonset";
   "-n"; "gpu-operator"; "-o"; "json"].

Definition toolkit_listing : Argv :=
  ["kubectl"; "get"; "daemonset"; "nvidia-container-toolkit-daemonset";
   "-n"; "gpu-operator"; "-o"; "json"].

(** The listing [argv] exited with 0 and printed a JSON document. *)
Definition answered (world : World) (json_loads : string -> option JSON)
    (h : list Call) (argv : Argv) : Prop :=
  exists out err data,
    world h argv = Completed 0 out err /\ json_loads out = Some data.

(** A step that can only raise an [AttributeError]. *)
Definition attribute_only {A} (r : result A) : Prop :=
  match r with
  | Raise e => exists msg, e = Exception "AttributeError" msg
  | Ok _ => True
  end.

(** A machine without [helm]. *)
Definition no_helm_world : World :=
  fun _ _ => Completed 127 "" "helm: command not found".

Definition no_yaml (s : string) : option JSON := None.

Definition no_status_text (cmd : Argv) (rc : nat) : string := EmptyString.

End ClusterNotions.

(* ===================================================================== *)
(** ** Facts about strings *)
(* ===================================================================== *)

Module PyStrFacts.
Import PyStr Spec.

Lemma startswith_app p t : startswith p (p ++ t) = true.
Proof.
  induction p as [|a p IH]; simpl; [reflexivity|].
  now rewrite Ascii.eqb_refl, IH.
Qed.

Lemma startswith_inv p s :
  startswith p s = true -> exists t, s = p ++ t.
Proof.
  revert s; induction p as [|a p IH]; intros s H; simpl in *.
  - now exists s.
  - destruct s as [|b s]; [discriminate|].
    apply andb_true_iff in H as [Hab Hs].
    apply Ascii.eqb_eq in Hab; subst b.
    destruct (IH _ Hs) as [t ->]. now exists t.
Qed.

Lemma startswith_contains sub s :
  startswith sub s = true -> contains sub s = true.
Proof. intros H. destruct s; simpl; now rewrite H. Qed.

(** [sub in s] holds exactly when [s] can be cut around a copy of [sub]. *)
Lemma contains_spec sub s :
  contains sub s = true <-> exists pre post, s = pre ++ sub ++ post.
Proof.
  split.
  - induction s as [|c s IH]; simpl; intros H.
    + rewrite orb_false_r in H. destruct (startswith_inv _ _ H) as [t Ht].
      exists EmptyString, t. exact Ht.
    + apply orb_true_iff in H as [H|H].
      * destruct (startswith_inv _ _ H) as [t Ht].
        exists EmptyString, t. exact Ht.
      * destruct (IH H) as (pre & post & ->).
        now exists (String c pre), post.
  - intros (pre & post & ->).
    induction pre as [|c pre IH]; simpl.
    + apply startswith_contains, startswith_app.
    + rewrite IH. apply orb_true_r.
Qed.

Lemma split_nonempty sep s : split sep s <> [].
Proof.
  destruct s as [|c s]; simpl; [discriminate|].
  destruct (Ascii.eqb c sep); [discriminate|].
  destruct (split sep s); discriminate.
Qed.

Lemma contains_char_cons sep c s :
  contains (String sep EmptyString) (String c s)
  = Ascii.eqb sep c || contains (String sep EmptyString) s.
Proof. simpl. now rewrite andb_true_r. Qed.

(** A line without the separator is its own and only piece. *)
Lemma split_no_sep sep s :
  contains (String sep EmptyString) s = false -> split sep s = [s].
Proof.
  induction s as [|c s IH]; intros H; [reflexivity|].
  rewrite contains_char_cons in H. apply orb_false_iff in H as [H1 H2].
  simpl. rewrite Ascii.eqb_sym, H1, (IH H2). reflexivity.
Qed.

(** Cutting [l ++ sep ++ rest], where [l] has no separator, gives [l]
    first and then the pieces of [rest]. *)
Lemma split_app sep l rest :
  contains (String sep EmptyString) l = false ->
  split sep (l ++ String sep rest) = l :: split sep rest.
Proof.
  induction l as [|c l IH]; intros H.
  - simpl. now rewrite Ascii.eqb_refl.
  - rewrite contains_char_cons in H. apply orb_false_iff in H as [H1 H2].
    simpl. rewrite Ascii.eqb_sym, H1, (IH H2). reflexivity.
Qed.

(** [split1] on [key ++ sep ++ rhs], where [key] has no separator. *)
Lemma split1_app sep key rhs :
  contains (String sep EmptyString) key = false ->
  split1 sep (key ++ String sep rhs) = [key; rhs].
Proof.
  induction key as [|c key IH]; intros H.
  - simpl. now rewrite Ascii.eqb_refl.
  - rewrite contains_char_cons in H. apply orb_false_iff in H as [H1 H2].
    simpl. rewrite Ascii.eqb_sym, H1, (IH H2). reflexivity.
Qed.

(** A string that holds the separator can be cut at its first one. *)
Lemma contains_char_cut sep s :
  contains (String sep EmptyString) s = true ->
  exists key rhs, s = key ++ String sep rhs
                  /\ contains (String sep EmptyString) key = false.
Proof.
  induction s as [|c s IH]; intros H; [discriminate|].
  rewrite contains_char_cons in H.
  destruct (Ascii.eqb sep c) eqn:E.
  - apply Ascii.eqb_eq in E; subst c.
    exists EmptyString, s. split; reflexivity.
  - destruct (IH H) as (key & rhs & -> & Hk).
    exists (String c key), rhs. split; [reflexivity|].
    rewrite contains_char_cons, E, Hk. reflexivity.
Qed.

Lemma replace_length old new s :
  String.length (replace old new s) = String.length s.
Proof. induction s; simpl; congruence. Qed.

Lemma replace_get old new s i :
  String.get i (replace old new s) =
  option_map (fun c => if Ascii.eqb c old then new else c) (String.get i s).
Proof.
  revert i; induction s as [|c s IH]; intros i; simpl; [reflexivity|].
  destruct i; simpl; [reflexivity|apply IH].
Qed.

(** After [replace old new] with [old <> new] no [old] is left. *)
Lemma replace_no_old old new s :
  old <> new -> contains (String old EmptyString) (replace old new s) = false.
Proof.
  intros Hne. induction s as [|c s IH]; [reflexivity|].
  cbn [replace]. rewrite contains_char_cons, IH, orb_false_r.
  destruct (Ascii.eqb c old) eqn:E.
  - now apply Ascii.eqb_neq.
  - now rewrite Ascii.eqb_sym.
Qed.

(** **** Case folding *)

Lemma lower_app a b : lower (a ++ b) = lower a ++ lower b.
Proof. induction a as [|c a IH]; simpl; [reflexivity|now rewrite IH]. Qed.

Lemma lower_app_inv t x y :
  lower t = x ++ y -> exists a b, t = a ++ b /\ lower a = x /\ lower b = y.
Proof.
  revert t; induction x as [|c x IH]; intros t H.
  - exists EmptyString, t. auto.
  - destruct t as [|d t]; simpl in H; [discriminate|].
    injection H as Hc Ht. destruct (IH _ Ht) as (a & b & -> & Ha & Hb).
    exists (String d a), b. simpl. rewrite Ha, Hc. auto.
Qed.

(** Looking for a lower-case marker in the folded text is looking for it
    in the text up to letter case. *)
Lemma contains_lower_iff marker text :
  contains marker (lower text) = true <-> occurs_ci marker text.
Proof.
  rewrite contains_spec. split.
  - intros (pre & post & H).
    destruct (lower_app_inv _ _ _ H) as (a & b & -> & _ & Hb).
    destruct (lower_app_inv _ _ _ Hb) as (c & d & -> & Hc & _).
    now exists a, c, d.
  - intros (pre & mid & post & -> & Hm).
    exists (lower pre), (lower post).
    now rewrite !lower_app, Hm.
Qed.

(** **** Stripping *)

Lemma lstrip_by_all p l m :
  all_chars p l = true -> lstrip_by p (l ++ m) = lstrip_by p m.
Proof.
  induction l as [|c l IH]; simpl; intros H; [reflexivity|].
  apply andb_true_iff in H as [Hc Hl]. now rewrite Hc, IH.
Qed.

Lemma rstrip_by_all_empty p r :
  all_chars p r = true -> rstrip_by p r = EmptyString.
Proof.
  induction r as [|c r IH]; simpl; intros H; [reflexivity|].
  apply andb_true_iff in H as [Hc Hr]. now rewrite (IH Hr), Hc.
Qed.

Lemma rstrip_by_all p m r :
  all_chars p r = true -> rstrip_by p (m ++ r) = rstrip_by p m.
Proof.
  intros Hr. induction m as [|c m IH]; simpl.
  - now apply rstrip_by_all_empty.
  - now rewrite IH.
Qed.

Lemma rstrip_by_last p s c :
  p (last_char s c) = false -> rstrip_by p (String c s) = String c s.
Proof.
  revert c; induction s as [|d s IH]; intros c H; simpl in *.
  - now rewrite H.
  - specialize (IH d H). simpl in IH. now rewrite IH.
Qed.

Lemma rstrip_by_bare p m : bare p m -> rstrip_by p m = m.
Proof. destruct m as [|c m]; [easy|]. intros [_ H]. now apply rstrip_by_last. Qed.

Lemma lstrip_by_bare p m r : bare p m -> lstrip_by p (m ++ r) = m ++ r.
Proof. destruct m as [|c m]; [easy|]. intros [H _]. simpl. now rewrite H. Qed.

(** Stripping removes exactly the surrounding characters of the class. *)
Lemma strip_by_wrapped p l m r :
  all_chars p l = true -> all_chars p r = true -> bare p m ->
  strip_by p (l ++ m ++ r) = m.
Proof.
  intros Hl Hr Hm. unfold strip_by.
  rewrite (lstrip_by_all _ _ _ Hl), (lstrip_by_bare _ _ _ Hm).
  rewrite (rstrip_by_all _ _ _ Hr). now apply rstrip_by_bare.
Qed.

Lemma append_empty_r s : s ++ EmptyString = s.
Proof. induction s; simpl; congruence. Qed.

Lemma strip_by_bare p m : bare p m -> strip_by p m = m.
Proof.
  intros Hm. rewrite <- (append_empty_r m) at 1.
  now apply (strip_by_wrapped p EmptyString m EmptyString).
Qed.

Lemma last_char_app s t c :
  last_char (s ++ t) c = last_char t (last_char s c).
Proof. revert c; induction s as [|d s IH]; intros c; simpl; auto. Qed.

Lemma all_chars_last (p q : ascii -> bool) s c :
  (forall x, p x = true -> q x = false) ->
  all_chars p s = true -> q c = false -> q (last_char s c) = false.
Proof.
  intros Hpq. revert c; induction s as [|d s IH]; intros c H Hc; simpl in *.
  - exact Hc.
  - apply andb_true_iff in H as [Hd Hs]. apply IH; auto.
Qed.

(** Wrapping a bare string in characters outside the class keeps it
    bare. *)
Lemma bare_wrap (p q : ascii -> bool) l m r :
  (forall x, p x = true -> q x = false) ->
  all_chars p l = true -> all_chars p r = true ->
  bare q m -> bare q (l ++ m ++ r).
Proof.
  intros Hpq Hl Hr Hm.
  destruct m as [|c m]; [easy|]. destruct Hm as [Hc Hlast].
  destruct l as [|d l]; simpl in *.
  - split; [exact Hc|].
    rewrite last_char_app. now apply (all_chars_last p q).
  - apply andb_true_iff in Hl as [Hd Hl]. split; [now apply Hpq|].
    rewrite last_char_app. simpl. rewrite last_char_app.
    now apply (all_chars_last p q).
Qed.

End PyStrFacts.

(* ===================================================================== *)
(** ** Facts about histories *)
(* ===================================================================== *)

Module RuntimeFacts.
Import Runtime Spec.

Lemma added_app h ev : added h (h ++ ev)%list = ev.
Proof.
  unfold added. induction h as [|e h IH]; simpl; [reflexivity|exact IH].
Qed.

Lemma seconds_slept_app a b :
  seconds_slept (a ++ b)%list = seconds_slept a + seconds_slept b.
Proof.
  induction a as [|[c r|n] a IH]; simpl; [reflexivity|exact IH|].
  rewrite IH. lia.
Qed.

Lemma cmds_app a b : cmds (a ++ b)%list = (cmds a ++ cmds b)%list.
Proof. unfold cmds. apply flat_map_app. Qed.

Lemma run_eq env c h :
  run env c h =
  (match env h c with
   | Completed rc out err =>
       Ok {| returncode := rc; stdout := out; stderr := err |}
   | Fails cls msg => Raise (Exception cls msg)
   end, (h ++ [Ran c (env h c)])%list).
Proof. unfold run. destruct (env h c); reflexivity. Qed.

(** **** Returning *)

Lemma returns_ret {A} (a : A) : returns (ret a).
Proof. intros h. now exists a. Qed.

Lemma returns_bind {A B} (m : M A) (k : A -> M B) :
  returns m -> (forall a, returns (k a)) -> returns (bind m k).
Proof.
  intros Hm Hk h. unfold bind. destruct (Hm h) as [a Ha].
  destruct (m h) as [r h']. simpl in Ha. subst r. apply Hk.
Qed.

Lemma returns_tame {A} (m : M A) : returns m -> tame m.
Proof. intros Hm h. destruct (Hm h) as [a ->]. exact I. Qed.

Lemma returns_try_except {A} (body : M A) handler :
  tame body -> (forall e, returns (handler e)) ->
  returns (try_except body handler).
Proof.
  intros Hb Hh h. unfold try_except. specialize (Hb h).
  destruct (body h) as [[a|e] h']; simpl in *.
  - now exists a.
  - rewrite Hb. apply Hh.
Qed.

Lemma returns_try_except_all {A} (body handler : M A) :
  returns handler -> returns (try_except_all body handler).
Proof.
  intros Hh h. unfold try_except_all.
  destruct (body h) as [[a|e] h']; simpl.
  - now exists a.
  - apply Hh.
Qed.

Lemma returns_sleep n : returns (sleep n).
Proof. intros h. now exists tt. Qed.

(** **** Raising nothing but [Exception]s *)

Lemma tame_ret {A} (a : A) : tame (ret a).
Proof. intros h. exact I. Qed.

Lemma tame_raise {A} cls msg : tame (@raise A (Exception cls msg)).
Proof. intros h. reflexivity. Qed.

Lemma tame_bind {A B} (m : M A) (k : A -> M B) :
  tame m -> (forall a, tame (k a)) -> tame (bind m k).
Proof.
  intros Hm Hk h. unfold bind. specialize (Hm h).
  destruct (m h) as [[a|e] h']; simpl in *; [apply Hk|exact Hm].
Qed.

Lemma tame_run env c : tame (run env c).
Proof. intros h. rewrite run_eq. simpl. now destruct (env h c). Qed.

Lemma tame_run_checked env c : tame (run_checked env c).
Proof.
  apply tame_bind; [apply tame_run|]. intros p.
  destruct (returncode p =? 0)%nat; [apply tame_ret|apply tame_raise].
Qed.

Lemma tame_sleep n : tame (sleep n).
Proof. intros h. exact I. Qed.

Lemma tame_try_except {A} (body : M A) handler :
  tame body -> (forall e, tame (handler e)) ->
  tame (try_except body handler).
Proof.
  intros Hb Hh h. unfold try_except. specialize (Hb h).
  destruct (body h) as [[a|e] h']; simpl in *; [exact I|].
  rewrite Hb. apply Hh.
Qed.

(** **** Growing the history *)

Lemma grows_weaken {A} (P Q : list Event -> Prop) (m : M A) :
  (forall ev, P ev -> Q ev) -> grows P m -> grows Q m.
Proof.
  intros HPQ Hm h. destruct (Hm h) as (ev & E & HP). exists ev. auto.
Qed.

Lemma grows_ret {A} (P : list Event -> Prop) (a : A) :
  P [] -> grows P (ret a).
Proof. intros HP h. exists []. simpl. now rewrite app_nil_r. Qed.

Lemma grows_raise {A} (P : list Event -> Prop) e :
  P [] -> grows P (@raise A e).
Proof. intros HP h. exists []. simpl. now rewrite app_nil_r. Qed.

Lemma grows_run (P : list Event -> Prop) env c :
  (forall r, P [Ran c r]) -> grows P (run env c).
Proof. intros HP h. rewrite run_eq. simpl. eauto. Qed.

Lemma grows_sleep (P : list Event -> Prop) n :
  P [Slept n] -> grows P (sleep n).
Proof. intros HP h. simpl. eauto. Qed.

Lemma grows_bind {A B} (P Q R : list Event -> Prop)
    (m : M A) (k : A -> M B) :
  grows P m -> (forall a, grows Q (k a)) ->
  (forall a b, P a -> Q b -> R (a ++ b)%list) -> (forall a, P a -> R a) ->
  grows R (bind m k).
Proof.
  intros Hm Hk HR1 HR2 h. unfold bind.
  destruct (Hm h) as (e1 & E1 & HP).
  destruct (m h) as [[a|e] h']; simpl in *; subst h'.
  - destruct (Hk a (h ++ e1)%list) as (e2 & E2 & HQ).
    exists (e1 ++ e2)%list. rewrite E2, app_assoc. auto.
  - exists e1. auto.
Qed.

Lemma grows_try_except {A} (P Q R : list Event -> Prop)
    (body : M A) handler :
  grows P body -> (forall e, grows Q (handler e)) ->
  (forall a b, P a -> Q b -> R (a ++ b)%list) -> (forall a, P a -> R a) ->
  grows R (try_except body handler).
Proof.
  intros Hb Hh HR1 HR2 h. unfold try_except.
  destruct (Hb h) as (e1 & E1 & HP).
  destruct (body h) as [[a|e] h']; simpl in *; subst h'.
  - exists e1. auto.
  - destruct (is_Exception e).
    + destruct (Hh e (h ++ e1)%list) as (e2 & E2 & HQ).
      exists (e1 ++ e2)%list. rewrite E2, app_assoc. auto.
    + exists e1. auto.
Qed.

(** For a property of each event the rules need no side condition. *)
Lemma each_ret {A} (p : Event -> Prop) (a : A) : grows (Forall p) (ret a).
Proof. apply grows_ret. constructor. Qed.

Lemma each_run (p : Event -> Prop) env c :
  (forall r, p (Ran c r)) -> grows (Forall p) (run env c).
Proof. intros H. apply grows_run. intros r. constructor; auto. Qed.

Lemma each_sleep (p : Event -> Prop) n :
  p (Slept n) -> grows (Forall p) (sleep n).
Proof. intros H. apply grows_sleep. constructor; auto. Qed.

Lemma each_bind {A B} (p : Event -> Prop) (m : M A) (k : A -> M B) :
  grows (Forall p) m -> (forall a, grows (Forall p) (k a)) ->
  grows (Forall p) (bind m k).
Proof.
  intros Hm Hk. apply (grows_bind (Forall p) (Forall p)); auto.
  intros a b Ha Hb. apply Forall_app. auto.
Qed.

Lemma each_try_except {A} (p : Event -> Prop) (body : M A) handler :
  grows (Forall p) body -> (forall e, grows (Forall p) (handler e)) ->
  grows (Forall p) (try_except body handler).
Proof.
  intros Hm Hk. apply (grows_try_except (Forall p) (Forall p)); auto.
  intros a b Ha Hb. apply Forall_app. auto.
Qed.

(** **** What is returned *)

Lemma yields_ret {A} (Q : A -> Prop) a : Q a -> yields Q (ret a).
Proof. intros H h. exact H. Qed.

Lemma yields_bind {A B} (Q : B -> Prop) (m : M A) (k : A -> M B) :
  (forall a, yields Q (k a)) -> yields Q (bind m k).
Proof.
  intros Hk h. unfold bind.
  destruct (m h) as [[a|e] h']; simpl; [apply Hk|exact I].
Qed.

Lemma yields_try_except {A} (Q : A -> Prop) (body : M A) handler :
  yields Q body -> (forall e, yields Q (handler e)) ->
  yields Q (try_except body handler).
Proof.
  intros Hb Hh h. unfold try_except. specialize (Hb h).
  destruct (body h) as [[a|e] h']; simpl in *; [exact Hb|].
  destruct (is_Exception e); [apply Hh|exact I].
Qed.

Lemma grows_added {A} (P : list Event -> Prop) (m : M A) h :
  grows P m -> P (added h (snd (m h))).
Proof.
  intros Hm. destruct (Hm h) as (ev & -> & HP). now rewrite added_app.
Qed.

(** **** Printing *)

Lemma print_ok console p h :
  console p = true -> print console p h = (Ok tt, h).
Proof. intros H. unfold print. now rewrite H. Qed.

Lemma print_refused console p h :
  console p = false ->
  print console p h
  = (Raise (Exception "UnicodeEncodeError" "codec can't encode character"),
     h).
Proof. intros H. unfold print. now rewrite H. Qed.

Lemma print_silent console p h : snd (print console p h) = h.
Proof. unfold print. now destruct (console p). Qed.

Lemma returns_print console p : console p = true -> returns (print console p).
Proof. intros H h. exists tt. now rewrite print_ok. Qed.

Lemma tame_print console p : tame (print console p).
Proof. intros h. unfold print. now destruct (console p). Qed.

Lemma grows_print (P : list Event -> Prop) console p :
  P [] -> grows P (print console p).
Proof.
  intros HP h. exists []. rewrite print_silent, app_nil_r. now split.
Qed.

Lemma each_print (q : Event -> Prop) console p :
  grows (Forall q) (print console p).
Proof. apply grows_print. constructor. Qed.

End RuntimeFacts.

(* ===================================================================== *)
(** ** The properties *)
(* ===================================================================== *)

Module Proofs.
Import PyStr Runtime Analyzer Spec PyStrFacts RuntimeFacts.
Local Open Scope py_scope.

Section Claims.

Variable env : Oracle.
Variable json_loads : string -> option JSON.
Variable namespace : string.
Variable script_b64 : string.
Variable console : Console.
Variable max_workers : Z.

(** *** The binary path *)

Lemma is_binary_line_assignment key rhs :
  contains "BinaryName" (key ++ String "=" rhs) = true ->
  is_binary_line (key ++ String "=" rhs) = true.
Proof.
  intros H. unfold is_binary_line. rewrite H. simpl.
  apply contains_spec. now exists key, rhs.
Qed.

Lemma first_binary_path_found before key rhs after :
  Forall (fun l => is_binary_line l = false) before ->
  contains "BinaryName" (key ++ String "=" rhs) = true ->
  contains "=" key = false ->
  first_binary_path (List.app before ((key ++ String "=" rhs) :: after))
  = Some (unquote rhs).
Proof.
  intros Hb Hn Hk. induction Hb as [|l before Hl _ IH]; simpl.
  - rewrite (is_binary_line_assignment _ _ Hn), (split1_app _ _ _ Hk).
    reflexivity.
  - now rewrite Hl.
Qed.

(** A value in white space and in quotes of one kind comes out bare. *)
Lemma unquote_wrapped q w1 q1 path q2 w2 :
  q = dquote \/ q = "'"%char ->
  all_chars isspace w1 = true -> all_chars isspace w2 = true ->
  all_chars (Ascii.eqb q) q1 = true -> all_chars (Ascii.eqb q) q2 = true ->
  bare isspace path -> bare (Ascii.eqb dquote) path ->
  bare (Ascii.eqb "'") path ->
  unquote (w1 ++ (q1 ++ path ++ q2) ++ w2) = path.
Proof.
  intros Hq Hw1 Hw2 Hq1 Hq2 Hs Hd Hsq. unfold unquote, strip, strip_char.
  assert (Hqs : forall x, Ascii.eqb q x = true -> isspace x = false).
  { intros x Hx. apply Ascii.eqb_eq in Hx. subst x.
    destruct Hq as [-> | ->]; reflexivity. }
  rewrite (strip_by_wrapped isspace w1 _ w2 Hw1 Hw2)
    by (apply (bare_wrap (Ascii.eqb q)); auto).
  destruct Hq as [-> | ->].
  - rewrite (strip_by_wrapped _ q1 path q2 Hq1 Hq2 Hd).
    now rewrite (strip_by_bare _ _ Hsq), (strip_by_bare _ _ Hs).
  - rewrite (strip_by_bare (Ascii.eqb dquote)).
    + rewrite (strip_by_wrapped _ q1 path q2 Hq1 Hq2 Hsq).
      now apply strip_by_bare.
    + apply (bare_wrap (Ascii.eqb "'")); auto.
      intros x Hx. apply Ascii.eqb_eq in Hx. now subst x.
Qed.

Lemma last_char_all p s c :
  all_chars p s = true -> p c = true -> p (last_char s c) = true.
Proof.
  revert c; induction s as [|d s IH]; intros c; simpl; [auto|].
  intros H _. apply andb_true_iff in H as [Hd Hs]. now apply IH.
Qed.

(** A text between two non-empty runs of one character begins and ends
    with that character. *)
Lemma bare_between (p q : ascii -> bool) l m r :
  (forall x, p x = true -> q x = false) ->
  all_chars p l = true -> all_chars p r = true ->
  l <> EmptyString -> r <> EmptyString ->
  bare q (l ++ m ++ r).
Proof.
  intros Hpq Hl Hr Hnl Hnr.
  destruct l as [|a l]; [easy|]. destruct r as [|b r]; [easy|].
  simpl in Hl, Hr. apply andb_true_iff in Hl as [Ha Hl].
  apply andb_true_iff in Hr as [Hb Hr].
  simpl. split; [now apply Hpq|].
  rewrite !last_char_app. simpl. apply Hpq. now apply last_char_all.
Qed.

Lemma quote_not_space q x :
  q = dquote \/ q = "'"%char -> Ascii.eqb q x = true -> isspace x = false.
Proof.
  intros Hq Hx. apply Ascii.eqb_eq in Hx. subst x.
  destruct Hq as [-> | ->]; reflexivity.
Qed.

Lemma double_not_single x :
  Ascii.eqb dquote x = true -> Ascii.eqb "'" x = false.
Proof. intros Hx. apply Ascii.eqb_eq in Hx. now subst x. Qed.

Lemma single_not_double x :
  Ascii.eqb "'" x = true -> Ascii.eqb dquote x = false.
Proof. intros Hx. apply Ascii.eqb_eq in Hx. now subst x. Qed.

(** Double quotes around single quotes: both layers go. *)
Lemma unquote_layered w1 d1 s1 path s2 d2 w2 :
  all_chars isspace w1 = true -> all_chars isspace w2 = true ->
  all_chars (Ascii.eqb dquote) d1 = true ->
  all_chars (Ascii.eqb dquote) d2 = true ->
  all_chars (Ascii.eqb "'") s1 = true ->
  all_chars (Ascii.eqb "'") s2 = true ->
  bare isspace path -> bare (Ascii.eqb dquote) path ->
  bare (Ascii.eqb "'") path ->
  unquote (w1 ++ (d1 ++ (s1 ++ path ++ s2) ++ d2) ++ w2) = path.
Proof.
  intros Hw1 Hw2 Hd1 Hd2 Hs1 Hs2 Hs Hd Hsq.
  unfold unquote, strip, strip_char.
  rewrite (strip_by_wrapped isspace w1 _ w2 Hw1 Hw2).
  - rewrite (strip_by_wrapped _ d1 _ d2 Hd1 Hd2).
    + rewrite (strip_by_wrapped _ s1 path s2 Hs1 Hs2 Hsq).
      now apply strip_by_bare.
    + apply (bare_wrap (Ascii.eqb "'")); auto using single_not_double.
  - apply (bare_wrap (Ascii.eqb dquote)); auto.
    + intros x. apply quote_not_space. now left.
    + apply (bare_wrap (Ascii.eqb "'")); auto.
      intros x. apply quote_not_space. now right.
Qed.

(** Single quotes around double quotes: the double quotes stay. *)
Lemma unquote_inverted w1 s1 d1 path d2 s2 w2 :
  all_chars isspace w1 = true -> all_chars isspace w2 = true ->
  all_chars (Ascii.eqb "'") s1 = true ->
  all_chars (Ascii.eqb "'") s2 = true ->
  s1 <> EmptyString -> s2 <> EmptyString ->
  all_chars (Ascii.eqb dquote) d1 = true ->
  all_chars (Ascii.eqb dquote) d2 = true ->
  bare isspace path -> bare (Ascii.eqb "'") path ->
  unquote (w1 ++ (s1 ++ (d1 ++ path ++ d2) ++ s2) ++ w2)
  = d1 ++ path ++ d2.
Proof.
  intros Hw1 Hw2 Hs1 Hs2 Hn1 Hn2 Hd1 Hd2 Hs Hsq.
  unfold unquote, strip, strip_char.
  rewrite (strip_by_wrapped isspace w1 _ w2 Hw1 Hw2).
  - rewrite (strip_by_bare (Ascii.eqb dquote)).
    + rewrite (strip_by_wrapped _ s1 _ s2 Hs1 Hs2).
      * apply strip_by_bare.
        apply (bare_wrap (Ascii.eqb dquote)); auto.
        intros x. apply quote_not_space. now left.
      * apply (bare_wrap (Ascii.eqb dquote)); auto using double_not_single.
    + apply (bare_between (Ascii.eqb "'")); auto using single_not_double.
  - apply (bare_between (Ascii.eqb "'")); auto.
    intros x. apply quote_not_space. now right.
Qed.

Lemma first_match {A} (p : A -> bool) l :
  existsb p l = true ->
  exists before x after,
    l = (before ++ x :: after)%list
    /\ Forall (fun y => p y = false) before /\ p x = true.
Proof.
  induction l as [|y l IH]; simpl; intros H; [discriminate|].
  destruct (p y) eqn:E.
  - exists [], y, l. repeat split; [constructor|exact E].
  - destruct (IH H) as (before & x & after & -> & Hb & Hx).
    exists (y :: before), x, after. repeat split; [|exact Hx].
    now constructor.
Qed.

(** C8.  A configuration text in which some line holds both [BinaryName]
    and [=] has a first such line, and that line has a first [=]: what
    stands before it is the key, what follows it the right-hand side.
    For such a text [_extract_and_verify_binary] returns, and the
    [binary_name] it reports comes from that line alone: it is the
    right-hand side stripped of surrounding white space, then of
    surrounding double quotes, then of surrounding single quotes, then of
    white space again.  Lines after it play no part, nor does the answer
    to the existence test, which is the one request made and asks for
    the reported name under [/host].  A value wrapped in white space and
    in quotes of one kind comes out without them, and so does a value in
    double quotes around single quotes.  A value in single quotes around
    double quotes keeps its double quotes. *)
Theorem C8_binary_path_of_first_assignment :
  forall (content pod_name : string) (h : list Event),
    (existsb is_binary_line (split "010" content) = true ->
     exists before key rhs after,
       split "010" content
       = (List.app before ((key ++ String "=" rhs) :: after))
       /\ Forall (fun l => is_binary_line l = false) before
       /\ contains "BinaryName" (key ++ String "=" rhs) = true
       /\ contains "=" key = false)
    /\ forall (before after : list string) (key rhs : string),
         split "010" content
         = (List.app before ((key ++ String "=" rhs) :: after)) ->
         Forall (fun l => is_binary_line l = false) before ->
         contains "BinaryName" (key ++ String "=" rhs) = true ->
         contains "=" key = false ->
         exists bi h',
           _extract_and_verify_binary env namespace content pod_name h
           = (Ok bi, h')
           /\ bi_binary_name bi
              = strip (strip_char "'" (strip_char dquote (strip rhs)))
           /\ (forall q w1 q1 path q2 w2,
                 rhs = w1 ++ (q1 ++ path ++ q2) ++ w2 ->
                 q = dquote \/ q = "'"%char ->
                 all_chars isspace w1 = true ->
                 all_chars isspace w2 = true ->
                 all_chars (Ascii.eqb q) q1 = true ->
                 all_chars (Ascii.eqb q) q2 = true ->
                 bare isspace path -> bare (Ascii.eqb dquote) path ->
                 bare (Ascii.eqb "'") path ->
                 bi_binary_name bi = path)
           /\ cmds (added h h')
              = [KubectlExec namespace pod_name
                   ["test"; "-f"; "/host" ++ bi_binary_name bi] (Some 10)]
           /\ (forall w1 d1 s1 path s2 d2 w2,
                 rhs = w1 ++ (d1 ++ (s1 ++ path ++ s2) ++ d2) ++ w2 ->
                 all_chars isspace w1 = true ->
                 all_chars isspace w2 = true ->
                 all_chars (Ascii.eqb dquote) d1 = true ->
                 all_chars (Ascii.eqb dquote) d2 = true ->
                 all_chars (Ascii.eqb "'") s1 = true ->
                 all_chars (Ascii.eqb "'") s2 = true ->
                 bare isspace path -> bare (Ascii.eqb dquote) path ->
                 bare (Ascii.eqb "'") path ->
                 bi_binary_name bi = path)
           /\ (forall w1 s1 d1 path d2 s2 w2,
                 rhs = w1 ++ (s1 ++ (d1 ++ path ++ d2) ++ s2) ++ w2 ->
                 all_chars isspace w1 = true ->
                 all_chars isspace w2 = true ->
                 all_chars (Ascii.eqb "'") s1 = true ->
                 all_chars (Ascii.eqb "'") s2 = true ->
                 s1 <> EmptyString -> s2 <> EmptyString ->
                 all_chars (Ascii.eqb dquote) d1 = true ->
                 all_chars (Ascii.eqb dquote) d2 = true ->
                 bare isspace path -> bare (Ascii.eqb "'") path ->
                 bi_binary_name bi = d1 ++ path ++ d2).
Proof.
  intros content pod_name h. split.
  - intros H.
    destruct (first_match _ _ H) as (before & line & after & E & Hb & Hl).
    unfold is_binary_line in Hl. apply andb_true_iff in Hl as [Hn He].
    destruct (contains_char_cut _ _ He) as (key & rhs & -> & Hk).
    now exists before, key, rhs, after.
  - intros before after key rhs Hsplit Hb Hn Hk.
    unfold _extract_and_verify_binary.
    rewrite Hsplit, (first_binary_path_found _ _ _ _ Hb Hn Hk).
    unfold try_except, bind. rewrite run_eq.
    destruct (env h _) as [rc out err|cls msg]; simpl;
      eexists; eexists; (split; [reflexivity|]); simpl;
      (split; [reflexivity|]);
      (split; [intros q w1 q1 path q2 w2 -> Hq; now apply unquote_wrapped|]);
      (split; [now rewrite added_app|]);
      (split; [intros w1 d1 s1 path s2 d2 w2 ->; now apply unquote_layered|]);
      intros w1 s1 d1 path d2 s2 w2 ->; now apply unquote_inverted.
Qed.

(** *** The identity of the inspection pod *)

Lemma wait_ready_about pod n :
  grows (Forall (about pod)) (wait_ready env namespace pod n).
Proof.
  induction n as [|n IH]; simpl.
  - apply each_ret.
  - apply each_bind; [apply each_run; intros r; reflexivity|]. intros p.
    apply each_bind.
    + destruct (String.eqb (stdout p) "Running"); [|apply each_ret].
      apply each_bind; [apply each_run; intros r; reflexivity|].
      intros p'. apply each_ret.
    + intros [|]; [apply each_ret|].
      apply each_bind; [apply each_sleep; exact I|]. intros _. exact IH.
Qed.

Lemma deploy_about node_name :
  grows (Forall (about (pod_identity node_name)))
        (deploy_debug_pod env namespace console node_name).
Proof.
  unfold deploy_debug_pod.
  apply each_try_except; [|intros e; apply each_ret].
  apply each_bind; [apply each_run; intros r; reflexivity|]. intros p.
  destruct (returncode p =? 0)%nat; [apply each_ret|].
  apply each_bind; [apply each_run; intros r; reflexivity|]. intros f.
  apply each_bind; [apply each_run; intros r; reflexivity|]. intros a.
  apply each_bind; [apply each_run; intros r; exact I|]. intros _.
  destruct (negb _); [apply each_ret|].
  apply each_bind; [apply each_print|]. intros _.
  apply each_bind; [apply wait_ready_about|]. intros [|]; [apply each_ret|].
  apply each_bind; [apply each_run; intros r; reflexivity|]. intros d.
  apply each_ret.
Qed.

Lemma cleanup_eq nodes h :
  cleanup_loop env namespace nodes h =
  (Ok tt,
   fold_left (fun h' n =>
                let c := KubectlDeletePod (pod_identity (name n)) namespace in
                (h' ++ [Ran c (env h' c)])%list)
             nodes h).
Proof.
  revert h; induction nodes as [|n nodes IH]; intros h; simpl.
  - reflexivity.
  - unfold bind at 1. unfold try_except_all, bind at 1. rewrite run_eq.
    change (debug_pod_prefix ++ "-" ++ replace "." "-" (name n))
      with (pod_identity (name n)).
    destruct (env h _); simpl; apply IH.
Qed.

Lemma cleanup_grows nodes h :
  exists sweep,
    snd (cleanup_loop env namespace nodes h) = (h ++ sweep)%list
    /\ Forall2 (swept env namespace) sweep nodes.
Proof.
  rewrite cleanup_eq. simpl.
  revert h; induction nodes as [|n nodes IH]; intros h; simpl.
  - exists []. now rewrite app_nil_r.
  - destruct (IH (h ++ [Ran (KubectlDeletePod (pod_identity (name n))
                              namespace)
                            (env h (KubectlDeletePod
                                      (pod_identity (name n)) namespace))])%list)
      as (sweep & E & HF).
    eexists (_ :: sweep). rewrite E, <- app_assoc. simpl.
    split; [reflexivity|]. constructor; [now exists h|exact HF].
Qed.

(** The sweep is its loop once its announcement is printed, and nothing
    at all otherwise. *)
Lemma cleanup_pods_eq nodes h :
  cleanup_debug_pods env namespace console nodes h
  = if console Broom then cleanup_loop env namespace nodes h
    else (Raise (Exception "UnicodeEncodeError"
                   "codec can't encode character"), h).
Proof.
  unfold cleanup_debug_pods, bind, print. now destruct (console Broom).
Qed.

Lemma sweep_cmds sweep nodes :
  Forall2 (swept env namespace) sweep nodes ->
  cmds sweep
  = map (fun n => KubectlDeletePod (pod_identity (name n)) namespace) nodes.
Proof.
  induction 1 as [|e n sweep nodes [r ->] _ IH]; [reflexivity|].
  unfold cmds in *. simpl. now rewrite IH.
Qed.

(** C10.  The name of a node's inspection pod is [gpu-debug-] followed by
    the node's name with every dot turned into a dash: it has the length
    of the node's name plus ten, and its character at [10 + i] is the
    [i]-th of the node's name, or a dash where that is a dot.  The pod
    manifest carries this name, every request made while provisioning
    (the existence check, the manifest applied, the readiness polls, the
    description) is about this name, a successful provisioning returns
    it, and the sweep deletes this name for each of its nodes, in order:
    its loop always does, and so does the sweep as a whole unless its
    announcement cannot be printed, when it asks for nothing. *)
Theorem C10_one_derived_identity :
  forall node_name : string,
    startswith "gpu-debug-" (pod_identity node_name) = true
    /\ String.length (pod_identity node_name) = 10 + String.length node_name
    /\ (forall i,
          String.get (10 + i) (pod_identity node_name)
          = option_map (fun c => if Ascii.eqb c "." then "-"%char else c)
                       (String.get i node_name))
    /\ meta_name (create_debug_pod_spec namespace node_name)
       = pod_identity node_name
    /\ (forall h,
          Forall (about (pod_identity node_name))
                 (added h (snd (deploy_debug_pod env namespace console
                                  node_name h))))
    /\ yields (fun r => fst r = true -> snd r = pod_identity node_name)
              (deploy_debug_pod env namespace console node_name)
    /\ (forall nodes h,
          cmds (added h (snd (cleanup_loop env namespace nodes h)))
          = map (fun n => KubectlDeletePod (pod_identity (name n)) namespace)
                nodes)
    /\ (forall nodes h,
          cmds (added h (snd (cleanup_debug_pods env namespace console
                                nodes h)))
          = if console Broom
            then map (fun n => KubectlDeletePod (pod_identity (name n))
                                 namespace) nodes
            else []).
Proof.
  intros node_name.
  repeat match goal with |- _ /\ _ => split end.
  - reflexivity.
  - unfold pod_identity. simpl. now rewrite replace_length.
  - intros i. unfold pod_identity. simpl. apply replace_get.
  - reflexivity.
  - intros h. apply grows_added, deploy_about.
  - unfold deploy_debug_pod.
    apply yields_try_except; [|intros e; now apply yields_ret].
    apply yields_bind; intros p.
    destruct (returncode p =? 0)%nat; [now apply yields_ret|].
    apply yields_bind; intros f. apply yields_bind; intros a.
    apply yields_bind; intros _.
    destruct (negb _); [now apply yields_ret|].
    apply yields_bind; intros _.
    apply yields_bind; intros [|]; [now apply yields_ret|].
    apply yields_bind; intros d. now apply yields_ret.
  - intros nodes h. destruct (cleanup_grows nodes h) as (sweep & -> & HF).
    rewrite added_app. now apply sweep_cmds.
  - intros nodes h. rewrite cleanup_pods_eq.
    destruct (console Broom).
    + destruct (cleanup_grows nodes h) as (sweep & -> & HF).
      rewrite added_app. now apply sweep_cmds.
    + cbn [snd]. rewrite <- (app_nil_r h) at 2. now rewrite added_app.
Qed.

(** *** Idempotence *)

Lemma cleanup_returns nodes : returns (cleanup_loop env namespace nodes).
Proof. intros h. rewrite cleanup_eq. now exists tt. Qed.

Lemma cleanup_deletes nodes :
  grows (Forall is_delete) (cleanup_loop env namespace nodes).
Proof.
  intros h. destruct (cleanup_grows nodes h) as (sweep & E & F).
  exists sweep. split; [exact E|]. clear E.
  induction F as [|e n s ns [r ->] _ IH];
    [constructor|constructor; [exact I|exact IH]].
Qed.

(** C9.  When the existence check of [deploy_debug_pod] exits with 0 (a
    pod of the derived name is there), provisioning returns success with
    that name at once: the check is the only request made, so nothing is
    created.  The loop of the sweep (lines 1010-1018) returns whatever
    [kubectl delete] answers, also when run a second time over the same
    nodes, and so does the sweep as a whole once its announcement is
    printed; each request of the sweep is a deletion, asked with
    [--ignore-not-found=true]. *)
Theorem C9_provision_and_teardown_idempotent :
  (forall node_name h out err,
     env h (KubectlGetPod (pod_identity node_name) namespace)
     = Completed 0 out err ->
     deploy_debug_pod env namespace console node_name h
     = (Ok (true, pod_identity node_name),
        (h ++ [Ran (KubectlGetPod (pod_identity node_name) namespace)
                   (Completed 0 out err)])%list))
  /\ (forall nodes,
        returns (cleanup_loop env namespace nodes ;;;
                 cleanup_loop env namespace nodes))
  /\ (forall nodes,
        console Broom = true ->
        returns (cleanup_debug_pods env namespace console nodes ;;;
                 cleanup_debug_pods env namespace console nodes))
  /\ (forall nodes h,
        Forall is_delete
          (added h (snd ((cleanup_debug_pods env namespace console nodes ;;;
                          cleanup_debug_pods env namespace console nodes)
                           h)))).
Proof.
  split; [|split; [|split]].
  - intros node_name h out err E.
    unfold deploy_debug_pod, try_except, bind. rewrite run_eq.
    change (debug_pod_prefix ++ "-" ++ replace "." "-" node_name)
      with (pod_identity node_name).
    rewrite E. reflexivity.
  - intros nodes. apply returns_bind; [|intros _]; apply cleanup_returns.
  - intros nodes B.
    apply returns_bind; [|intros _]; unfold cleanup_debug_pods;
      (apply returns_bind; [now apply returns_print|intros _]);
      apply cleanup_returns.
  - intros nodes h.
    apply grows_added, each_bind; [|intros _]; unfold cleanup_debug_pods;
      (apply each_bind; [apply each_print|intros _]); apply cleanup_deletes.
Qed.

(** *** The sweep after the pool *)

Lemma deletes_shrink evs :
  Forall is_delete evs ->
  forall live x, In x (fold_left cluster_step evs live) -> In x live.
Proof.
  induction 1 as [|e evs He _ IH]; intros live x Hx; simpl in *; [exact Hx|].
  apply IH in Hx. destruct e as [[] [[|rc] out err|cls msg]|n];
    simpl in *; try contradiction; try exact Hx.
  now apply in_remove in Hx.
Qed.

Lemma sweep_removes sweep :
  Forall is_delete sweep -> Forall succeeded sweep ->
  forall live pod ns,
    In (KubectlDeletePod pod ns) (cmds sweep) ->
    ~ In (ns, pod) (fold_left cluster_step sweep live).
Proof.
  induction 1 as [|e evs He Hd IH]; intros Hs live pod ns Hin;
    [contradiction|].
  inversion Hs as [|? ? Hse Hss]; subst.
  destruct e as [c r|n]; [|contradiction].
  destruct c; try contradiction.
  destruct r as [[|rc] out err|cls msg]; try contradiction.
  unfold cmds in Hin. simpl in Hin. destruct Hin as [E|Hin].
  - injection E as -> ->. simpl. intros Hx.
    apply (deletes_shrink _ Hd) in Hx. now apply remove_In in Hx.
  - simpl. now apply IH.
Qed.

Lemma sweep_removes_one sweep :
  Forall is_delete sweep ->
  forall live pod ns out err,
    In (Ran (KubectlDeletePod pod ns) (Completed 0 out err)) sweep ->
    ~ In (ns, pod) (fold_left cluster_step sweep live).
Proof.
  induction 1 as [|e evs He Hd IH]; intros live pod ns out err Hin;
    [contradiction|].
  destruct Hin as [-> | Hin].
  - simpl. intros Hx. apply (deletes_shrink _ Hd) in Hx.
    now apply remove_In in Hx.
  - simpl. now apply (IH _ pod ns out err).
Qed.

Lemma swept_deletes sweep nodes :
  Forall2 (swept env namespace) sweep nodes -> Forall is_delete sweep.
Proof.
  induction 1 as [|e m s ms [r' ->] _ IH];
    [constructor|constructor; [exact I|exact IH]].
Qed.

(** Past its opening messages and a discovery that found nodes, the run
    is its pool followed by the sweep. *)
Lemma orchestrate_eq worker sched cleanup h h1 nodes :
  console Rocket = true -> console BarChart = true ->
  get_cluster_nodes env json_loads h = (Ok nodes, h1) ->
  nodes <> [] ->
  analyze_cluster_with env json_loads namespace console max_workers
    worker sched cleanup h
  = try_finally (run_pool console max_workers worker sched nodes)
      (if cleanup then cleanup_debug_pods env namespace console nodes
       else ret tt) h1.
Proof.
  intros HR HB Hd Hne.
  unfold analyze_cluster_with. unfold bind at 1. rewrite (print_ok _ _ _ HR).
  unfold bind at 1. rewrite Hd.
  destruct nodes as [|n0 ns]; [contradiction|].
  unfold bind at 1. now rewrite (print_ok _ _ _ HB).
Qed.

(** C3.  Take a run that gets to its pool: the opening messages are
    printed and discovery has found at least one node.  With [cleanup]
    set and the sweep's announcement printed, [analyze_cluster] ends as
    its pool ended (the mapping, or the exception or cancellation that
    escaped the pool, the refusal of the pool's width among them), and its
    history ends with the sweep: one
    [kubectl delete pod ... --ignore-not-found=true] per discovered node,
    in order, for the node's derived pod name, whatever the earlier
    deletions answered.  A pod whose deletion exits with 0 is not in the
    namespace afterwards; of a deletion that fails nothing is said, for
    its answer is never read.  When the announcement cannot be printed
    the run raises with the history of the pool: nothing is deleted.
    With [cleanup] unset the run is the pool: no sweep runs. *)
Theorem C3_sweep_runs_after_the_pool :
  forall (worker : NodeInfo -> M NodeGPUStatus) (sched : Schedule)
         (h h1 : list Event) (nodes : list NodeInfo),
    console Rocket = true -> console BarChart = true ->
    get_cluster_nodes env json_loads h = (Ok nodes, h1) ->
    nodes <> [] ->
    (console Broom = true ->
     exists sweep,
       analyze_cluster_with env json_loads namespace console max_workers
         worker sched true h
       = (fst (run_pool console max_workers worker sched nodes h1),
          (snd (run_pool console max_workers worker sched nodes h1)
             ++ sweep)%list)
       /\ Forall2 (swept env namespace) sweep nodes
       /\ (forall before n out err,
             In n nodes ->
             In (Ran (KubectlDeletePod (pod_identity (name n)) namespace)
                     (Completed 0 out err)) sweep ->
             ~ In (namespace, pod_identity (name n))
                  (pods_after before
                     (snd (run_pool console max_workers worker sched nodes
                             h1) ++ sweep)%list))
       /\ (Forall succeeded sweep ->
           forall before n,
             In n nodes ->
             ~ In (namespace, pod_identity (name n))
                  (pods_after before
                     (snd (run_pool console max_workers worker sched nodes
                             h1) ++ sweep)%list)))
    /\ (console Broom = false ->
        analyze_cluster_with env json_loads namespace console max_workers
          worker sched true h
        = (Raise (Exception "UnicodeEncodeError"
                    "codec can't encode character"),
           snd (run_pool console max_workers worker sched nodes h1)))
    /\ analyze_cluster_with env json_loads namespace console max_workers
         worker sched false h
       = run_pool console max_workers worker sched nodes h1.
Proof.
  intros worker sched h h1 nodes HR HB Hd Hne.
  rewrite !(orchestrate_eq worker sched _ h h1 nodes HR HB Hd Hne).
  unfold try_finally.
  destruct (run_pool console max_workers worker sched nodes h1) as [r h2].
  cbv beta iota. split; [|split].
  - intros HS. rewrite cleanup_pods_eq, HS.
    destruct (cleanup_grows nodes h2) as (sweep & E & HF).
    destruct (cleanup_returns nodes h2) as [u Hu].
    destruct (cleanup_loop env namespace nodes h2) as [rc hc].
    simpl in E, Hu. subst rc hc. exists sweep.
    split; [reflexivity|]. split; [exact HF|].
    pose proof (swept_deletes _ _ HF) as HD. split.
    + intros before n out err Hn Hin. unfold pods_after. simpl snd.
      rewrite fold_left_app. now apply (sweep_removes_one _ HD _ _ _ out err).
    + intros Hs before n Hn. unfold pods_after. simpl snd.
      rewrite fold_left_app.
      apply sweep_removes; auto.
      rewrite (sweep_cmds _ _ HF).
      apply (in_map (fun n => KubectlDeletePod (pod_identity (name n))
                                namespace)) in Hn. exact Hn.
  - intros HS. rewrite cleanup_pods_eq, HS. reflexivity.
  - reflexivity.
Qed.

(** *** The worker *)

Ltac tame_step :=
  match goal with
  | |- tame (ret _) => apply tame_ret
  | |- tame (run _ _) => apply tame_run
  | |- tame (sleep _) => apply tame_sleep
  | |- tame (print _ _) => apply tame_print
  | |- tame (bind _ _) => apply tame_bind; [|intros ?]
  | |- tame (try_except _ _) => apply tame_try_except; [|intros ?]
  | |- tame (if ?b then _ else _) => destruct b
  | |- tame (match ?x with _ => _ end) => destruct x
  end.

Lemma wait_ready_tame pod n : tame (wait_ready env namespace pod n).
Proof. induction n as [|n IH]; simpl; repeat tame_step; exact IH. Qed.

Lemma deploy_returns node_name :
  returns (deploy_debug_pod env namespace console node_name).
Proof.
  unfold deploy_debug_pod.
  apply returns_try_except; [|intros e; apply returns_ret].
  repeat (tame_step || apply wait_ready_tame).
Qed.

(** A failed provisioning always comes with a message. *)
Lemma deploy_failure_message node_name :
  yields (fun r => fst r = false -> truthy (snd r) = true)
         (deploy_debug_pod env namespace console node_name).
Proof.
  unfold deploy_debug_pod.
  apply yields_try_except; [|intros e; now apply yields_ret].
  apply yields_bind; intros p.
  destruct (returncode p =? 0)%nat; [now apply yields_ret|].
  apply yields_bind; intros f. apply yields_bind; intros a.
  apply yields_bind; intros _.
  destruct (negb _); [now apply yields_ret|].
  apply yields_bind; intros _.
  apply yields_bind; intros [|]; [now apply yields_ret|].
  apply yields_bind; intros d. now apply yields_ret.
Qed.

Lemma extract_returns content pod :
  returns (_extract_and_verify_binary env namespace content pod).
Proof.
  unfold _extract_and_verify_binary.
  destruct (first_binary_path _); [|apply returns_ret].
  apply returns_try_except; [|intros e; apply returns_ret].
  repeat tame_step.
Qed.

Lemma inspect_config_path_returns node_name pod path :
  returns (inspect_config_path env namespace node_name pod path).
Proof.
  unfold inspect_config_path.
  apply returns_try_except; [|intros e; apply returns_ret].
  repeat (tame_step || (apply returns_tame, extract_returns)).
Qed.

Lemma inspect_config_paths_returns node_name pod paths configs :
  returns (inspect_config_paths env namespace node_name pod paths configs).
Proof.
  revert configs; induction paths as [|path paths IH]; intros configs; simpl.
  - apply returns_ret.
  - apply returns_bind; [apply inspect_config_path_returns|].
    intros c. apply IH.
Qed.

Lemma detection_returns node_name pod :
  returns (run_gpu_detection_on_node env namespace script_b64 node_name pod).
Proof.
  unfold run_gpu_detection_on_node.
  apply returns_try_except; [repeat tame_step|].
  intros e. destruct (String.eqb _ _); apply returns_ret.
Qed.

(** The worker, past its announcement. *)
Lemma worker_announced get_configs run_detection node h :
  console Magnifier = true ->
  analyze_single_node_with env namespace console
    get_configs run_detection node h
  = (deployed <- deploy_debug_pod env namespace console (name node) ;;
     let '(success, pod_name_or_error) := deployed in
     if negb success then
       ret {| node_name := name node;
              containerd_configs := [];
              gpu_failure_symptoms := None;
              debug_pod_deployed := false;
              execution_error := Some pod_name_or_error |}
     else
       try_except
         (containerd_configs <- get_configs (name node) pod_name_or_error ;;
          gpu_symptoms <- run_detection (name node) pod_name_or_error ;;
          ret {| node_name := name node;
                 containerd_configs := containerd_configs;
                 gpu_failure_symptoms := Some gpu_symptoms;
                 debug_pod_deployed := true;
                 execution_error := None |})
         (fun e =>
            ret {| node_name := name node;
                   containerd_configs := [];
                   gpu_failure_symptoms := None;
                   debug_pod_deployed := true;
                   execution_error :=
                     Some ("Analysis failed: " ++ str e) |})) h.
Proof.
  intros HM. unfold analyze_single_node_with. unfold bind at 1.
  now rewrite (print_ok _ _ _ HM).
Qed.

(** The worker whose announcement cannot be printed: it raises at once. *)
Lemma worker_refused get_configs run_detection node h :
  console Magnifier = false ->
  analyze_single_node_with env namespace console
    get_configs run_detection node h
  = (Raise (Exception "UnicodeEncodeError" "codec can't encode character"),
     h).
Proof.
  intros HM. unfold analyze_single_node_with. unfold bind at 1.
  now rewrite (print_refused _ _ _ HM).
Qed.

Lemma worker_returns get_configs run_detection node :
  console Magnifier = true ->
  (forall a b, tame (get_configs a b)) ->
  (forall a b, tame (run_detection a b)) ->
  returns (analyze_single_node_with env namespace console
             get_configs run_detection node).
Proof.
  intros HM Hc Hd. unfold analyze_single_node_with.
  apply returns_bind; [now apply returns_print|]. intros _.
  apply returns_bind; [apply deploy_returns|]. intros [success msg].
  destruct (negb success); [apply returns_ret|].
  apply returns_try_except; [|intros e; apply returns_ret].
  apply tame_bind; [apply Hc|]. intros cs.
  apply tame_bind; [apply Hd|]. intros sy. apply tame_ret.
Qed.

Lemma worker_tame get_configs run_detection node :
  (forall a b, tame (get_configs a b)) ->
  (forall a b, tame (run_detection a b)) ->
  tame (analyze_single_node_with env namespace console
          get_configs run_detection node).
Proof.
  intros Hc Hd. unfold analyze_single_node_with.
  apply tame_bind; [apply tame_print|]. intros _.
  apply tame_bind; [apply returns_tame, deploy_returns|].
  intros [success msg].
  destruct (negb success); [apply tame_ret|].
  apply tame_try_except; [|intros e; apply tame_ret].
  apply tame_bind; [apply Hc|]. intros cs.
  apply tame_bind; [apply Hd|]. intros sy. apply tame_ret.
Qed.

(** C2.  Once its announcement (line 969) is printed,
    [analyze_single_node] returns a [NodeGPUStatus] for its node whatever
    the outside world answers.  When provisioning fails, the status
    carries provisioning's message (never empty) as [execution_error], no
    configuration record, and the history stops where provisioning
    stopped.  When provisioning succeeds and either of the two steps
    inside the [try] raises an [Exception], the worker still returns: the
    status has [execution_error] set to [Analysis failed:] and the
    exception's text, and no configuration record.  The announcement
    stands before the [try]: on a stdout that cannot encode it the worker
    raises, before any request.  Whatever the stdout, the worker raises
    nothing but [Exception]s, which the collecting loop catches. *)
Theorem C2_worker_returns_once_announced :
  forall node : NodeInfo,
    (console Magnifier = true ->
     returns (analyze_single_node env namespace script_b64 console node)
     /\ (forall h msg h',
           deploy_debug_pod env namespace console (name node) h
           = (Ok (false, msg), h') ->
           truthy msg = true
           /\ analyze_single_node env namespace script_b64 console node h
              = (Ok {| node_name := name node;
                       containerd_configs := [];
                       gpu_failure_symptoms := None;
                       debug_pod_deployed := false;
                       execution_error := Some msg |}, h'))
     /\ (forall get_configs run_detection,
           (forall a b, tame (get_configs a b)) ->
           (forall a b, tame (run_detection a b)) ->
           returns (analyze_single_node_with env namespace console
                      get_configs run_detection node)
           /\ forall h pod h1 cls msg h2,
                deploy_debug_pod env namespace console (name node) h
                = (Ok (true, pod), h1) ->
                (get_configs (name node) pod ;;;
                 run_detection (name node) pod) h1
                = (Raise (Exception cls msg), h2) ->
                analyze_single_node_with env namespace console
                  get_configs run_detection node h
                = (Ok {| node_name := name node;
                         containerd_configs := [];
                         gpu_failure_symptoms := None;
                         debug_pod_deployed := true;
                         execution_error :=
                           Some ("Analysis failed: " ++ msg) |}, h2)))
    /\ (console Magnifier = false ->
        forall h,
          analyze_single_node env namespace script_b64 console node h
          = (Raise (Exception "UnicodeEncodeError"
                      "codec can't encode character"), h))
    /\ tame (analyze_single_node env namespace script_b64 console node)
    /\ yields (fun st => node_name st = name node)
              (analyze_single_node env namespace script_b64 console node).
Proof.
  intros node.
  assert (Tc : forall a b,
             tame (get_containerd_config_from_node env namespace a b))
    by (intros a b; apply returns_tame, inspect_config_paths_returns).
  assert (Td : forall a b,
             tame (run_gpu_detection_on_node env namespace script_b64 a b))
    by (intros a b; apply returns_tame, detection_returns).
  split; [|split; [|split]].
  - intros HM. split; [now apply worker_returns|]. split.
    + intros h msg h' E. split.
      * pose proof (deploy_failure_message (name node) h) as Hy.
        rewrite E in Hy. simpl in Hy. now apply Hy.
      * unfold analyze_single_node. rewrite (worker_announced _ _ _ _ HM).
        unfold bind. rewrite E. reflexivity.
    + intros get_configs run_detection Hc Hd.
      split; [now apply worker_returns|].
      intros h pod h1 cls msg h2 E Hraise.
      rewrite (worker_announced _ _ _ _ HM).
      unfold bind at 1. rewrite E. simpl.
      unfold try_except, bind in *.
      destruct (get_configs (name node) pod h1) as [[cs|e] hc].
      * destruct (run_detection (name node) pod hc) as [[sy|e] hd];
          [discriminate|].
        injection Hraise as -> ->. reflexivity.
      * injection Hraise as -> ->. reflexivity.
  - intros HM h. now apply worker_refused.
  - now apply worker_tame.
  - unfold analyze_single_node, analyze_single_node_with.
    apply yields_bind; intros _.
    apply yields_bind; intros [success msg].
    destruct (negb success); [now apply yields_ret|].
    apply yields_try_except; [|intros e; now apply yields_ret].
    apply yields_bind; intros cs. apply yields_bind; intros sy.
    now apply yields_ret.
Qed.

(** *** The result mapping *)

Lemma dict_set_fresh {V} (d : dict V) k v :
  ~ In k (keys d) -> dict_set d k v = (d ++ [(k, v)])%list.
Proof.
  induction d as [|[k' v'] d IH]; simpl; intros H; [reflexivity|].
  destruct (String.eqb k' k) eqn:E.
  - apply String.eqb_eq in E. tauto.
  - rewrite IH; tauto.
Qed.

Lemma dict_get_in {V} (d : dict V) k v :
  NoDup (keys d) -> In (k, v) d -> dict_get d k = Some v.
Proof.
  induction d as [|[k' v'] d IH]; simpl; intros Hnd Hin; [contradiction|].
  inversion Hnd as [|? ? Hk Hd]; subst.
  destruct Hin as [E|Hin].
  - injection E as -> ->. now rewrite String.eqb_refl.
  - destruct (String.eqb k' k) eqn:E; [|now apply IH].
    apply String.eqb_eq in E. subst k'. exfalso. apply Hk.
    apply (in_map fst) in Hin. exact Hin.
Qed.

Lemma in_keys_dict_set {V} (d : dict V) k v x :
  In x (keys (dict_set d k v)) <-> In x (keys d) \/ x = k.
Proof.
  induction d as [|[k' v'] d IH]; simpl.
  - intuition.
  - destruct (String.eqb k' k) eqn:E; simpl.
    + apply String.eqb_eq in E. subst k'. intuition.
    + rewrite IH. intuition.
Qed.

Lemma nodup_dict_set {V} (d : dict V) k v :
  NoDup (keys d) -> NoDup (keys (dict_set d k v)).
Proof.
  induction d as [|[k' v'] d IH]; simpl; intros H.
  - repeat constructor. intros [].
  - inversion H as [|? ? Hk Hd]; subst.
    destruct (String.eqb k' k) eqn:E; simpl; [now constructor|].
    constructor; [|now apply IH].
    rewrite in_keys_dict_set. intros [Hin| ->]; [contradiction|].
    now rewrite String.eqb_refl in E.
Qed.

Lemma in_keys_dict_get {V} (d : dict V) k :
  In k (keys d) -> exists v, dict_get d k = Some v.
Proof.
  induction d as [|[k' v'] d IH]; simpl; intros H; [contradiction|].
  destruct (String.eqb k' k) eqn:E; [eauto|].
  destruct H as [H|H]; [|now apply IH].
  subst k'. now rewrite String.eqb_refl in E.
Qed.

(** One turn of the collecting loop when both of its messages can be
    printed. *)
Lemma collect_one_eq node outcome results h :
  console CheckMark = true -> console CrossMark = true ->
  settled (node, outcome) ->
  collect_one console node outcome results h
  = (Ok (dict_set results (name node) (recorded node outcome)), h).
Proof.
  intros HC HX Hf. unfold collect_one.
  destruct outcome as [r|e]; unfold settled in Hf; simpl in Hf.
  - unfold try_except, bind. now rewrite (print_ok _ _ _ HC).
  - rewrite Hf. unfold record_failure, bind. now rewrite (print_ok _ _ _ HX).
Qed.

Lemma collect_eq completed :
  console CheckMark = true -> console CrossMark = true ->
  forall results h,
    Forall settled completed ->
    collect console completed None results h
    = (Ok (collected completed results), h).
Proof.
  intros HC HX.
  induction completed as [|[node outcome] completed IH];
    intros results h Hs; [reflexivity|].
  inversion Hs as [|? ? Hf Hrest]; subst. cbn [collect tick].
  unfold bind. rewrite (collect_one_eq _ _ _ _ HC HX Hf).
  now rewrite (IH _ h Hrest).
Qed.

Lemma collected_keys completed :
  forall results,
    NoDup (keys results) ->
    NoDup (keys (collected completed results))
    /\ forall k, In k (keys (collected completed results))
                 <-> In k (keys results)
                     \/ In k (map (fun f => name (fst f)) completed).
Proof.
  induction completed as [|f completed IH]; intros results Hnd.
  - simpl. intuition.
  - unfold collected in *. cbn [fold_left map].
    destruct (IH _ (nodup_dict_set results (name (fst f))
                      (recorded (fst f) (snd f)) Hnd)) as [H1 H2].
    split; [exact H1|]. intros k. rewrite H2, in_keys_dict_set.
    simpl. intuition.
Qed.

Lemma collected_fresh completed :
  forall results,
    NoDup (keys results ++ map (fun f => name (fst f)) completed)%list ->
    collected completed results = (results ++ map entry completed)%list.
Proof.
  induction completed as [|[node outcome] completed IH];
    intros results Hnd; unfold collected in *; cbn [fold_left map].
  - now rewrite app_nil_r.
  - assert (Hfresh : ~ In (name node) (keys results)).
    { intros Hin. apply NoDup_remove_2 in Hnd. apply Hnd.
      apply in_or_app. now left. }
    assert (Hnd' : forall v,
               NoDup (keys (results ++ [(name node, v)])%list
                      ++ map (fun f => name (fst f)) completed)%list).
    { intros v. unfold keys. rewrite map_app, <- app_assoc. exact Hnd. }
    cbn [fst snd].
    rewrite (dict_set_fresh _ _ _ Hfresh), (IH _ (Hnd' _)).
    now rewrite <- app_assoc.
Qed.

Lemma collect_all completed :
  console CheckMark = true -> console CrossMark = true ->
  forall results h,
    Forall settled completed ->
    NoDup (keys results ++ map (fun f => name (fst f)) completed)%list ->
    collect console completed None results h
    = (Ok (results ++ map entry completed)%list, h).
Proof.
  intros HC HX results h Hs Hnd.
  now rewrite (collect_eq _ HC HX _ _ Hs), (collected_fresh _ _ Hnd).
Qed.

Lemma submit_all_spec worker nodes :
  (forall node, tame (worker node)) ->
  forall h, exists futures h',
    submit_all worker nodes h = (Ok futures, h')
    /\ map fst futures = nodes /\ Forall settled futures.
Proof.
  intros Hw. induction nodes as [|node nodes IH]; intros h; simpl.
  - exists [], h. repeat split. constructor.
  - unfold bind at 1. pose proof (Hw node h) as Ht.
    destruct (worker node h) as [r h1]. simpl in Ht.
    unfold bind at 1. destruct (IH h1) as (futs & h2 & E & Hm & Hs).
    rewrite E. exists ((node, r) :: futs), h2. simpl.
    repeat split; [now rewrite Hm|].
    constructor; [|exact Hs]. unfold settled. simpl.
    destruct r; [exact I|exact Ht].
Qed.

Lemma as_completed_seq (futures : list Future) :
  as_completed futures (seq 0 (List.length futures)) = futures.
Proof.
  unfold as_completed. induction futures as [|f fs IH]; [reflexivity|].
  simpl. f_equal. rewrite <- seq_shift, flat_map_concat_map, map_map.
  rewrite <- flat_map_concat_map. exact IH.
Qed.

Lemma as_completed_perm (futures : list Future) order :
  Permutation order (seq 0 (List.length futures)) ->
  Permutation (as_completed futures order) futures.
Proof.
  intros H. rewrite <- (as_completed_seq futures) at 2.
  unfold as_completed. now apply Permutation_flat_map.
Qed.

(** C1.  Take the nodes that discovery returned, a stdout that can encode
    the progress messages, a pool that completes every future in some
    order and is not cancelled, and a worker that raises nothing but
    [Exception]s.  With a pool width that is positive, [analyze_cluster]
    returns a mapping whose keys are exactly the nodes' names, each of
    them once, so that every discovered node finds an outcome under its
    name.  When the nodes' names are distinct, as the names of a cluster's
    nodes are, the mapping has as many entries as there are nodes, and the
    entry of each node is what its own future gave: the status its worker
    returned, untouched, or, when its future raised, a status with
    [execution_error] set to [Analysis exception:] and the exception's
    text.  What another node's worker did plays no part in it.  With a
    pool width that is not positive and a node to analyze, the pool is
    refused: the run raises a [ValueError] and returns no mapping. *)
Theorem C1_one_outcome_per_node :
  forall (worker : NodeInfo -> M NodeGPUStatus) (sched : Schedule)
         (cleanup : bool) (h h1 : list Event) (nodes : list NodeInfo),
    (forall p, console p = true) ->
    get_cluster_nodes env json_loads h = (Ok nodes, h1) ->
    Permutation (completion sched) (seq 0 (List.length nodes)) ->
    interrupt sched = None ->
    (forall node, tame (worker node)) ->
    ((0 < max_workers)%Z ->
     exists futures results h',
       fst (submit_all worker nodes h1) = Ok futures
       /\ map fst futures = nodes
       /\ analyze_cluster_with env json_loads namespace console max_workers
            worker sched cleanup h
          = (Ok results, h')
       /\ NoDup (keys results)
       /\ (forall k, In k (keys results) <-> In k (map name nodes))
       /\ (forall node,
             In node nodes ->
             exists r, dict_get results (name node) = Some r)
       /\ (NoDup (map name nodes) ->
           List.length results = List.length nodes
           /\ forall node outcome,
                In (node, outcome) futures ->
                dict_get results (name node)
                = Some (recorded node outcome)))
    /\ ((max_workers <= 0)%Z -> nodes <> [] ->
        fst (analyze_cluster_with env json_loads namespace console
               max_workers worker sched cleanup h)
        = Raise (Exception "ValueError"
                   "max_workers must be greater than 0")).
Proof.
  intros worker sched cleanup h h1 nodes Hout Hd Hperm Hint Hw.
  assert (Hfin : forall h2, exists h3,
             (if cleanup
              then cleanup_debug_pods env namespace console nodes
              else ret tt) h2 = (Ok tt, h3)).
  { intros h2. destruct cleanup; [|eexists; reflexivity].
    rewrite cleanup_pods_eq, (Hout Broom), cleanup_eq.
    eexists; reflexivity. }
  split.
  - intros Hpos.
    destruct (submit_all_spec worker nodes Hw h1)
      as (futs & h2 & E & Hm & Hs).
    exists futs. destruct nodes as [|n0 ns].
    + destruct futs; [|discriminate]. exists [], h1. rewrite E.
      unfold analyze_cluster_with, bind.
      rewrite (print_ok _ _ _ (Hout Rocket)), Hd,
        (print_ok _ _ _ (Hout CrossMark)).
      simpl. repeat split; auto; try tauto; try constructor.
    + rewrite (orchestrate_eq worker sched cleanup h h1 (n0 :: ns)
                 (Hout Rocket) (Hout BarChart) Hd);
        [|discriminate].
      set (nodes := n0 :: ns) in *.
      assert (Hlen : List.length futs = List.length nodes)
        by (now rewrite <- Hm, length_map).
      rewrite <- Hlen in Hperm.
      pose proof (as_completed_perm futs _ Hperm) as Hc.
      set (completed := as_completed futs (completion sched)) in *.
      assert (Hnames : Permutation (map (fun f => name (fst f)) completed)
                                   (map name nodes)).
      { rewrite <- Hm, map_map. now apply Permutation_map. }
      assert (Hsettled : Forall settled completed).
      { eapply Permutation_Forall; [apply Permutation_sym, Hc|exact Hs]. }
      exists (collected completed []).
      assert (Hrun : run_pool console max_workers worker sched nodes h1
                     = (Ok (collected completed []), h2)).
      { unfold run_pool. apply Z.leb_gt in Hpos. rewrite Hpos.
        unfold bind. rewrite E, Hint.
        now apply collect_eq. }
      unfold try_finally. rewrite Hrun, E.
      destruct (Hfin h2) as [h3 ->]. exists h3.
      destruct (collected_keys completed [] (NoDup_nil _)) as [Hnd Hkeys].
      assert (Hiff : forall k, In k (keys (collected completed []))
                               <-> In k (map name nodes)).
      { intros k. rewrite Hkeys. simpl. split.
        - intros [[]|Hin]. now apply (Permutation_in _ Hnames).
        - intros Hin. right.
          now apply (Permutation_in _ (Permutation_sym Hnames)). }
      assert (Hfresh : NoDup (map name nodes) ->
                collected completed [] = map entry completed).
      { intros Hnn. apply (collected_fresh completed []). simpl.
        eapply Permutation_NoDup; [apply Permutation_sym, Hnames|].
        assumption. }
      repeat split; auto; try apply Hiff.
      * intros node Hin. apply in_keys_dict_get, Hiff. now apply in_map.
      * rewrite (Hfresh H), length_map, <- Hlen.
        now apply Permutation_length.
      * intros node outcome Hin. rewrite (Hfresh H). apply dict_get_in.
        -- unfold keys. rewrite map_map.
           eapply Permutation_NoDup; [apply Permutation_sym, Hnames|].
           assumption.
        -- apply (Permutation_in _ (Permutation_sym Hc)) in Hin.
           apply (in_map entry) in Hin. exact Hin.
  - intros Hneg Hne.
    rewrite (orchestrate_eq worker sched cleanup h h1 nodes
               (Hout Rocket) (Hout BarChart) Hd Hne).
    unfold try_finally, run_pool. apply Z.leb_le in Hneg. rewrite Hneg.
    unfold raise. destruct (Hfin h1) as [h3 ->]. reflexivity.
Qed.

(** *** The readiness wait *)







Lemma wait_ready_S pod n :
  wait_ready env namespace pod (S n) =
  (result <- run env (phase_poll pod namespace) ;;
   ready <-
     (if String.eqb (stdout result) "Running" then
        result <- run env (ready_poll pod namespace) ;;
        ret (String.eqb (stdout result) "true")
      else ret false) ;;
   if (ready : bool) then ret true
   else (sleep 1 ;;; wait_ready env namespace pod n)).
Proof. reflexivity. Qed.















(** *** Discovery *)

Lemma tame_lift {A} (r : result A) : mild r -> tame (lift r).
Proof. intros H h. exact H. Qed.

Lemma mild_rbind {A B} (r : result A) (k : A -> result B) :
  mild r -> (forall a, mild (k a)) -> mild (rbind r k).
Proof. destruct r as [a|e]; simpl; auto. Qed.

Lemma mild_getitem v k : mild (getitem v k).
Proof. destruct v as [| | | | |d]; simpl; auto. now destruct (dict_get d k). Qed.

Lemma mild_get v k d : mild (get v k d).
Proof.
  destruct v as [| | | | |d']; simpl; auto. now destruct (dict_get d' k).
Qed.

Lemma mild_items v : mild (items v).
Proof. now destruct v. Qed.

Lemma mild_iterate v : mild (iterate v).
Proof. now destruct v. Qed.

Lemma mild_member k v : mild (member k v).
Proof. now destruct v. Qed.

Lemma mild_as_str v : mild (as_str v).
Proof. now destruct v. Qed.

Lemma mild_loads s : mild (loads json_loads s).
Proof. unfold loads. now destruct (json_loads s). Qed.

Ltac mild_step :=
  match goal with
  | |- mild (Ok _) => exact I
  | |- mild (getitem _ _) => apply mild_getitem
  | |- mild (get _ _ _) => apply mild_get
  | |- mild (items _) => apply mild_items
  | |- mild (iterate _) => apply mild_iterate
  | |- mild (member _ _) => apply mild_member
  | |- mild (as_str _) => apply mild_as_str
  | |- mild (loads _ _) => apply mild_loads
  | |- mild (rbind _ _) => apply mild_rbind; [|intros ?]
  | |- mild (if ?b then _ else _) => destruct b
  end.

Lemma mild_requests_gpu containers : mild (requests_gpu containers).
Proof.
  induction containers as [|c cs IH]; cbn [requests_gpu];
    repeat mild_step; exact IH.
Qed.

Lemma mild_count_gpu_pods pods n : mild (count_gpu_pods pods n).
Proof.
  revert n; induction pods as [|pod pods IH]; intros n;
    cbn [count_gpu_pods];
    repeat (mild_step || apply mild_requests_gpu || apply IH).
Qed.

Lemma mild_node_status conditions : mild (node_status conditions).
Proof.
  induction conditions as [|c cs IH]; cbn [node_status];
    repeat mild_step; exact IH.
Qed.

Lemma count_returns node_name :
  returns (_count_gpu_pods_on_node env json_loads node_name).
Proof.
  unfold _count_gpu_pods_on_node.
  apply returns_try_except; [|intros e; apply returns_ret].
  apply tame_bind; [apply tame_run|]. intros p.
  destruct (negb _); [apply tame_ret|]. apply tame_lift.
  repeat (mild_step || apply mild_count_gpu_pods).
Qed.

Lemma scan_nodes_tame its nodes :
  tame (scan_nodes env json_loads its nodes).
Proof.
  revert nodes; induction its as [|node its IH]; intros nodes; simpl.
  - apply tame_ret.
  - apply tame_bind.
    + apply tame_lift. repeat (mild_step || apply mild_node_status).
    + intros [[[nm rs] st] gpu].
      apply tame_bind; [apply returns_tame, count_returns|].
      intros n. apply IH.
Qed.

Lemma discovery_returns : returns (get_cluster_nodes env json_loads).
Proof.
  unfold get_cluster_nodes.
  apply returns_try_except; [|intros e; apply returns_ret].
  apply tame_bind; [apply tame_run_checked|]. intros p.
  apply tame_bind; [apply tame_lift, mild_loads|]. intros v.
  apply tame_bind; [apply tame_lift; repeat mild_step|]. intros its.
  apply scan_nodes_tame.
Qed.

Lemma discovery_failure h :
  listing_fails env json_loads h ->
  get_cluster_nodes env json_loads h
  = (Ok [], (h ++ [Ran KubectlGetNodes (env h KubectlGetNodes)])%list).
Proof.
  unfold listing_fails. intros H.
  unfold get_cluster_nodes, try_except, bind at 1, run_checked, bind at 1.
  rewrite run_eq. destruct (env h KubectlGetNodes) as [rc out err|cls msg].
  - cbv beta iota. cbn [returncode stdout].
    destruct rc as [|rc]; simpl.
    + destruct H as [H|H]; [congruence|].
      unfold bind, lift, loads. rewrite H. reflexivity.
    + reflexivity.
  - reflexivity.
Qed.

(** C7, as the code has it.  Discovery never raises: it returns a list of
    nodes.  When that list is empty, [analyze_cluster] returns the empty
    mapping, on a console that takes its two notices.  When listing the
    nodes fails outright (the call raises, [kubectl] exits with an error,
    or its output is not JSON), discovery returns the empty list, and
    [analyze_cluster] returns the empty mapping after that one request:
    the failure is not raised to the caller, and the value returned is the
    one returned for a cluster without nodes.  On a console that refuses a
    notice, the refusal is what the caller gets: before any request for
    the first notice, after the listing for the second. *)
Theorem C7_discovery_failure_gives_the_empty_mapping :
  forall (sched : Schedule) (cleanup : bool) (h : list Event),
    (exists nodes, fst (get_cluster_nodes env json_loads h) = Ok nodes)
    /\ (fst (get_cluster_nodes env json_loads h) = Ok [] ->
        console Rocket = true -> console CrossMark = true ->
        analyze_cluster env json_loads namespace script_b64 console
          max_workers sched cleanup h
        = (Ok [], snd (get_cluster_nodes env json_loads h)))
    /\ (listing_fails env json_loads h ->
        console Rocket = true -> console CrossMark = true ->
        analyze_cluster env json_loads namespace script_b64 console
          max_workers sched cleanup h
        = (Ok [],
           (h ++ [Ran KubectlGetNodes (env h KubectlGetNodes)])%list))
    /\ (listing_fails env json_loads h ->
        console Rocket = true -> console CrossMark = false ->
        analyze_cluster env json_loads namespace script_b64 console
          max_workers sched cleanup h
        = (Raise (Exception "UnicodeEncodeError"
                    "codec can't encode character"),
           (h ++ [Ran KubectlGetNodes (env h KubectlGetNodes)])%list))
    /\ (console Rocket = false ->
        analyze_cluster env json_loads namespace script_b64 console
          max_workers sched cleanup h
        = (Raise (Exception "UnicodeEncodeError"
                    "codec can't encode character"), h)).
Proof.
  intros sched cleanup h. split; [apply discovery_returns|].
  unfold analyze_cluster, analyze_cluster_with. split; [|split; [|split]].
  - intros H HR HC. unfold bind at 1. rewrite (print_ok _ _ _ HR).
    cbv beta iota. unfold bind at 1.
    destruct (get_cluster_nodes env json_loads h) as [r h1].
    simpl in H. subst r. cbv beta iota. unfold bind.
    rewrite (print_ok _ _ _ HC). reflexivity.
  - intros H HR HC. unfold bind at 1. rewrite (print_ok _ _ _ HR).
    cbv beta iota. unfold bind at 1.
    rewrite (discovery_failure h H). cbv beta iota. unfold bind.
    rewrite (print_ok _ _ _ HC). reflexivity.
  - intros H HR HC. unfold bind at 1. rewrite (print_ok _ _ _ HR).
    cbv beta iota. unfold bind at 1.
    rewrite (discovery_failure h H). cbv beta iota. unfold bind.
    rewrite (print_refused _ _ _ HC). reflexivity.
  - intros HR. unfold bind at 1. rewrite (print_refused _ _ _ HR).
    reflexivity.
Qed.

(** *** Issues *)

Lemma issues_app r1 r2 :
  get_runtime_config_issues (r1 ++ r2)%list
  = (get_runtime_config_issues r1 ++ get_runtime_config_issues r2)%list.
Proof.
  induction r1 as [|[n r] r1 IH]; simpl; [reflexivity|].
  now rewrite IH, app_assoc.
Qed.

Lemma missing_issues n configs :
  flat_map (fun config =>
              if missing_binary config
              then ["Node " ++ n ++ ": NVIDIA runtime binary not found at "
                    ++ binary_name config]
              else []) configs
  = map (fun c => missing_binary_issue n (binary_name c))
        (filter missing_binary configs).
Proof.
  induction configs as [|c cs IH]; [reflexivity|].
  cbn [flat_map filter]. destruct (missing_binary c); cbn [map];
    rewrite IH; reflexivity.
Qed.

(** C5, as the code has it.  The issue list follows the mapping's own
    order, node by node.  A node with an execution error adds nothing.
    Any other node adds its unconfigured issue, when none of its existing
    records is configured, and then one missing-binary issue for each of
    its records that is configured, names a binary, and whose binary is
    absent.  Nothing is added for the release configuration.  On the
    three-node cluster, collected in the order A, B, C, the list is
    missing binary on B, then C unconfigured. *)
Theorem C5_issues_follow_the_mapping :
  (forall r1 r2,
      get_runtime_config_issues (r1 ++ r2)%list
      = (get_runtime_config_issues r1 ++ get_runtime_config_issues r2)%list)
  /\ (forall n r,
        truthy_opt (execution_error r) = true ->
        get_runtime_config_issues [(n, r)] = [])
  /\ (forall n r,
        truthy_opt (execution_error r) = false ->
        get_runtime_config_issues [(n, r)]
        = ((if has_nvidia_runtime r then [] else [unconfigured_issue n])
           ++ map (fun c => missing_binary_issue n (binary_name c))
                  (filter missing_binary (containerd_configs r)))%list)
  /\ (exists results,
        fst (analyze_cluster Scenarios.demo_env Scenarios.demo_json
               "kube-system" "c2NyaXB0" Scenarios.utf8 5 Scenarios.in_order true [])
        = Ok results
        /\ keys results = ["a.local"; "b.local"; "c.local"]
        /\ get_runtime_config_issues results
           = [missing_binary_issue "b.local"
                "/usr/bin/nvidia-container-runtime";
              unconfigured_issue "c.local"]).
Proof.
  split; [exact issues_app|]. split; [|split].
  - intros n r H. simpl. unfold node_issues. now rewrite H.
  - intros n r H. simpl. unfold node_issues. rewrite H, app_nil_r.
    rewrite missing_issues. now destruct (has_nvidia_runtime r).
  - eexists. split; [vm_compute; reflexivity|].
    split; vm_compute; reflexivity.
Qed.

(** The priority order lives in the recommendations of the report:
    missing binaries, then unconfigured nodes, then nodes with errors,
    then the release, whatever the order of the mapping. *)
Lemma recommendations_by_priority results found valid :
  Sorted.StronglySorted le (map rank (recommendations results found valid)).
Proof.
  unfold recommendations.
  destruct (fill_buckets results _) as [[|u us] [|e es] [|m ms]];
    destruct found, valid; simpl;
    repeat (constructor; [|repeat constructor; lia]); constructor.
Qed.

Lemma recommendations_of_the_three_nodes :
  forall sched results,
    (sched = Scenarios.in_order \/ sched = Scenarios.reversed) ->
    fst (analyze_cluster Scenarios.demo_env Scenarios.demo_json
           "kube-system" "c2NyaXB0" Scenarios.utf8 5 sched true [])
    = Ok results ->
    recommendations results true true
    = [MissingBinaryGroup
         [{| mb_node := "b.local";
             mb_binary_path := "/usr/bin/nvidia-container-runtime";
             mb_config_path := "/host/etc/containerd/config.toml" |}];
       UnconfiguredGroup ["c.local"];
       VerifyToolkit; RestartContainerd].
Proof.
  intros sched results [-> | ->] H; vm_compute in H;
    injection H as <-; vm_compute; reflexivity.
Qed.

(** *** The markers *)

Lemma remote_configured_iff text :
  remote_nvidia_configured text = true
  <-> occurs_ci "nvidia" text /\ occurs_ci "runc" text.
Proof.
  unfold remote_nvidia_configured. cbv zeta.
  rewrite andb_true_iff, !contains_lower_iff. reflexivity.
Qed.

End Claims.

Import Scenarios.

(** C4.  On a configuration text that spells the two markers [NVIDIA]
    and [RunC], the test of the remote path answers [true] and the test
    of the local path answers [false]: the local path compares without
    folding the case.  Run on a node that has this text at the default
    path, [check_local_node_config] reports nothing at all: building its
    record raises a [TypeError], in the handler as well. *)
Theorem C4_local_path_is_case_sensitive :
  remote_nvidia_configured config_mixed_case = true
  /\ local_nvidia_configured config_mixed_case = false
  /\ fst (check_local_node_config local_env [])
     = Raise (Exception "TypeError"
                "__init__() got an unexpected keyword argument 'config_valid'").
Proof. repeat split; vm_compute; reflexivity. Qed.

(** The three-node cluster, its futures collected in the opposite order:
    the unconfigured issue of C comes before the missing-binary issue of
    B. *)
Lemma C5_counterexample :
  exists results,
    fst (analyze_cluster demo_env demo_json "kube-system" "c2NyaXB0" utf8 5
           reversed true [])
    = Ok results
    /\ get_runtime_config_issues results
       = [unconfigured_issue "c.local";
          missing_binary_issue "b.local" "/usr/bin/nvidia-container-runtime"]
    /\ ~ prioritized (get_runtime_config_issues results).
Proof.
  eexists. split; [vm_compute; reflexivity|].
  split; [vm_compute; reflexivity|].
  intros H.
  specialize (H 0 1 _ _ (le_n 1) eq_refl eq_refl eq_refl).
  vm_compute in H. discriminate H.
Qed.

(** A cluster that cannot be reached: the run returns the empty mapping,
    as it does for a cluster without nodes, and raises nothing. *)
Lemma C7_counterexample :
  listing_fails down_env demo_json []
  /\ fst (analyze_cluster down_env demo_json "kube-system" "c2NyaXB0" utf8 5
            in_order true [])
     = Ok []
  /\ fst (analyze_cluster down_env demo_json "kube-system" "c2NyaXB0" utf8 5
            in_order true [])
     = fst (analyze_cluster empty_env empty_json "kube-system" "c2NyaXB0" utf8 5
              in_order true []).
Proof.
  split; [left; discriminate|]. split; vm_compute; reflexivity.
Qed.

(** The three-node cluster analysed with a pool of width 0: the pool
    cannot be built, the run raises a [ValueError] after the sweep and
    returns no mapping.  With a worker that fails on one node and a
    console without the cross mark, the notice of that failure cannot be
    printed: the run raises and the outcomes of the other two nodes are
    lost with it. *)
Lemma C1_counterexample :
  (exists nodes h1,
      get_cluster_nodes demo_env demo_json [] = (Ok nodes, h1)
      /\ List.length nodes = 3)
  /\ fst (analyze_cluster demo_env demo_json "kube-system" "c2NyaXB0" utf8 0
            in_order true [])
     = Raise (Exception "ValueError" "max_workers must be greater than 0")
  /\ fst (analyze_cluster_with demo_env demo_json "kube-system" no_cross_mark
            5 flaky_worker in_order false [])
     = Raise (Exception "UnicodeEncodeError" "codec can't encode character").
Proof.
  split; [eexists _, _; split; vm_compute; reflexivity|].
  split; vm_compute; reflexivity.
Qed.

(** On a console that cannot encode the magnifier, the worker raises
    before its first request. *)
Lemma C2_counterexample :
  analyze_single_node demo_env "kube-system" "c2NyaXB0" ascii_only node_b []
  = (Raise (Exception "UnicodeEncodeError" "codec can't encode character"),
     [])
  /\ ~ returns (analyze_single_node demo_env "kube-system" "c2NyaXB0"
                  ascii_only node_b).
Proof.
  split; [vm_compute; reflexivity|].
  intros H. destruct (H []) as [a E]. vm_compute in E. discriminate E.
Qed.

(** The three-node cluster with deletions refused: the run returns its
    mapping of three entries, every deletion of the sweep was asked for
    and failed, and the three inspection pods are still there. *)
Lemma C3_counterexample :
  exists results trace,
    analyze_cluster stubborn_env demo_json "kube-system" "c2NyaXB0" utf8 5
      in_order true []
    = (Ok results, trace)
    /\ keys results = ["a.local"; "b.local"; "c.local"]
    /\ In (Ran (KubectlDeletePod "gpu-debug-a-local" "kube-system")
              (Completed 1 "" "pods is forbidden")) trace
    /\ pods_after [] trace
       = [("kube-system", "gpu-debug-c-local");
          ("kube-system", "gpu-debug-b-local");
          ("kube-system", "gpu-debug-a-local")].
Proof.
  eexists _, _. split; [vm_compute; reflexivity|].
  split; [vm_compute; reflexivity|].
  split; [|vm_compute; reflexivity].
  apply (nth_error_In _ 44). vm_compute. reflexivity.
Qed.


(** A binary name in single quotes around double quotes: the name
    reported keeps the double quotes, and the file tested for is the
    quoted name under [/host]. *)
Lemma C8_counterexample :
  exists bi h',
    _extract_and_verify_binary demo_env "kube-system" config_nested_quotes
      "gpu-debug-a-local" []
    = (Ok bi, h')
    /\ bi_binary_name bi
       = String dquote ("/usr/bin/foo" ++ String dquote "")
    /\ bi_binary_name bi <> "/usr/bin/foo"
    /\ cmds h'
       = [KubectlExec "kube-system" "gpu-debug-a-local"
            ["test"; "-f";
             "/host" ++ String dquote ("/usr/bin/foo" ++ String dquote "")]
            (Some 10)].
Proof.
  eexists _, _. split; [vm_compute; reflexivity|].
  split; [reflexivity|]. split; [discriminate|]. reflexivity.
Qed.

(** *** The theorems at work *)

Lemma C8_witness :
  exists bi h',
    _extract_and_verify_binary demo_env "kube-system" config_two_binaries
      "gpu-debug-a-local" []
    = (Ok bi, h')
    /\ bi_binary_name bi = "/usr/bin/foo".
Proof.
  destruct (proj2 (C8_binary_path_of_first_assignment demo_env "kube-system"
                     config_two_binaries "gpu-debug-a-local" [])
              ["# containerd"] ["BinaryName = /usr/bin/bar"]
              "  BinaryName " (String " " (String dquote
                                  ("/usr/bin/foo" ++ String dquote "")))
              eq_refl)
    as (bi & h' & E & _ & Hw & _).
  - repeat constructor.
  - reflexivity.
  - reflexivity.
  - exists bi, h'. split; [exact E|].
    apply (Hw dquote " " (String dquote "") "/usr/bin/foo"
              (String dquote "") "");
      try reflexivity; try (split; reflexivity).
    now left.
Defined.

Lemma C9_witness :
  deploy_debug_pod present_env "kube-system" utf8 "b.local" []
  = (Ok (true, "gpu-debug-b-local"),
     [Ran (KubectlGetPod "gpu-debug-b-local" "kube-system")
          (Completed 0 "" "")]).
Proof.
  exact (proj1 (C9_provision_and_teardown_idempotent present_env
                  "kube-system" utf8)
           "b.local" [] "" "" eq_refl).
Defined.

Lemma C10_witness :
  match fst (deploy_debug_pod present_env "kube-system" utf8 "b.local" []) with
  | Ok r => snd r = "gpu-debug-b-local"
  | Raise _ => False
  end.
Proof.
  pose proof (C10_one_derived_identity present_env "kube-system" utf8
                "b.local")
    as (_ & _ & _ & _ & _ & Hy & _).
  specialize (Hy []). vm_compute in Hy. vm_compute. exact (Hy eq_refl).
Defined.

Lemma C7_witness :
  analyze_cluster down_env demo_json "kube-system" "c2NyaXB0" utf8 5 in_order true []
  = (Ok [],
     [Ran KubectlGetNodes
          (Completed 1 "" "Unable to connect to the server")])
  /\ analyze_cluster empty_env empty_json "kube-system" "c2NyaXB0" utf8 5
       in_order true []
     = (Ok [], [Ran KubectlGetNodes (Completed 0 "none" "")]).
Proof.
  split.
  - apply (C7_discovery_failure_gives_the_empty_mapping down_env demo_json
             "kube-system" "c2NyaXB0" utf8 5 in_order true []);
      [left; discriminate|reflexivity|reflexivity].
  - apply (proj1 (proj2 (C7_discovery_failure_gives_the_empty_mapping
                           empty_env empty_json "kube-system" "c2NyaXB0"
                           utf8 5 in_order true [])));
      reflexivity.
Defined.

Lemma C5_witness :
  get_runtime_config_issues
    [("b.local",
      recorded node_b (Raise (Exception "RuntimeError" "worker crashed")))]
  = []
  /\ get_runtime_config_issues
       [("b.local",
         {| node_name := "b.local"; containerd_configs := [];
            gpu_failure_symptoms := None; debug_pod_deployed := true;
            execution_error := None |})]
     = [unconfigured_issue "b.local"].
Proof.
  split.
  - apply (proj1 (proj2 C5_issues_follow_the_mapping)). reflexivity.
  - apply (proj1 (proj2 (proj2 C5_issues_follow_the_mapping))). reflexivity.
Defined.


Lemma flaky_worker_tame node : tame (flaky_worker node).
Proof.
  intros h. unfold flaky_worker.
  destruct (String.eqb (name node) "b.local"); [reflexivity|exact I].
Qed.

Lemma C1_witness :
  exists results,
    fst (analyze_cluster_with demo_env demo_json "kube-system" utf8 5 flaky_worker
           reversed true [])
    = Ok results
    /\ List.length results = 3
    /\ dict_get results "b.local"
       = Some (recorded node_b
                 (Raise (Exception "RuntimeError" "worker crashed"))).
Proof.
  edestruct (C1_one_outcome_per_node demo_env demo_json "kube-system"
               utf8 5 flaky_worker reversed true [])
    as [H _].
  - intros p. reflexivity.
  - vm_compute. reflexivity.
  - simpl. eapply perm_trans; [apply perm_swap|].
    eapply perm_trans; [apply perm_skip, perm_swap|]. apply perm_swap.
  - reflexivity.
  - exact flaky_worker_tame.
  - destruct H
      as (futs & results & h' & Hf & Hm & Hr & _ & _ & _ & Hd);
      [reflexivity|].
    destruct Hd as [Hl Hg].
    + repeat constructor; simpl; intuition discriminate.
    + exists results. rewrite Hr. split; [reflexivity|].
      split; [exact Hl|].
      vm_compute in Hf. injection Hf as <-.
      apply (Hg node_b (Raise (Exception "RuntimeError" "worker crashed"))).
      right. left. reflexivity.
Defined.

Lemma C2_witness :
  (exists h',
      analyze_single_node pending_env "kube-system" "c2NyaXB0" utf8 node_b []
      = (Ok {| node_name := "b.local";
               containerd_configs := [];
               gpu_failure_symptoms := None;
               debug_pod_deployed := false;
               execution_error :=
                 Some "Pod failed to start within timeout. Details: 0/1 nodes are available" |},
         h'))
  /\ (exists h',
        analyze_single_node_with present_env "kube-system" utf8
          broken_configs silent_detection node_b []
        = (Ok {| node_name := "b.local";
                 containerd_configs := [];
                 gpu_failure_symptoms := None;
                 debug_pod_deployed := true;
                 execution_error :=
                   Some "Analysis failed: too many open files" |},
           h')).
Proof.
  split.
  - destruct (proj1 (C2_worker_returns_once_announced pending_env
                       "kube-system" "c2NyaXB0" utf8 node_b) eq_refl)
      as (_ & H & _).
    edestruct (H []) as [_ E]; [vm_compute; reflexivity|].
    eexists. exact E.
  - destruct (proj1 (C2_worker_returns_once_announced present_env
                       "kube-system" "c2NyaXB0" utf8 node_b) eq_refl)
      as (_ & _ & H).
    assert (T1 : forall a b, tame (broken_configs a b))
      by (intros a b h; reflexivity).
    assert (T2 : forall a b, tame (silent_detection a b))
      by (intros a b h; exact I).
    destruct (H broken_configs silent_detection T1 T2) as [_ E].
    eexists. eapply E; vm_compute; reflexivity.
Defined.

Lemma C3_witness :
  exists trace,
    analyze_cluster demo_env demo_json "kube-system" "c2NyaXB0" utf8 5
      cancelled true []
    = (Raise KeyboardInterrupt, trace)
    /\ ~ In ("kube-system", "gpu-debug-b-local") (pods_after [] trace).
Proof.
  edestruct (C3_sweep_runs_after_the_pool demo_env demo_json "kube-system"
               utf8 5
               (analyze_single_node demo_env "kube-system" "c2NyaXB0" utf8)
               cancelled [])
    as [H _].
  - reflexivity.
  - reflexivity.
  - vm_compute. reflexivity.
  - discriminate.
  - destruct (H eq_refl) as (sweep & E & HF & _ & Hgone).
    eexists. split.
    + unfold analyze_cluster. rewrite E.
      apply f_equal2; [vm_compute; reflexivity|reflexivity].
    + apply (Hgone) with (n := node_b).
      * clear -HF. inversion HF as [|e1 n1 s1 ns1 [h1 ->] HF1]; subst.
        inversion HF1 as [|e2 n2 s2 ns2 [h2 ->] HF2]; subst.
        inversion HF2 as [|e3 n3 s3 ns3 [h3 ->] HF3]; subst.
        inversion HF3; subst. repeat constructor.
      * right. left. reflexivity.
Defined.

End Proofs.

(* ===================================================================== *)
(** ** Further properties of the code *)
(* ===================================================================== *)

Module Extras.
Import PyStr Runtime Analyzer Spec Notions PyStrFacts RuntimeFacts.
Local Open Scope py_scope.

Lemma always_intro {A} (Q : A -> Prop) (m : M A) :
  returns m -> yields Q m -> always Q m.
Proof.
  intros Hr Hy h. destruct (Hr h) as [a Ha]. exists a. split; [exact Ha|].
  specialize (Hy h). now rewrite Ha in Hy.
Qed.

Lemma yields_bind_strong {A B} (P : A -> Prop) (Q : B -> Prop)
    (m : M A) (k : A -> M B) :
  yields P m -> (forall a, P a -> yields Q (k a)) -> yields Q (bind m k).
Proof.
  intros Hm Hk h. unfold bind. specialize (Hm h).
  destruct (m h) as [[a|e] h']; simpl in *; [now apply Hk|exact I].
Qed.

Lemma yields_weaken {A} (P Q : A -> Prop) (m : M A) :
  (forall a, P a -> Q a) -> yields P m -> yields Q m.
Proof.
  intros HPQ Hm h. specialize (Hm h).
  destruct (fst (m h)); [now apply HPQ|exact I].
Qed.

Section Code.

Variable env : Oracle.
Variable json_loads : string -> option JSON.
Variable namespace : string.
Variable script_b64 : string.
Variable console : Console.
Variable max_workers : Z.

(** *** The configuration records of a node *)

Lemma extract_yields content pod :
  yields (fun bi =>
            bi_binary_path bi = EmptyString
            \/ bi_binary_path bi = bi_binary_name bi)
         (_extract_and_verify_binary env namespace content pod).
Proof.
  unfold _extract_and_verify_binary.
  destruct (first_binary_path _); [|apply yields_ret; now left].
  apply yields_try_except.
  - apply yields_bind; intros p. apply yields_ret. now right.
  - intros e. apply yields_ret. now left.
Qed.

Lemma inspect_yields node_name pod path :
  yields (fun c => config_path c = path /\ cfg_node_name c = node_name
                   /\ coherent c)
         (inspect_config_path env namespace node_name pod path).
Proof.
  unfold inspect_config_path. apply yields_try_except.
  - apply yields_bind; intros p.
    destruct (returncode p =? 0)%nat; cbn [exists_].
    + apply yields_bind; intros q.
      destruct (returncode q =? 0)%nat.
      * destruct (remote_nvidia_configured (stdout q)) eqn:Ec.
        -- eapply yields_bind_strong; [apply extract_yields|].
           intros bi Hbi. apply yields_ret. unfold coherent. simpl.
           repeat split; auto; try discriminate; try congruence.
        -- apply yields_ret. unfold coherent. simpl.
           repeat split; auto; try discriminate; try congruence.
      * apply yields_ret. unfold coherent. simpl.
        repeat split; auto; try discriminate; try congruence.
    + apply yields_ret. unfold coherent. simpl.
      repeat split; auto; try discriminate; try congruence.
  - intros e. apply yields_ret. unfold coherent. simpl.
    repeat split; auto; try discriminate; try congruence.
Qed.

Lemma inspect_paths_always node_name pod paths :
  forall configs,
    always (fun out =>
              exists fresh,
                out = (configs ++ fresh)%list
                /\ map config_path fresh = paths
                /\ Forall (fun c => cfg_node_name c = node_name) fresh
                /\ Forall coherent fresh)
           (inspect_config_paths env namespace node_name pod paths configs).
Proof.
  induction paths as [|path paths IH]; intros configs h; simpl.
  - exists configs. split; [reflexivity|]. exists [].
    rewrite app_nil_r. repeat split; constructor.
  - unfold bind.
    destruct (always_intro _ _
                (Proofs.inspect_config_path_returns env namespace
                   node_name pod path)
                (inspect_yields node_name pod path) h)
      as (c & Hc & Hp & Hn & Hco).
    destruct (inspect_config_path env namespace node_name pod path h)
      as [r h1]. simpl in Hc. subst r.
    destruct (IH (configs ++ [c])%list h1) as (out & Ho & fresh & -> & Hm & Hf & Hw).
    exists ((configs ++ [c]) ++ fresh)%list. split; [exact Ho|].
    exists (c :: fresh). rewrite <- app_assoc. simpl.
    repeat split; [now rewrite Hp, Hm| |]; constructor; assumption.
Qed.

(** X1.  Whatever the node answers, [get_containerd_config_from_node]
    returns five records, one for each candidate path in the fixed order,
    each carrying the node's name: a path that is absent or cannot be read
    still has its record. *)
Theorem X1_one_record_per_candidate_path :
  forall (node_name pod : string) (h : list Event),
    exists configs,
      fst (get_containerd_config_from_node env namespace node_name pod h)
      = Ok configs
      /\ map config_path configs = remote_config_paths
      /\ List.length configs = 5
      /\ Forall (fun c => cfg_node_name c = node_name) configs.
Proof.
  intros node_name pod h.
  destruct (inspect_paths_always node_name pod remote_config_paths [] h)
    as (out & Ho & fresh & -> & Hm & Hf & _).
  exists fresh. simpl in *. repeat split; auto.
  rewrite <- (length_map config_path), Hm. reflexivity.
Qed.

(** X2.  Every record [get_containerd_config_from_node] returns is
    coherent: it is marked configured only if the file exists, was read
    without error and holds both markers; a file that is absent or could
    not be read has no content and is not configured; a binary is reported
    present only for a configured record; and the path used for the test
    is the declared binary name, or empty when the test raised or no
    binary is declared. *)
Theorem X2_records_are_coherent :
  forall (node_name pod : string) (h : list Event),
    exists configs,
      fst (get_containerd_config_from_node env namespace node_name pod h)
      = Ok configs
      /\ Forall coherent configs.
Proof.
  intros node_name pod h.
  destruct (inspect_paths_always node_name pod remote_config_paths [] h)
    as (out & Ho & fresh & -> & _ & _ & Hw).
  exists fresh. split; [exact Ho|exact Hw].
Qed.

(** X3.  For a candidate path whose file is there and can be read, the
    record keeps the text as it was read, and is marked configured exactly
    when the text holds [nvidia] and [runc] in some letter case. *)
Theorem X3_remote_record_configured_iff :
  forall (node_name pod path text : string) (h : list Event)
         (out err err' : string),
    let test := KubectlExec namespace pod ["test"; "-f"; path] None in
    let cat := KubectlExec namespace pod ["cat"; path] None in
    env h test = Completed 0 out err ->
    env (h ++ [Ran test (Completed 0 out err)])%list cat
    = Completed 0 text err' ->
    exists c,
      fst (inspect_config_path env namespace node_name pod path h) = Ok c
      /\ exists_ c = true
      /\ config_content c = text
      /\ (nvidia_runtime_configured c = true
          <-> occurs_ci "nvidia" text /\ occurs_ci "runc" text).
Proof.
  intros node_name pod path text h out err err' test cat Ht Hc.
  unfold inspect_config_path, try_except, bind at 1.
  rewrite run_eq. fold test. rewrite Ht. cbv beta iota.
  cbn [returncode Nat.eqb exists_]. unfold bind at 1.
  rewrite run_eq. fold cat. rewrite Hc. cbv beta iota.
  cbn [returncode Nat.eqb stdout].
  pose proof (Proofs.remote_configured_iff text) as Hiff.
  destruct (remote_nvidia_configured text) eqn:E.
  - unfold bind.
    destruct (Proofs.extract_returns env namespace text pod
                ((h ++ [Ran test (Completed 0 out err)])
                   ++ [Ran cat (Completed 0 text err')])%list) as [bi Hbi].
    destruct (_extract_and_verify_binary env namespace text pod _)
      as [r h2]. simpl in Hbi. subst r. cbv beta iota.
    eexists. split; [reflexivity|]. simpl.
    split; [reflexivity|]. split; [reflexivity|]. exact Hiff.
  - eexists. split; [reflexivity|]. simpl.
    split; [reflexivity|]. split; [reflexivity|]. exact Hiff.
Qed.

(** X4.  The declared binary is looked up only when the text declares
    one.  A text in which no line holds both [BinaryName] and [=] gives an
    empty name and makes no request.  Otherwise exactly one request is
    made, a [test -f] of the declared path under [/host] with a time-out
    of 10 seconds: the binary exists when it exits with 0, and when the
    request itself raises the name is kept, the binary counts as absent
    and the exception's text is recorded. *)
Theorem X4_binary_lookup_edge_cases :
  forall (content pod : string) (h : list Event),
    (existsb is_binary_line (split "010" content) = false ->
     _extract_and_verify_binary env namespace content pod h
     = (Ok {| bi_binary_name := EmptyString; bi_binary_exists := false;
              bi_binary_path := EmptyString; bi_error := None |}, h))
    /\ (forall path,
          first_binary_path (split "010" content) = Some path ->
          let test := binary_test namespace pod path in
          snd (_extract_and_verify_binary env namespace content pod h)
          = (h ++ [Ran test (env h test)])%list
          /\ (forall rc out err,
                env h test = Completed rc out err ->
                fst (_extract_and_verify_binary env namespace content pod h)
                = Ok {| bi_binary_name := path;
                        bi_binary_exists := (rc =? 0)%nat;
                        bi_binary_path := path; bi_error := None |})
          /\ (forall cls msg,
                env h test = Fails cls msg ->
                fst (_extract_and_verify_binary env namespace content pod h)
                = Ok {| bi_binary_name := path;
                        bi_binary_exists := false;
                        bi_binary_path := EmptyString;
                        bi_error := Some msg |})).
Proof.
  intros content pod h. split.
  - intros H. unfold _extract_and_verify_binary.
    assert (Hn : first_binary_path (split "010" content) = None).
    { induction (split "010" content) as [|l ls IH]; [reflexivity|].
      simpl in *. apply orb_false_iff in H as [Hl Hls].
      rewrite Hl. now apply IH. }
    now rewrite Hn.
  - intros path Hp test. unfold _extract_and_verify_binary.
    rewrite Hp. unfold try_except, bind. rewrite run_eq.
    change (KubectlExec namespace pod ["test"; "-f"; "/host" ++ path]
              (Some 10)) with test.
    destruct (env h test) as [rc out err|cls msg] eqn:E; simpl.
    + repeat split.
      * intros rc' out' err' H. now injection H as -> -> ->.
      * intros cls msg H. discriminate.
    + repeat split.
      * intros rc out err H. discriminate.
      * intros cls' msg' H. now injection H as -> ->.
Qed.

(** *** Provisioning *)

(** X5.  When the pod is not there and [kubectl apply] exits with an
    error, provisioning fails with [Failed to create pod:] and what
    [kubectl] wrote to its standard error; the manifest's temporary file
    has been removed, and the pod is neither polled nor waited for. *)
Theorem X5_failed_creation_stops_at_once :
  forall (node_name : string) (h : list Event)
         (rc0 rc1 rc2 rc3 : nat) (o0 e0 file e1 o2 e2 o3 e3 : string),
    let pod := pod_identity node_name in
    let doc := create_debug_pod_spec namespace node_name in
    let checked := Ran (KubectlGetPod pod namespace)
                       (Completed (S rc0) o0 e0) in
    let written := Ran (TempYaml doc) (Completed rc1 file e1) in
    let applied := Ran (KubectlApply file doc) (Completed (S rc2) o2 e2) in
    let removed := Ran (Unlink file) (Completed rc3 o3 e3) in
    env h (KubectlGetPod pod namespace) = Completed (S rc0) o0 e0 ->
    env (h ++ [checked])%list (TempYaml doc) = Completed rc1 file e1 ->
    env ((h ++ [checked]) ++ [written])%list (KubectlApply file doc)
    = Completed (S rc2) o2 e2 ->
    env (((h ++ [checked]) ++ [written]) ++ [applied])%list (Unlink file)
    = Completed rc3 o3 e3 ->
    deploy_debug_pod env namespace console node_name h
    = (Ok (false, "Failed to create pod: " ++ e2),
       (h ++ [checked; written; applied; removed])%list).
Proof.
  intros node_name h rc0 rc1 rc2 rc3 o0 e0 file e1 o2 e2 o3 e3
         pod doc checked written applied removed H0 H1 H2 H3.
  unfold deploy_debug_pod, try_except.
  change (debug_pod_prefix ++ "-" ++ replace "." "-" node_name) with pod.
  fold doc.
  unfold bind at 1. rewrite run_eq, H0. cbv beta iota.
  cbn [returncode Nat.eqb]. fold checked.
  unfold bind at 1. rewrite run_eq, H1. cbv beta iota. cbn [stdout].
  fold written.
  unfold bind at 1. rewrite run_eq, H2. cbv beta iota. fold applied.
  unfold bind at 1. rewrite run_eq, H3. cbv beta iota.
  cbn [returncode Nat.eqb negb stderr]. fold removed. unfold ret.
  now rewrite <- !app_assoc.
Qed.

(** A wait that ends well has slept less than its number of attempts. *)
Lemma wait_ready_success pod n :
  forall h, exists r ev,
    wait_ready env namespace pod n h = (r, (h ++ ev)%list)
    /\ seconds_slept ev <= n
    /\ (r = Ok true -> S (seconds_slept ev) <= n).
Proof.
  induction n as [|n IH]; intros h.
  - exists (Ok false), []. simpl. rewrite app_nil_r.
    repeat split; [lia|discriminate].
  - rewrite Proofs.wait_ready_S. unfold bind at 1. rewrite run_eq.
    destruct (env h (phase_poll pod namespace)) as [rc out err|cls msg].
    2:{ eexists. eexists. split; [reflexivity|]. simpl.
        split; [lia|discriminate]. }
    cbv beta iota. cbn [stdout]. unfold bind at 1.
    destruct (String.eqb out "Running").
    + unfold bind at 1. rewrite run_eq.
      destruct (env _ (ready_poll pod namespace)) as [rc' out' err'|cls msg].
      2:{ eexists. eexists. rewrite <- app_assoc. split; [reflexivity|].
          simpl. split; [lia|discriminate]. }
      cbv beta iota. cbn [stdout]. unfold ret at 1.
      destruct (String.eqb out' "true").
      * eexists. eexists. rewrite <- app_assoc. split; [reflexivity|].
        simpl. split; intros; lia.
      * unfold bind at 1, sleep at 1.
        match goal with |- context [wait_ready _ _ _ _ ?h'] =>
          destruct (IH h') as (r & ev & Ew & Hle & Hs) end.
        rewrite Ew. exists r. eexists. rewrite <- !app_assoc.
        split; [reflexivity|]. simpl. split; [lia|].
        intros H. apply Hs in H. lia.
    + unfold ret at 1. unfold bind at 1, sleep at 1.
      match goal with |- context [wait_ready _ _ _ _ ?h'] =>
        destruct (IH h') as (r & ev & Ew & Hle & Hs) end.
      rewrite Ew. exists r. eexists. rewrite <- !app_assoc.
      split; [reflexivity|]. simpl. split; [lia|].
      intros H. apply Hs in H. lia.
Qed.

Lemma deploy_success_sleeps node_name h :
  exists r ev,
    deploy_debug_pod env namespace console node_name h = (r, (h ++ ev)%list)
    /\ forall pod, r = Ok (true, pod) -> seconds_slept ev <= 59.
Proof.
  unfold deploy_debug_pod, try_except.
  unfold bind at 1. rewrite run_eq.
  destruct (env h _) as [rc0 o0 e0|c0 m0].
  2:{ eexists. eexists. split; [reflexivity|]. intros; simpl; lia. }
  cbv beta iota. cbn [returncode].
  destruct (rc0 =? 0)%nat.
  { eexists. eexists. split; [reflexivity|]. intros; simpl; lia. }
  unfold bind at 1. rewrite run_eq.
  destruct (env _ (TempYaml _)) as [rc1 file e1|c1 m1].
  2:{ eexists. eexists. rewrite <- !app_assoc. split; [reflexivity|].
      intros; simpl; lia. }
  cbv beta iota. cbn [stdout].
  unfold bind at 1. rewrite run_eq.
  destruct (env _ (KubectlApply _ _)) as [rc2 o2 e2|c2 m2].
  2:{ eexists. eexists. rewrite <- !app_assoc. split; [reflexivity|].
      intros; simpl; lia. }
  cbv beta iota.
  unfold bind at 1. rewrite run_eq.
  destruct (env _ (Unlink _)) as [rc3 o3 e3|c3 m3].
  2:{ eexists. eexists. rewrite <- !app_assoc. split; [reflexivity|].
      intros; simpl; lia. }
  cbv beta iota. cbn [returncode].
  destruct (negb (rc2 =? 0)%nat).
  { eexists. eexists. rewrite <- !app_assoc. split; [reflexivity|].
    intros; simpl; lia. }
  unfold bind at 1, print. destruct (console Hourglass); cbv beta iota.
  2:{ cbn [is_Exception]. eexists. eexists. rewrite <- !app_assoc.
      split; [reflexivity|]. intros pod H; discriminate H. }
  unfold bind at 1.
  match goal with |- context [wait_ready _ _ _ _ ?h'] =>
    destruct (wait_ready_success
                (debug_pod_prefix ++ "-" ++ replace "." "-" node_name) 60 h')
      as (r & ev & Ew & Hle & Hs) end.
  rewrite Ew. destruct r as [[|]|e]; cbv beta iota.
  - eexists. eexists. rewrite <- !app_assoc. split; [reflexivity|].
    intros _ _. rewrite !seconds_slept_app. simpl.
    specialize (Hs eq_refl). lia.
  - unfold bind at 1. rewrite run_eq.
    destruct (env _ (KubectlDescribePod _ _)); cbv beta iota;
      eexists; eexists; rewrite <- !app_assoc;
      (split; [reflexivity|]); intros pod H; discriminate H.
  - destruct (is_Exception e);
      eexists; eexists; rewrite <- !app_assoc;
      (split; [reflexivity|]); intros pod H; discriminate H.
Qed.

(** X6.  A provisioning that succeeds has slept at most 59 seconds: the
    pod was there already, or it was found running and ready at one of
    the 60 polls, each but the first coming after a sleep of one second. *)
Theorem X6_success_comes_before_the_timeout :
  forall (node_name : string) (h : list Event) (pod : string),
    fst (deploy_debug_pod env namespace console node_name h) = Ok (true, pod) ->
    seconds_slept (added h (snd (deploy_debug_pod env namespace console node_name h)))
    <= 59.
Proof.
  intros node_name h pod.
  destruct (deploy_success_sleeps node_name h) as (r & ev & -> & H).
  simpl. rewrite added_app. apply H.
Qed.

(** *** What a worker asks of the cluster *)

Lemma each_bind_yields {A B} (p : Event -> Prop) (Q : A -> Prop)
    (m : M A) (k : A -> M B) :
  grows (Forall p) m -> yields Q m ->
  (forall a, Q a -> grows (Forall p) (k a)) ->
  grows (Forall p) (bind m k).
Proof.
  intros Hm Hy Hk h. unfold bind.
  destruct (Hm h) as (e1 & E1 & HP). specialize (Hy h).
  destruct (m h) as [[a|e] h']; simpl in *; subst h'.
  - destruct (Hk a Hy (h ++ e1)%list) as (e2 & E2 & HQ).
    exists (e1 ++ e2)%list. rewrite E2, app_assoc. split; [reflexivity|].
    apply Forall_app. auto.
  - exists e1. auto.
Qed.

Ltac harmless_step :=
  match goal with
  | |- grows (Forall _) (ret _) => apply each_ret
  | |- grows (Forall _) (run _ _) =>
      apply each_run; intros ?; split; [reflexivity|intros []]
  | |- grows (Forall _) (sleep _) =>
      apply each_sleep; split; [exact I|intros []]
  | |- grows (Forall _) (print _ _) => apply each_print
  | |- grows (Forall _) (bind _ _) => apply each_bind; [|intros ?]
  | |- grows (Forall _) (try_except _ _) =>
      apply each_try_except; [|intros ?]
  | |- grows (Forall _) (if ?b then _ else _) => destruct b
  | |- grows (Forall _) (match ?x with _ => _ end) => destruct x
  end.

Lemma wait_ready_harmless pod n :
  grows (Forall (harmless pod)) (wait_ready env namespace pod n).
Proof. induction n as [|n IH]; simpl; repeat harmless_step; exact IH. Qed.

Lemma deploy_harmless node_name :
  grows (Forall (harmless (pod_identity node_name)))
        (deploy_debug_pod env namespace console node_name).
Proof.
  unfold deploy_debug_pod.
  change (debug_pod_prefix ++ "-" ++ replace "." "-" node_name)
    with (pod_identity node_name).
  repeat (harmless_step || apply wait_ready_harmless).
Qed.

Lemma deploy_names node_name :
  yields (fun r => fst r = true -> snd r = pod_identity node_name)
         (deploy_debug_pod env namespace console node_name).
Proof.
  unfold deploy_debug_pod.
  apply yields_try_except; [|intros e; now apply yields_ret].
  apply yields_bind; intros p.
  destruct (returncode p =? 0)%nat; [now apply yields_ret|].
  apply yields_bind; intros f. apply yields_bind; intros a.
  apply yields_bind; intros _.
  destruct (negb _); [now apply yields_ret|].
  apply yields_bind; intros _.
  apply yields_bind; intros [|]; [now apply yields_ret|].
  apply yields_bind; intros d. now apply yields_ret.
Qed.

Lemma extract_harmless content pod :
  grows (Forall (harmless pod))
        (_extract_and_verify_binary env namespace content pod).
Proof.
  unfold _extract_and_verify_binary. repeat harmless_step.
Qed.

Lemma inspect_harmless node_name pod path :
  grows (Forall (harmless pod))
        (inspect_config_path env namespace node_name pod path).
Proof.
  unfold inspect_config_path.
  repeat (harmless_step || apply extract_harmless).
Qed.

Lemma inspect_paths_harmless node_name pod paths configs :
  grows (Forall (harmless pod))
        (inspect_config_paths env namespace node_name pod paths configs).
Proof.
  revert configs; induction paths as [|path paths IH]; intros configs; simpl.
  - apply each_ret.
  - apply each_bind; [apply inspect_harmless|]. intros c. apply IH.
Qed.

Lemma detection_harmless node_name pod :
  grows (Forall (harmless pod))
        (run_gpu_detection_on_node env namespace script_b64 node_name pod).
Proof. unfold run_gpu_detection_on_node. repeat harmless_step. Qed.

Lemma worker_harmless node :
  grows (Forall (harmless (pod_identity (name node))))
        (analyze_single_node env namespace script_b64 console node).
Proof.
  unfold analyze_single_node, analyze_single_node_with.
  apply each_bind; [apply each_print|]. intros _.
  eapply each_bind_yields; [apply deploy_harmless|apply deploy_names|].
  intros [success pod] Hpod. simpl in Hpod.
  destruct success; simpl; [|apply each_ret].
  rewrite (Hpod eq_refl).
  apply each_try_except; [|intros e; apply each_ret].
  apply each_bind; [apply inspect_paths_harmless|]. intros cs.
  apply each_bind; [apply detection_harmless|]. intros sy. apply each_ret.
Qed.

Lemma each_lift {A} (p : Event -> Prop) (r : result A) :
  grows (Forall p) (lift r).
Proof. intros h. exists []. simpl. rewrite app_nil_r. auto. Qed.

Lemma each_weaken {A} (p q : Event -> Prop) (m : M A) :
  (forall e, p e -> q e) -> grows (Forall p) m -> grows (Forall q) m.
Proof.
  intros Hpq. apply grows_weaken. intros ev H.
  eapply Forall_impl; [exact Hpq|exact H].
Qed.

Lemma count_keeps node_name :
  grows (Forall keeps) (_count_gpu_pods_on_node env json_loads node_name).
Proof.
  unfold _count_gpu_pods_on_node.
  apply each_try_except; [|intros e; apply each_ret].
  apply each_bind; [apply each_run; intros r []|]. intros p.
  destruct (negb _); [apply each_ret|apply each_lift].
Qed.

Lemma scan_nodes_keeps its nodes :
  grows (Forall keeps) (scan_nodes env json_loads its nodes).
Proof.
  revert nodes; induction its as [|node its IH]; intros nodes; simpl.
  - apply each_ret.
  - apply each_bind; [apply each_lift|]. intros [[[nm rs] st] gpu].
    apply each_bind; [apply count_keeps|]. intros n. apply IH.
Qed.

Lemma discovery_keeps :
  grows (Forall keeps) (get_cluster_nodes env json_loads).
Proof.
  unfold get_cluster_nodes.
  apply each_try_except; [|intros e; apply each_ret].
  apply each_bind.
  - unfold run_checked. apply each_bind; [apply each_run; intros r []|].
    intros p. destruct (returncode p =? 0)%nat; [apply each_ret|].
    apply grows_raise. constructor.
  - intros p. apply each_bind; [apply each_lift|]. intros v.
    apply each_bind; [apply each_lift|]. intros its. apply scan_nodes_keeps.
Qed.

Lemma submit_all_keeps worker nodes :
  (forall node, grows (Forall keeps) (worker node)) ->
  grows (Forall keeps) (submit_all worker nodes).
Proof.
  intros Hw. induction nodes as [|node nodes IH]; simpl.
  - apply each_ret.
  - apply each_bind.
    + intros h. destruct (Hw node h) as (ev & E & HP).
      destruct (worker node h) as [r h']. simpl in *. eauto.
    + intros fut. apply each_bind; [exact IH|]. intros futs. apply each_ret.
Qed.

Lemma collect_one_silent node outcome results h :
  snd (collect_one console node outcome results h) = h.
Proof.
  unfold collect_one, record_failure, try_except, bind, print.
  destruct outcome as [r|e].
  - destruct (console CheckMark); [reflexivity|]. cbn [is_Exception].
    destruct (console CrossMark); reflexivity.
  - destruct (is_Exception e); [|reflexivity].
    destruct (console CrossMark); reflexivity.
Qed.

Lemma collect_silent completed :
  forall interrupt results h,
    snd (collect console completed interrupt results h) = h.
Proof.
  induction completed as [|[node outcome] completed IH];
    intros interrupt results h.
  - destruct interrupt as [[|k]|]; reflexivity.
  - destruct interrupt as [[|k]|]; cbn [collect]; try reflexivity;
      unfold bind;
      pose proof (collect_one_silent node outcome results h) as Hc;
      destruct (collect_one console node outcome results h) as [[r|e] h'];
      simpl in Hc; subst h'; try apply IH; reflexivity.
Qed.

(** X7.  A worker never deletes anything: every request it makes is about
    its own node's inspection pod, and none is a deletion.  So a run with
    [cleanup] unset makes no deletion at all, and the inspection pods
    stay. *)
Theorem X7_workers_never_delete :
  (forall (node : NodeInfo) (h : list Event),
      Forall (harmless (pod_identity (name node)))
             (added h (snd (analyze_single_node env namespace script_b64 console
                              node h))))
  /\ (forall (sched : Schedule) (h : list Event),
        Forall keeps
               (added h (snd (analyze_cluster env json_loads namespace
                                script_b64 console max_workers sched false h)))).
Proof.
  split.
  - intros node h. apply grows_added, worker_harmless.
  - intros sched h. apply grows_added.
    unfold analyze_cluster, analyze_cluster_with.
    apply each_bind; [apply each_print|]. intros _.
    apply each_bind; [apply discovery_keeps|]. intros nodes.
    destruct nodes as [|n0 ns];
      (apply each_bind; [apply each_print|]; intros _); [apply each_ret|].
    intros h1. unfold try_finally, run_pool.
    destruct (max_workers <=? 0)%Z.
    { exists []. simpl. now rewrite app_nil_r. }
    unfold bind.
    destruct (submit_all_keeps (analyze_single_node env namespace script_b64 console)
                (n0 :: ns)
                (fun node =>
                   each_weaken _ keeps _
                     (fun e (H : harmless _ e) => proj2 H)
                     (worker_harmless node)) h1)
      as (ev & E & HP).
    destruct (submit_all _ (n0 :: ns) h1) as [[futs|e] h2];
      simpl in E; subst h2; simpl.
    + pose proof (collect_silent
                    (as_completed futs (completion sched))
                    (interrupt sched) [] (h1 ++ ev)%list) as Hc.
      destruct (collect _ _ _ _) as [r h3]. simpl in Hc. subst h3.
      exists ev. auto.
    + exists ev. auto.
Qed.

(** X8.  Once the inspection pod is provisioned, the worker's outcome
    never carries an execution error: it says the pod was deployed, holds
    the five configuration records and the probe's text (which may be the
    note that the probe timed out or failed). *)
Theorem X8_outcome_after_provisioning :
  forall (node : NodeInfo) (h h1 : list Event) (pod : string),
    console Magnifier = true ->
    deploy_debug_pod env namespace console (name node) h
    = (Ok (true, pod), h1) ->
    exists configs symptoms,
      fst (analyze_single_node env namespace script_b64 console node h)
      = Ok {| node_name := name node;
              containerd_configs := configs;
              gpu_failure_symptoms := Some symptoms;
              debug_pod_deployed := true;
              execution_error := None |}
      /\ map config_path configs = remote_config_paths.
Proof.
  intros node h h1 pod HM E.
  unfold analyze_single_node, analyze_single_node_with, bind at 1.
  rewrite (print_ok _ _ _ HM). cbv beta iota. unfold bind at 1.
  rewrite E. cbv beta iota. cbn [negb]. unfold try_except, bind at 1.
  destruct (inspect_paths_always (name node) pod remote_config_paths [] h1)
    as (out & Ho & fresh & -> & Hm & _ & _).
  unfold get_containerd_config_from_node.
  destruct (inspect_config_paths env namespace (name node) pod
              remote_config_paths [] h1) as [r h2].
  simpl in Ho. subst r. cbv beta iota. unfold bind at 1.
  destruct (Proofs.detection_returns env namespace script_b64
              (name node) pod h2) as [sy Hs].
  destruct (run_gpu_detection_on_node env namespace script_b64
              (name node) pod h2) as [r h3].
  simpl in Hs. subst r. cbv beta iota.
  exists fresh, sy. split; [reflexivity|exact Hm].
Qed.

(** *** Discovery *)

Lemma rbind_ok {A B} (r : result A) (k : A -> result B) b :
  rbind r k = Ok b -> exists a, r = Ok a /\ k a = Ok b.
Proof. destruct r as [a|e]; simpl; [eauto|discriminate]. Qed.

Lemma node_status_values conditions s :
  node_status conditions = Ok s ->
  s = "Unknown" \/ s = "Ready" \/ s = "NotReady".
Proof.
  induction conditions as [|c cs IH]; simpl; intros H.
  - injection H as <-. auto.
  - apply rbind_ok in H as (ty & _ & H).
    destruct (eq_str ty "Ready"); [|now apply IH].
    apply rbind_ok in H as (st & _ & H).
    injection H as <-. destruct (eq_str st "True"); auto.
Qed.

Lemma count_gpu_pods_bounds pods :
  forall n m, count_gpu_pods pods n = Ok m ->
              n <= m /\ m <= n + List.length pods.
Proof.
  induction pods as [|pod pods IH]; intros n m H; simpl in *.
  - injection H as <-. lia.
  - apply rbind_ok in H as (spec & _ & H).
    apply rbind_ok in H as (cs & _ & H).
    apply rbind_ok in H as (l & _ & H).
    apply rbind_ok in H as (found & _ & H).
    apply IH in H. destruct found; lia.
Qed.

Lemma count_spec :
  forall (node_name : string) (h : list Event),
    let c := KubectlGetPodsOnNode node_name in
    exists n,
      _count_gpu_pods_on_node env json_loads node_name h
      = (Ok n, (h ++ [Ran c (env h c)])%list)
      /\ match env h c with
         | Completed 0 out _ =>
             match json_loads out with
             | Some data =>
                 forall pods, listed data = Ok pods -> n <= List.length pods
             | None => n = 0
             end
         | _ => n = 0
         end.
Proof.
  intros node_name h c.
  unfold _count_gpu_pods_on_node, try_except, bind. rewrite run_eq.
  fold c. destruct (env h c) as [[|rc] out err|cls msg]; simpl;
    try (eexists; split; [reflexivity|reflexivity]).
  unfold lift, loads. destruct (json_loads out) as [data|]; simpl;
    [|eexists; split; reflexivity].
  unfold listed.
  pose proof (Proofs.mild_get data "items" empty_list) as Mg.
  destruct (get data "items" empty_list) as [v|e]; simpl in *.
  2:{ rewrite Mg. eexists. split; [reflexivity|].
      intros pods H; discriminate H. }
  pose proof (Proofs.mild_iterate v) as Mi.
  destruct (iterate v) as [pods|e]; simpl in *.
  2:{ rewrite Mi. eexists. split; [reflexivity|].
      intros pods H; discriminate H. }
  destruct (count_gpu_pods pods 0) as [m|e] eqn:Ec.
  - eexists. split; [reflexivity|]. intros pods' H. injection H as <-.
    apply count_gpu_pods_bounds in Ec. lia.
  - pose proof (Proofs.mild_count_gpu_pods pods 0) as Hm.
    rewrite Ec in Hm. simpl in Hm. rewrite Hm.
    eexists. split; [reflexivity|]. intros; lia.
Qed.

(** X9.  Counting the GPU pods of a node makes one request and never
    raises.  The count is 0 when the request raises, when [kubectl] exits
    with an error and when its output is not JSON, and it never exceeds
    the number of pods listed. *)
Theorem X9_gpu_pod_count_is_bounded :
  forall (node_name : string) (h : list Event),
    let c := KubectlGetPodsOnNode node_name in
    exists n,
      _count_gpu_pods_on_node env json_loads node_name h
      = (Ok n, (h ++ [Ran c (env h c)])%list)
      /\ match env h c with
         | Completed 0 out _ =>
             match json_loads out with
             | Some data =>
                 forall pods, listed data = Ok pods -> n <= List.length pods
             | None => n = 0
             end
         | _ => n = 0
         end.
Proof. exact count_spec. Qed.

Lemma scan_nodes_spec its :
  forall acc h, exists r ev,
    scan_nodes env json_loads its acc h = (r, (h ++ ev)%list)
    /\ forall out,
         r = Ok out ->
         exists fresh,
           out = (acc ++ fresh)%list
           /\ List.length fresh = List.length its
           /\ Forall well_formed_node fresh
           /\ cmds ev = map KubectlGetPodsOnNode (map name fresh).
Proof.
  induction its as [|node its IH]; intros acc h.
  - exists (Ok acc), []. simpl. rewrite app_nil_r. split; [reflexivity|].
    intros out H. injection H as <-. exists []. rewrite app_nil_r.
    repeat split. constructor.
  - cbn [scan_nodes]. unfold bind at 1, lift at 1.
    match goal with |- context [match ?parse with Ok _ => _ | Raise _ => _ end] =>
      destruct parse as [[[[nm rs] st] gpu]|e] eqn:Ep end.
    2:{ exists (Raise e), []. rewrite app_nil_r. split; [reflexivity|].
        intros out H. discriminate H. }
    cbv beta iota. unfold bind at 1.
    destruct (count_spec nm h) as (n & Ec & _). rewrite Ec. cbv beta iota.
    match goal with |- context [scan_nodes _ _ its ?acc' ?h'] =>
      destruct (IH acc' h') as (r & ev & E & Hout) end.
    rewrite E. exists r. eexists. rewrite <- app_assoc.
    split; [reflexivity|].
    intros out Hr. destruct (Hout out Hr) as (fresh & -> & Hl & Hw & Hc).
    eexists (_ :: fresh). rewrite <- app_assoc. split; [reflexivity|].
    split; [simpl; now rewrite Hl|]. split.
    + constructor; [|exact Hw]. split; simpl.
      * destruct rs; discriminate.
      * repeat (apply rbind_ok in Ep as (? & ? & Ep)).
        injection Ep as <- <- <- <-.
        match goal with H : node_status _ = Ok _ |- _ =>
          now apply node_status_values in H end.
    + rewrite cmds_app. simpl. now rewrite Hc.
Qed.

Lemma discovery_spec h :
  exists nodes ev,
    get_cluster_nodes env json_loads h = (Ok nodes, (h ++ ev)%list)
    /\ Forall well_formed_node nodes
    /\ (nodes <> [] ->
        cmds ev
        = KubectlGetNodes :: map KubectlGetPodsOnNode (map name nodes)
        /\ exists out err data its,
             env h KubectlGetNodes = Completed 0 out err
             /\ json_loads out = Some data
             /\ rbind (getitem data "items") iterate = Ok its
             /\ List.length nodes = List.length its).
Proof.
  unfold get_cluster_nodes, try_except, bind at 1, run_checked, bind at 1.
  rewrite run_eq.
  destruct (env h KubectlGetNodes) as [[|rc] out err|cls msg];
    cbv beta iota; cbn [returncode Nat.eqb stdout];
    try (exists [], [Ran KubectlGetNodes (Completed (S rc) out err)];
         split; [reflexivity|]; split; [constructor|]; intros H; now elim H);
    try (exists [], [Ran KubectlGetNodes (Fails cls msg)];
         split; [reflexivity|]; split; [constructor|]; intros H; now elim H).
  unfold ret at 1. unfold bind at 1, lift at 1, loads. cbn [stdout].
  destruct (json_loads out) as [data|] eqn:Ej.
  2:{ exists [], [Ran KubectlGetNodes (Completed 0 out err)].
      split; [reflexivity|]. split; [constructor|]. intros H; now elim H. }
  cbv beta iota. unfold bind at 1, lift at 1.
  pose proof (Proofs.mild_rbind (getitem data "items") iterate
                (Proofs.mild_getitem data "items") Proofs.mild_iterate)
    as Mi.
  change (v <~ getitem data "items";; iterate v)
    with (rbind (getitem data "items") iterate).
  destruct (rbind (getitem data "items") iterate) as [its|e] eqn:Ei.
  2:{ simpl in Mi. rewrite Mi.
      exists [], [Ran KubectlGetNodes (Completed 0 out err)].
      split; [reflexivity|]. split; [constructor|]. intros H; now elim H. }
  cbv beta iota.
  destruct (scan_nodes_spec its []
              (h ++ [Ran KubectlGetNodes (Completed 0 out err)])%list)
    as (r & ev & E & Hout).
  rewrite E. destruct r as [nodes|e].
  - destruct (Hout nodes eq_refl) as (fresh & -> & Hl & Hw & Hc).
    simpl. exists fresh. eexists. rewrite <- app_assoc.
    split; [reflexivity|]. split; [exact Hw|]. intros _.
    split; [simpl; now rewrite Hc|].
    exists out, err, data, its. auto.
  - pose proof (Proofs.scan_nodes_tame env json_loads its []
                  (h ++ [Ran KubectlGetNodes (Completed 0 out err)])%list)
      as Ht.
    rewrite E in Ht. simpl in Ht. rewrite Ht.
    exists []. eexists. rewrite <- app_assoc. split; [reflexivity|].
    split; [constructor|]. intros H; now elim H.
Qed.

(** X10.  Every node discovery returns has at least one role ([worker]
    when no role label is set) and a status that is [Ready], [NotReady]
    or [Unknown]. *)
Theorem X10_discovered_nodes_are_well_formed :
  forall h : list Event,
    exists nodes,
      fst (get_cluster_nodes env json_loads h) = Ok nodes
      /\ Forall well_formed_node nodes.
Proof.
  intros h. destruct (discovery_spec h) as (nodes & ev & E & Hw & _).
  exists nodes. now rewrite E.
Qed.

(** X11.  Discovery is all or nothing.  When it returns any node, the
    listing succeeded and every item listed became a node, in order, with
    one request for the GPU pods of each after the listing itself: a
    single item that cannot be read (no name, labels that are no mapping)
    empties the whole result, for the failure is caught for the listing
    as a whole. *)
Theorem X11_discovery_is_all_or_nothing :
  forall h : list Event,
    exists nodes ev,
      get_cluster_nodes env json_loads h = (Ok nodes, (h ++ ev)%list)
      /\ (nodes <> [] ->
          cmds ev
          = KubectlGetNodes :: map KubectlGetPodsOnNode (map name nodes)
          /\ exists out err data its,
               env h KubectlGetNodes = Completed 0 out err
               /\ json_loads out = Some data
               /\ rbind (getitem data "items") iterate = Ok its
               /\ List.length nodes = List.length its).
Proof.
  intros h. destruct (discovery_spec h) as (nodes & ev & E & _ & H).
  now exists nodes, ev.
Qed.

End Code.

(** *** The figures and the recommendations of the report *)

Import Report.

Lemma tally_spec rs s :
  let t := tally rs s in
  total_nodes t = total_nodes s
  /\ nodes_with_errors t = nodes_with_errors s + count failed rs
  /\ nodes_with_nvidia_runtime t
     = nodes_with_nvidia_runtime s
       + count (fun r => negb (failed r)
                         && existsb nvidia_runtime_configured
                              (containerd_configs r)) rs
  /\ nodes_with_configs t
     = nodes_with_configs s
       + count (fun r => negb (failed r)
                         && existsb exists_ (containerd_configs r)) rs
  /\ nodes_with_missing_binary t
     = nodes_with_missing_binary s
       + count (fun r => negb (failed r)
                         && (existsb nvidia_runtime_configured
                               (containerd_configs r)
                             && existsb missing_binary
                                  (containerd_configs r))) rs.
Proof.
  revert s. unfold count.
  induction rs as [|r rs IH]; intros s; cbn [tally].
  - cbn. repeat split; lia.
  - unfold failed in *. cbn [filter].
    destruct (truthy_opt (execution_error r)) eqn:E; cbn [negb andb].
    + destruct (IH {| total_nodes := total_nodes s;
             nodes_with_nvidia_runtime := nodes_with_nvidia_runtime s;
             nodes_with_errors := nodes_with_errors s + 1;
             nodes_with_configs := nodes_with_configs s;
             nodes_with_missing_binary := nodes_with_missing_binary s |})
        as (A & B & C & D & F).
      cbn [total_nodes nodes_with_nvidia_runtime nodes_with_errors
           nodes_with_configs nodes_with_missing_binary] in *.
      cbn [List.length]. repeat split; lia.
    + match goal with |- context [tally rs ?s'] =>
        destruct (IH s') as (A & B & C & D & F) end.
      cbn [total_nodes nodes_with_nvidia_runtime nodes_with_errors
           nodes_with_configs nodes_with_missing_binary] in *.
      destruct (existsb nvidia_runtime_configured (containerd_configs r));
        destruct (existsb exists_ (containerd_configs r));
        destruct (existsb missing_binary (containerd_configs r));
        cbn [andb List.length] in *; repeat split; lia.
Qed.

Lemma count_le {A} (p q : A -> bool) l :
  (forall a, p a = true -> q a = true) -> count p l <= count q l.
Proof.
  intros H. unfold count. induction l as [|a l IH]; cbn; [lia|].
  destruct (p a) eqn:P.
  - rewrite (H a P). cbn. lia.
  - destruct (q a); cbn; lia.
Qed.

Lemma count_split {A} (p : A -> bool) l :
  count p l + count (fun a => negb (p a)) l = List.length l.
Proof.
  unfold count. induction l as [|a l IH]; cbn; [lia|].
  destruct (p a); cbn; lia.
Qed.

Lemma count_ext {A} (p q : A -> bool) l :
  (forall a, In a l -> p a = q a) -> count p l = count q l.
Proof.
  unfold count. intros H. induction l as [|a l IH]; cbn; [lia|].
  rewrite (H a (or_introl eq_refl)).
  destruct (q a); cbn; rewrite IH; auto; intros; apply H; now right.
Qed.

(** X12.  The figures of the node-level summary of [print_cluster_report]:
    the total is the size of the mapping, the error figure counts the
    nodes with an execution error, the two other figures count nodes
    without one, so errors plus configured nodes, or errors plus nodes with
    a config file, never exceed the total, and the missing-binary figure
    never exceeds the NVIDIA-runtime figure. *)
Theorem X12_summary_figures_are_consistent results :
  let s := summary results in
  let rs := map snd results in
  total_nodes s = List.length results
  /\ nodes_with_errors s = count failed rs
  /\ nodes_with_nvidia_runtime s
     = count (fun r => negb (failed r)
                       && existsb nvidia_runtime_configured
                            (containerd_configs r)) rs
  /\ nodes_with_configs s
     = count (fun r => negb (failed r)
                       && existsb exists_ (containerd_configs r)) rs
  /\ nodes_with_errors s + nodes_with_nvidia_runtime s <= total_nodes s
  /\ nodes_with_errors s + nodes_with_configs s <= total_nodes s
  /\ nodes_with_missing_binary s <= nodes_with_nvidia_runtime s.
Proof.
  cbv zeta. unfold summary.
  match goal with |- context [tally _ ?s'] =>
    destruct (tally_spec (map snd results) s') as (A & B & C & D & F) end.
  cbn [total_nodes nodes_with_nvidia_runtime nodes_with_errors
       nodes_with_configs nodes_with_missing_binary] in *.
  rewrite A, B, C, D, F. cbn [Nat.add].
  pose proof (count_split failed (map snd results)) as S.
  rewrite length_map in S.
  repeat split.
  - pose proof (count_le
      (fun r => negb (failed r)
                && existsb nvidia_runtime_configured (containerd_configs r))
      (fun r => negb (failed r)) (map snd results)) as L.
    assert (forall a, negb (failed a)
                && existsb nvidia_runtime_configured (containerd_configs a) = true -> negb (failed a) = true) as L'
      by (intros a H; now apply andb_true_iff in H).
    specialize (L L'). lia.
  - pose proof (count_le
      (fun r => negb (failed r)
                && existsb exists_ (containerd_configs r))
      (fun r => negb (failed r)) (map snd results)) as L.
    assert (forall a, negb (failed a)
                && existsb exists_ (containerd_configs a) = true -> negb (failed a) = true) as L'
      by (intros a H; now apply andb_true_iff in H).
    specialize (L L'). lia.
  - apply count_le. intros a H.
    apply andb_true_iff in H as [H1 H2]. apply andb_true_iff in H2 as [H2 _].
    now rewrite H1, H2.
Qed.

Lemma entries_flat_map n cs :
  flat_map (fun config =>
              if missing_binary config
              then [{| mb_node := n;
                       mb_binary_path := binary_name config;
                       mb_config_path := config_path config |}]
              else []) cs
  = map (fun c => {| mb_node := n;
                     mb_binary_path := binary_name c;
                     mb_config_path := config_path c |})
        (filter missing_binary cs).
Proof.
  induction cs as [|c cs IH]; cbn; [reflexivity|].
  destruct (missing_binary c); cbn; now rewrite IH.
Qed.

Lemma fill_buckets_spec results b :
  fill_buckets results b
  = {| unconfigured_nodes :=
         unconfigured_nodes b ++ keys (filter is_unconfigured results);
       error_nodes := error_nodes b ++ keys (filter is_failed results);
       missing_binary_nodes :=
         missing_binary_nodes b
         ++ flat_map (fun kv => entries_of (fst kv) (snd kv))
                     (filter is_configured results) |}%list.
Proof.
  revert b. induction results as [|[n r] results IH]; intros b.
  - cbn. rewrite !app_nil_r. now destruct b.
  - cbn [fill_buckets filter]. unfold is_unconfigured, is_failed, is_configured,
      failed. cbn [fst snd].
    destruct (truthy_opt (execution_error r)) eqn:E; cbn [negb andb].
    + rewrite IH. cbn [unconfigured_nodes error_nodes missing_binary_nodes].
      unfold keys. cbn [map fst]. rewrite <- app_assoc. reflexivity.
    + destruct (has_nvidia_runtime r) eqn:N; cbn [negb]; rewrite IH;
        cbn [unconfigured_nodes error_nodes missing_binary_nodes].
      * cbn [flat_map fst snd]. rewrite entries_flat_map.
        rewrite <- app_assoc. reflexivity.
      * unfold keys. cbn [map fst]. rewrite <- app_assoc. reflexivity.
Qed.

Lemma three_way (results : dict NodeGPUStatus) :
  Permutation (keys results)
    (keys (filter is_failed results)
     ++ keys (filter is_unconfigured results)
     ++ keys (filter is_configured results))%list.
Proof.
  induction results as [|[n r] results IH]; [constructor|].
  unfold is_failed, is_unconfigured, is_configured in *.
  cbn [filter keys map fst snd]. fold (keys results).
  destruct (failed r); cbn [negb andb].
  - cbn. now constructor.
  - destruct (has_nvidia_runtime r); cbn [negb].
    + cbn [keys map fst]. 
      rewrite IH. unfold keys. 
      rewrite !app_assoc. apply Permutation_cons_app. reflexivity.
    + cbn [keys map fst]. rewrite IH. unfold keys.
      apply Permutation_cons_app. reflexivity.
Qed.

(** X13.  The pass that fills the recommendation buckets keeps the order
    of the mapping inside each bucket, puts every node either with the
    errors, or with the unconfigured nodes, or with the configured ones (a
    node name is in exactly as many buckets as it has entries in the
    mapping), and lists missing binaries for configured nodes only. *)
Theorem X13_every_node_goes_to_one_bucket (results : dict NodeGPUStatus) :
  let b := fill_buckets results no_buckets in
  error_nodes b = keys (filter is_failed results)
  /\ unconfigured_nodes b = keys (filter is_unconfigured results)
  /\ missing_binary_nodes b
     = flat_map (fun kv => entries_of (fst kv) (snd kv))
                (filter is_configured results)
  /\ Permutation (keys results)
       (error_nodes b ++ unconfigured_nodes b
        ++ keys (filter is_configured results))%list
  /\ incl (map mb_node (missing_binary_nodes b))
          (keys (filter is_configured results)).
Proof.
  cbv zeta. rewrite fill_buckets_spec.
  cbn [unconfigured_nodes error_nodes missing_binary_nodes no_buckets].
  cbn [List.app]. repeat split.
  - apply three_way.
  - intros n H. apply in_map_iff in H as (m & <- & H).
    apply in_flat_map in H as ([n' r] & Hin & H).
    unfold entries_of in H. cbn [fst snd] in H.
    apply in_map_iff in H as (c & <- & _). cbn [mb_node].
    unfold keys. apply in_map_iff. now exists (n', r).
Qed.

Lemma sound_has_nvidia r :
  sound r ->
  has_nvidia_runtime r
  = existsb nvidia_runtime_configured (containerd_configs r).
Proof.
  unfold sound, has_nvidia_runtime.
  induction (containerd_configs r) as [|c cs IH]; intros H; [reflexivity|].
  inversion H as [|? ? Hc Hcs]; subst. cbn [filter existsb].
  destruct Hc as (Hconf & _).
  destruct (nvidia_runtime_configured c) eqn:N.
  - destruct (Hconf eq_refl) as (-> & _). cbn. now rewrite N.
  - destruct (exists_ c); cbn [existsb]; rewrite ?N; now apply IH.
Qed.

Lemma sound_has_config r :
  sound r ->
  existsb nvidia_runtime_configured (containerd_configs r) = true ->
  existsb exists_ (containerd_configs r) = true.
Proof.
  unfold sound. intros H E. apply existsb_exists in E as (c & Hin & N).
  apply existsb_exists. exists c. split; [exact Hin|].
  rewrite Forall_forall in H. destruct (H c Hin) as (Hconf & _).
  now destruct (Hconf N).
Qed.

Lemma count_map {A B} (f : A -> B) (p : B -> bool) l :
  count p (map f l) = count (fun a => p (f a)) l.
Proof.
  unfold count. induction l as [|a l IH]; cbn; [reflexivity|].
  destruct (p (f a)); cbn; now rewrite IH.
Qed.

Lemma count_zero {A} (p : A -> bool) l :
  count p l = 0 <-> forall a, In a l -> p a = false.
Proof.
  unfold count. induction l as [|a l IH]; cbn.
  - split; [intros _ a []|reflexivity].
  - destruct (p a) eqn:P; cbn.
    + split; [discriminate|]. intros H. specialize (H a (or_introl eq_refl)).
      congruence.
    + rewrite IH. split.
      * intros H b [<- | Hb]; auto.
      * intros H b Hb. apply H. now right.
Qed.

Lemma flat_map_nil {A B} (f : A -> list B) l :
  flat_map f l = [] <-> forall a, In a l -> f a = [].
Proof.
  induction l as [|a l IH]; cbn.
  - split; [intros _ a []|reflexivity].
  - split.
    + intros H. apply app_eq_nil in H as [H1 H2].
      intros b [<- | Hb]; [exact H1|]. now apply IH.
    + intros H. rewrite (H a (or_introl eq_refl)). cbn.
      apply IH. intros b Hb. apply H. now right.
Qed.

Lemma filter_nil_existsb {A} (p : A -> bool) l :
  filter p l = [] <-> existsb p l = false.
Proof.
  induction l as [|a l IH]; cbn; [tauto|].
  destruct (p a); cbn; [split; discriminate|exact IH].
Qed.

(** X14.  On records as the remote path makes them ([coherent]) the
    summary and the recommendations agree: the error figure is the size of
    the error group, the unconfigured group, the errors and the
    NVIDIA-runtime figure add up to the total, a node counted with an
    NVIDIA runtime is counted with a config file, and the missing-binary
    group is empty exactly when the missing-binary figure is zero. *)
Theorem X14_summary_and_groups_agree (results : dict NodeGPUStatus) :
  Forall sound (map snd results) ->
  let s := summary results in
  let b := fill_buckets results no_buckets in
  List.length (error_nodes b) = nodes_with_errors s
  /\ List.length (unconfigured_nodes b) + nodes_with_errors s
     + nodes_with_nvidia_runtime s = total_nodes s
  /\ nodes_with_nvidia_runtime s <= nodes_with_configs s
  /\ (missing_binary_nodes b = [] <-> nodes_with_missing_binary s = 0).
Proof.
  intros Hs. cbv zeta. rewrite fill_buckets_spec.
  cbn [unconfigured_nodes error_nodes missing_binary_nodes no_buckets
       List.app].
  unfold summary.
  match goal with |- context [tally _ ?s'] =>
    destruct (tally_spec (map snd results) s') as (A & B & C & D & F) end.
  cbn [total_nodes nodes_with_nvidia_runtime nodes_with_errors
       nodes_with_configs nodes_with_missing_binary] in *.
  rewrite A, B, C, D, F. cbn [Nat.add]. clear A B C D F.
  rewrite !count_map. unfold keys. rewrite !length_map.
  fold (count is_failed results). fold (count is_unconfigured results).
  assert (Hc : count (fun a => negb (failed (snd a))
                 && existsb nvidia_runtime_configured
                      (containerd_configs (snd a))) results
               = count is_configured results).
  { apply count_ext. intros [n r] Hin. unfold is_configured. cbn [snd].
    rewrite sound_has_nvidia; [reflexivity|].
    rewrite Forall_forall in Hs. apply Hs. apply in_map_iff.
    now exists (n, r). }
  split; [reflexivity|]. split; [|split].
  - rewrite Hc. pose proof (three_way results) as P.
    apply Permutation_length in P. rewrite !length_app in P.
    unfold keys in P. rewrite !length_map in P.
    unfold count, is_failed in *. lia.
  - clear Hc. unfold count.
    induction results as [|[n r] results IH]; cbn [filter snd]; [lia|].
    inversion Hs as [|? ? Hr Hrs]; subst. specialize (IH Hrs).
    cbn [snd] in Hr.
    destruct (failed r); cbn [negb andb]; [exact IH|].
    destruct (existsb nvidia_runtime_configured (containerd_configs r)) eqn:N.
    + rewrite (sound_has_config r Hr N). cbn. lia.
    + destruct (existsb exists_ (containerd_configs r)); cbn; lia.
  - rewrite flat_map_nil, count_zero. split.
    + intros H [n r] Hin. cbn [snd].
      destruct (failed r) eqn:Fr; [reflexivity|]. cbn [negb andb].
      destruct (existsb nvidia_runtime_configured (containerd_configs r))
        eqn:N; [|reflexivity]. cbn [andb].
      assert (Hr : sound r).
      { rewrite Forall_forall in Hs. apply Hs. apply in_map_iff.
        now exists (n, r). }
      assert (Hin' : In (n, r) (filter is_configured results)).
      { apply filter_In. split; [exact Hin|]. unfold is_configured.
        cbn [snd]. rewrite Fr, (sound_has_nvidia r Hr), N. reflexivity. }
      specialize (H _ Hin'). unfold entries_of in H. cbn [fst snd] in H.
      apply map_eq_nil in H. now apply filter_nil_existsb.
    + intros H [n r] Hin. apply filter_In in Hin as [Hin Hc'].
      specialize (H _ Hin). cbn [snd] in H. unfold is_configured in Hc'.
      cbn [snd] in Hc'. apply andb_true_iff in Hc' as [Fr Hn].
      assert (Hr : sound r).
      { rewrite Forall_forall in Hs. apply Hs. apply in_map_iff.
        now exists (n, r). }
      rewrite (sound_has_nvidia r Hr) in Hn. rewrite Fr, Hn in H.
      cbn [andb] in H. unfold entries_of. cbn [fst snd].
      apply filter_nil_existsb in H. now rewrite H.
Qed.

Lemma group_in {A} (mk : list A -> Recommendation) (bucket : list A)
    (x : Recommendation) :
  In x (match bucket with [] => [] | a :: t => [mk (a :: t)] end)
  <-> x = mk bucket /\ bucket <> [].
Proof.
  destruct bucket; cbn.
  - split; [tauto|]. now intros [_ H].
  - split.
    + intros [<- | []]. split; [reflexivity|discriminate].
    + intros [-> _]. now left.
Qed.

Lemma recommendation_in results found valid x :
  let b := fill_buckets results no_buckets in
  In x (recommendations results found valid)
  <-> (x = MissingBinaryGroup (missing_binary_nodes b)
       /\ missing_binary_nodes b <> [])
      \/ (x = UnconfiguredGroup (unconfigured_nodes b)
          /\ unconfigured_nodes b <> [])
      \/ (x = ErrorGroup (error_nodes b) /\ error_nodes b <> [])
      \/ x = VerifyToolkit
      \/ (x = InstallChart /\ found = false)
      \/ (x = FixChart /\ found = true /\ valid = false)
      \/ x = RestartContainerd.
Proof.
  cbv zeta. unfold recommendations. cbv zeta. fold no_buckets.
  rewrite !in_app_iff, (group_in MissingBinaryGroup),
    (group_in UnconfiguredGroup), (group_in ErrorGroup).
  cbn [In]. rewrite in_app_iff. cbn [In].
  assert (In x (if negb found then [InstallChart]
                else if negb valid then [FixChart] else [])
          <-> (x = InstallChart /\ found = false)
              \/ (x = FixChart /\ found = true /\ valid = false)) as ->.
  { destruct found, valid; cbn; intuition congruence. }
  intuition congruence.
Qed.

(** X15.  The recommendations of the report come in their fixed order
    of priority; the toolkit check and the containerd restart are always
    advised; a group of nodes is printed exactly when its bucket is not
    empty, and then holds the whole bucket; installing the chart is
    advised exactly when no release was found, fixing it exactly when a
    release was found with an invalid toolkit configuration. *)
Theorem X15_recommendations_follow_the_buckets (results : dict NodeGPUStatus)
    (found valid : bool) :
  let recs := recommendations results found valid in
  let b := fill_buckets results no_buckets in
  Sorted.StronglySorted le (map rank recs)
  /\ In VerifyToolkit recs /\ In RestartContainerd recs
  /\ (forall l, In (MissingBinaryGroup l) recs
                <-> l = missing_binary_nodes b /\ l <> [])
  /\ (forall l, In (UnconfiguredGroup l) recs
                <-> l = unconfigured_nodes b /\ l <> [])
  /\ (forall l, In (ErrorGroup l) recs
                <-> l = error_nodes b /\ l <> [])
  /\ (In InstallChart recs <-> found = false)
  /\ (In FixChart recs <-> found = true /\ valid = false).
Proof.
  cbv zeta. split; [apply Proofs.recommendations_by_priority|].
  repeat match goal with |- _ /\ _ => split end; try intros l;
    rewrite recommendation_in; cbv zeta;
    set (b := fill_buckets results no_buckets);
    intuition (try congruence).
Qed.

(** *** The check of the toolkit section of the release *)

Import Toolkit.

Section Release.
Variable py_str : JSON -> string.

Lemma eq_str_true v s : eq_str v s = true <-> v = JStr s.
Proof.
  destruct v; cbn; try (split; [discriminate|intros H; discriminate]).
  rewrite String.eqb_eq. split; [now intros ->|now intros [= ->]].
Qed.

Lemma lookup_str d k s :
  eq_str (lookup d k) s = true <-> dict_get d k = Some (JStr s).
Proof.
  rewrite eq_str_true. unfold lookup.
  destruct (dict_get d k); split; congruence.
Qed.

Lemma env_found_iff env_vars re :
  env_found env_vars re = true <-> provides env_vars (fst re) (snd re).
Proof.
  unfold env_found, provides. rewrite existsb_exists. split.
  - intros ([| | | | |d] & Hin & H); try discriminate.
    apply andb_true_iff in H as [H1 H2].
    apply lookup_str in H1, H2. now exists d.
  - intros (d & Hin & H1 & H2). exists (JDict d). split; [exact Hin|].
    apply andb_true_iff. split; now apply lookup_str.
Qed.

Lemma env_messages_nil env_vars :
  env_messages env_vars = []
  <-> forall name value, In (name, value) required_env_vars ->
        provides env_vars name value.
Proof.
  unfold env_messages. split.
  - intros H name value Hin.
    assert (E : env_found env_vars (name, value) = true).
    { destruct (env_found env_vars (name, value)) eqn:E; [reflexivity|].
      exfalso. revert H.
      assert (G : forall l, In (name, value) l ->
                flat_map (fun required_env =>
                  if env_found env_vars required_env then []
                  else ["toolkit.env missing: " ++ fst required_env ++ "="
                        ++ snd required_env]) l <> []).
      { induction l as [|a l IH]; [intros []|].
        intros [-> | Hl]; cbn [flat_map].
        - rewrite E. discriminate.
        - intros H. apply app_eq_nil in H as [_ H]. now apply IH. }
      now apply G. }
    now apply env_found_iff in E.
  - intros H.
    induction required_env_vars as [|[n v] l IH]; [reflexivity|].
    cbn [flat_map].
    assert (E : env_found env_vars (n, v) = true).
    { apply env_found_iff. apply H. now left. }
    rewrite E. cbn [List.app]. apply IH. intros a b Hab. apply H. now right.
Qed.

Lemma field_messages_nil d :
  field_messages py_str required_toolkit_config d = []
  <-> forall field value, In (field, value) required_strings ->
        dict_get d field = Some (JStr value).
Proof.
  unfold required_toolkit_config, required_strings.
  cbn [field_messages String.eqb Ascii.eqb Bool.eqb differs].
  split.
  - intros H field value Hin.
    repeat match type of H with
    | (if negb (eq_str ?a ?s) then _ else _) = [] =>
        let E := fresh "E" in
        destruct (eq_str a s) eqn:E; cbn [negb] in H; [|discriminate H];
        apply lookup_str in E
    end.
    cbn [In] in Hin.
    repeat destruct Hin as [Hin | Hin]; try contradiction;
      injection Hin as <- <-; assumption.
  - intros H.
    repeat match goal with
    | |- (if negb (eq_str (lookup d ?f) ?s) then _ else _) = [] =>
        let E := fresh "E" in
        assert (E : eq_str (lookup d f) s = true)
          by (apply lookup_str; apply H; cbn; tauto);
        rewrite E; cbn [negb]
    end.
    reflexivity.
Qed.

Lemma nil_test {A} (m : list A) :
  match m with [] => true | _ :: _ => false end = true <-> m = [].
Proof. destruct m; split; congruence. Qed.

Lemma validate_dict values t :
  section_of values = Some (JDict t) ->
  _validate_toolkit_config py_str values
  = Ok (let missing :=
          ((if negb (truthy_value (lookup t "enabled"))
            then ["toolkit.enabled should be true"] else [])
           ++ field_messages py_str required_toolkit_config t
           ++ match dict_get t "env" with
              | None => env_messages []
              | Some (JList env_vars) => env_messages env_vars
              | Some _ => ["toolkit.env should be a list"]
              end)%list in
        {| toolkit_config_valid :=
             match missing with [] => true | _ => false end;
           missing_configs := missing;
           config_details := JDict t |}).
Proof.
  destruct values as [| | | | |d]; try discriminate. cbn [section_of].
  intros [= E]. unfold _validate_toolkit_config. cbn [get rbind].
  assert (G : (match dict_get d "toolkit" with
               | Some x => Ok x | None => Ok empty_dict end)
              = Ok (JDict t)).
  { destruct (dict_get d "toolkit"); now rewrite E. }
  rewrite G. cbn [rbind copy get]. unfold lookup.
  destruct (dict_get t "enabled"); reflexivity.
Qed.

Lemma validate_other values :
  (forall t, section_of values <> Some (JDict t)) ->
  exists msg,
    _validate_toolkit_config py_str values
    = Raise (Exception "AttributeError" msg).
Proof.
  intros H. unfold _validate_toolkit_config.
  destruct values as [| | | | |d]; cbn [get rbind];
    try (now eexists).
  cbn [section_of] in H.
  destruct (dict_get d "toolkit") as [x|]; cbn [rbind].
  - destruct x as [| | | | |t]; cbn [copy rbind get];
      try (now eexists).
    now destruct (H t).
  - now destruct (H []).
Qed.

(** X16.  When the toolkit section of the values is a mapping,
    [_validate_toolkit_config] returns; its details are that section; the
    verdict is valid exactly when no finding is listed, and exactly when
    the section is compliant: [enabled] is present and truthy, the five
    string settings have their required values, and [env] is a list
    holding each of the three required variables with its value. *)
Theorem X16_valid_iff_compliant values t :
  section_of values = Some (JDict t) ->
  exists v,
    _validate_toolkit_config py_str values = Ok v
    /\ config_details v = JDict t
    /\ (toolkit_config_valid v = true <-> missing_configs v = [])
    /\ (toolkit_config_valid v = true <-> compliant t).
Proof.
  intros H. rewrite (validate_dict values t H). cbv zeta.
  eexists. split; [reflexivity|].
  cbn [config_details toolkit_config_valid missing_configs].
  split; [reflexivity|].
  split; [apply nil_test|]. rewrite nil_test.
  unfold compliant. split.
  - intros E. apply app_eq_nil in E as [E1 E]. apply app_eq_nil in E as [E2 E3].
    split; [|split].
    + unfold lookup in E1. destruct (dict_get t "enabled") as [v|].
      * exists v. split; [reflexivity|].
        now destruct (truthy_value v).
      * discriminate.
    + exact (proj1 (field_messages_nil t) E2).
    + destruct (dict_get t "env") as [x|].
      * destruct x as [| | | |l|]; try discriminate.
        exists l. split; [reflexivity|]. exact (proj1 (env_messages_nil l) E3).
      * pose proof (proj1 (env_messages_nil []) E3) as E4.
        destruct (E4 _ _ (or_introl eq_refl)) as (d & [] & _).
  - intros ((v & Hv & Tv) & Hf & (l & Hl & He)).
    unfold lookup. rewrite Hv, Tv, Hl. cbn [negb List.app].
    rewrite (proj2 (field_messages_nil t) Hf). cbn [List.app].
    exact (proj2 (env_messages_nil l) He).
Qed.

(** X17.  [_validate_toolkit_config] returns exactly when the values
    are a mapping whose toolkit section (an empty mapping when the key is
    absent) is a mapping; for anything else (no values at all, a list, a
    string, a toolkit key holding a scalar or a list) it raises an
    [AttributeError], and it raises nothing else. *)
Theorem X17_validation_needs_a_mapping values :
  ((exists v, _validate_toolkit_config py_str values = Ok v)
   <-> exists t, section_of values = Some (JDict t))
  /\ (forall e,
        _validate_toolkit_config py_str values = Raise e ->
        exists msg, e = Exception "AttributeError" msg).
Proof.
  split; [split|].
  - intros (v & Hv).
    destruct (section_of values) as [[| | | | |t]|] eqn:S;
      try (now exists t);
      destruct (validate_other values) as (msg & Hm);
      try (intros t; rewrite S; discriminate); congruence.
  - intros (t & Ht).
    rewrite (validate_dict values t Ht). eexists. reflexivity.
  - intros e He.
    destruct (section_of values) as [[| | | | |t]|] eqn:S;
      try (rewrite (validate_dict values t S) in He; discriminate);
      destruct (validate_other values) as (msg & Hm);
      try (intros t; rewrite S; discriminate);
      exists msg; congruence.
Qed.
End Release.

(** *** The local node *)

Section LocalNode.
Variable env : Oracle.

Lemma inspect_local_path_raises p h :
  fst (inspect_local_path env p h) = Raise unexpected_config_valid.
Proof.
  unfold inspect_local_path, try_except, bind, run.
  destruct (env h (ReadFile p)) as [rc out err|cls msg]; cbn; [|reflexivity].
  destruct (first_binary_path _) as [b|]; cbn; [|reflexivity].
  destruct (env _ (PathExists b)) as [rc' out' err'|cls msg]; cbn; reflexivity.
Qed.

Lemma inspect_local_path_grows p h :
  exists ev, snd (inspect_local_path env p h) = (h ++ ev)%list.
Proof.
  unfold inspect_local_path, try_except, bind, run.
  destruct (env h (ReadFile p)) as [rc out err|cls msg]; cbn;
    [|now eexists].
  destruct (first_binary_path _) as [b|]; cbn; [|now eexists].
  destruct (env _ (PathExists b)) as [rc' out' err'|cls msg]; cbn;
    rewrite <- app_assoc; now eexists.
Qed.

Lemma check_local_paths_spec paths configs h :
  exists r ev,
    check_local_paths env paths configs h = (r, (h ++ ev)%list)
    /\ ((r = Ok configs /\ Forall2 absent paths ev)
        \/ (r = Raise unexpected_config_valid
            /\ exists p out err,
                 In p paths
                 /\ In (Ran (PathExists p) (Completed 0 out err)) ev)
        \/ (exists p cls msg,
              r = Raise (Exception cls msg)
              /\ In p paths
              /\ In (Ran (PathExists p) (Fails cls msg)) ev)).
Proof.
  revert h. induction paths as [|p paths IH]; intros h.
  - exists (Ok configs), []. cbn. rewrite app_nil_r.
    split; [reflexivity|]. left. split; [reflexivity|constructor].
  - cbn [check_local_paths]. unfold bind at 1. unfold run.
    destruct (env h (PathExists p)) as [rc out err|cls msg] eqn:E;
      cbn [returncode].
    + destruct (Nat.eqb_spec rc 0) as [->|Hrc].
      * unfold bind.
        pose proof (inspect_local_path_raises p
                      (h ++ [Ran (PathExists p) (Completed 0 out err)])%list)
          as R.
        destruct (inspect_local_path_grows p
                    (h ++ [Ran (PathExists p) (Completed 0 out err)])%list)
          as (ev & G).
        destruct (inspect_local_path env p _) as [r h'].
        cbn in R, G. subst r h'. rewrite <- app_assoc.
        eexists _, _. split; [reflexivity|]. right; left.
        split; [reflexivity|]. exists p, out, err.
        split; [now left|now left].
      * destruct (IH (h ++ [Ran (PathExists p) (Completed rc out err)])%list)
          as (r & ev & Hev & H).
        rewrite Hev, <- app_assoc. eexists _, _. split; [reflexivity|].
        destruct H as [(-> & F) | [(-> & q & o & e & Hq & Hin)
                                  | (q & c & m & -> & Hq & Hin)]].
        -- left. split; [reflexivity|]. constructor; [|exact F].
           now exists rc, out, err.
        -- right; left. split; [reflexivity|]. exists q, o, e.
           split; [now right|now right].
        -- right; right. exists q, c, m.
           split; [reflexivity|]. split; [now right|now right].
    + eexists _, _. split; [reflexivity|]. right; right.
      exists p, cls, msg. split; [reflexivity|]. split; now left.
Qed.

(** X18.  [check_local_node_config] has three outcomes only.  When none
    of the three candidate paths exists it asks for each of them once and
    returns the single record [No containerd config found].  When one of
    them exists it raises the [TypeError] of the undeclared keyword
    [config_valid], whatever the file holds and whether or not it can be
    read: no record of a file that exists is ever returned.  When the
    existence test itself fails, that failure is raised. *)
Theorem X18_local_check_reports_only_absence h :
  exists r ev,
    check_local_node_config env h = (r, (h ++ ev)%list)
    /\ ((r = Ok [no_config_found]
         /\ Forall2 absent local_config_paths ev)
        \/ (r = Raise unexpected_config_valid
            /\ exists p out err,
                 In p local_config_paths
                 /\ In (Ran (PathExists p) (Completed 0 out err)) ev)
        \/ (exists p cls msg,
              r = Raise (Exception cls msg)
              /\ In p local_config_paths
              /\ In (Ran (PathExists p) (Fails cls msg)) ev)).
Proof.
  unfold check_local_node_config, bind.
  destruct (check_local_paths_spec local_config_paths [] h)
    as (r & ev & Hev & H).
  rewrite Hev.
  destruct H as [(-> & F) | [(-> & H) | (p & c & m & -> & H)]].
  - eexists _, ev. split; [reflexivity|]. left. split; [reflexivity|exact F].
  - eexists _, ev. split; [reflexivity|]. right; left.
    split; [reflexivity|exact H].
  - eexists _, ev. split; [reflexivity|]. right; right.
    exists p, c, m. split; [reflexivity|exact H].
Qed.
End LocalNode.

(** *** The outcomes of a run *)

Section Run.
Variable env : Oracle.
Variable json_loads : string -> option JSON.
Variable namespace : string.
Variable script_b64 : string.
Variable console : Console.
Variable max_workers : Z.

Lemma configs_yield node_name pod :
  yields (Forall coherent)
         (get_containerd_config_from_node env namespace node_name pod).
Proof.
  intros h.
  destruct (inspect_paths_always env namespace node_name pod
              remote_config_paths [] h)
    as (out & Ho & fresh & -> & _ & _ & Hw).
  unfold get_containerd_config_from_node. rewrite Ho. exact Hw.
Qed.

Lemma worker_yields node :
  yields (outcome_of node) (analyze_single_node env namespace script_b64 console node).
Proof.
  unfold analyze_single_node, analyze_single_node_with.
  apply yields_bind. intros _.
  apply yields_bind. intros [success pod].
  destruct success; cbn [negb].
  - apply yields_try_except.
    + eapply yields_bind_strong; [apply configs_yield|].
      intros configs Hc. apply yields_bind. intros symptoms.
      apply yields_ret. split; [reflexivity|exact Hc].
    + intros e. apply yields_ret. split; [reflexivity|constructor].
  - apply yields_ret. split; [reflexivity|constructor].
Qed.

Lemma submit_all_yields worker nodes :
  (forall node, yields (outcome_of node) (worker node)) ->
  yields (Forall (fun f : Future =>
                    match snd f with
                    | Ok status => outcome_of (fst f) status
                    | Raise _ => True
                    end))
         (submit_all worker nodes).
Proof.
  intros Hw. induction nodes as [|node nodes IH]; cbn [submit_all].
  - apply yields_ret. constructor.
  - intros h. unfold bind at 1. pose proof (Hw node h) as Hn.
    destruct (worker node h) as [r h1]. cbn [fst] in Hn.
    unfold bind at 1. specialize (IH h1).
    destruct (submit_all worker nodes h1) as [[futs|e] h2]; cbn in *;
      [|exact I].
    constructor; [|exact IH]. cbn. destruct r; [exact Hn|exact I].
Qed.

Lemma filed_dict_set results k status :
  Forall filed results -> node_name status = k -> sound status ->
  Forall filed (dict_set results k status).
Proof.
  intros H Hk Hs. induction results as [|[k' v'] results IH]; cbn [dict_set].
  - constructor; [now split|constructor].
  - inversion H as [|? ? Hf Hr]; subst.
    destruct (String.eqb k' (node_name status)) eqn:E.
    + apply String.eqb_eq in E. subst k'.
      constructor; [now split|exact Hr].
    + constructor; [exact Hf|now apply IH].
Qed.

Lemma failure_yields node e results :
  Forall filed results ->
  yields (Forall filed) (record_failure console node e results).
Proof.
  intros Hr. unfold record_failure. apply yields_bind. intros _.
  apply yields_ret.
  apply filed_dict_set; [exact Hr|reflexivity|constructor].
Qed.

Lemma collect_one_yields node outcome results :
  match outcome with
  | Ok status => outcome_of node status
  | Raise _ => True
  end ->
  Forall filed results ->
  yields (Forall filed) (collect_one console node outcome results).
Proof.
  intros Hf Hr. unfold collect_one. destruct outcome as [status|e].
  - destruct Hf as [Hn Hs].
    assert (Hset : Forall filed (dict_set results (name node) status))
      by now apply filed_dict_set.
    apply yields_try_except.
    + apply yields_bind. intros _. now apply yields_ret.
    + intros e. now apply failure_yields.
  - destruct (is_Exception e); [now apply failure_yields|].
    intros h. exact I.
Qed.

Lemma collect_yields completed :
  forall interrupt results,
    Forall (fun f : Future =>
              match snd f with
              | Ok status => outcome_of (fst f) status
              | Raise _ => True
              end) completed ->
    Forall filed results ->
    yields (Forall filed) (collect console completed interrupt results).
Proof.
  induction completed as [|[node outcome] completed IH];
    intros interrupt results Hc Hr.
  - intros h. destruct interrupt as [[|n]|]; cbn; auto.
  - inversion Hc as [|? ? Hf Hrest]; subst. cbn [fst snd] in Hf.
    destruct interrupt as [[|n]|]; cbn [collect];
      [intros h; exact I|..];
      (eapply yields_bind_strong;
       [apply collect_one_yields; [exact Hf|exact Hr]|]);
      intros results' Hr'; now apply IH.
Qed.

Lemma as_completed_forall {P : Future -> Prop} futures order :
  Forall P futures -> Forall P (as_completed futures order).
Proof.
  intros H. unfold as_completed. induction order as [|i order IH];
    cbn [flat_map]; [constructor|].
  apply Forall_app. split; [|exact IH].
  destruct (nth_error futures i) as [f|] eqn:E; [|constructor].
  constructor; [|constructor].
  rewrite Forall_forall in H. apply H. eapply nth_error_In. exact E.
Qed.

Lemma run_yields sched cleanup :
  yields (Forall filed)
         (analyze_cluster env json_loads namespace script_b64 console max_workers sched cleanup).
Proof.
  unfold analyze_cluster, analyze_cluster_with.
  apply yields_bind. intros _.
  apply yields_bind. intros nodes.
  destruct nodes as [|n0 ns]; (apply yields_bind; intros _);
    [apply yields_ret; constructor|].
  intros h. unfold try_finally.
  assert (Hp : yields (Forall filed)
                 (run_pool console max_workers (analyze_single_node env namespace script_b64 console)
                    sched (n0 :: ns))).
  { unfold run_pool. destruct (max_workers <=? 0)%Z; [intros h'; exact I|].
    eapply yields_bind_strong.
    - apply submit_all_yields. intros node. apply worker_yields.
    - intros futures Hf. apply collect_yields; [|constructor].
      now apply as_completed_forall. }
  specialize (Hp h).
  destruct (run_pool _ _ _ _ _ h) as [r h1]. cbn [fst] in Hp.
  destruct ((if cleanup
             then cleanup_debug_pods env namespace console (n0 :: ns)
             else ret tt) h1) as [[u|e] h2]; cbn; [|exact I].
  destruct r; [exact Hp|exact I].
Qed.

(** X24.  Whatever the cluster answers and in whatever order the
    futures complete, every outcome in the mapping [analyze_cluster]
    returns is stored under the name of the node it describes, and all its
    configuration records are coherent: the mapping the report is printed
    from meets the condition under which the summary and the
    recommendations agree. *)
Theorem X24_outcomes_of_a_run_are_filed_and_sound :
  forall (sched : Schedule) (cleanup : bool) (h : list Event)
         (results : dict NodeGPUStatus),
    fst (analyze_cluster env json_loads namespace script_b64 console max_workers sched cleanup h)
    = Ok results ->
    Forall filed results
    /\ Forall sound (map snd results)
    /\ (forall n status,
          dict_get results n = Some status -> node_name status = n).
Proof.
  intros sched cleanup h results H.
  pose proof (run_yields sched cleanup) as Y. unfold yields in Y.
  specialize (Y h).
  destruct (analyze_cluster env json_loads namespace script_b64 console max_workers sched cleanup
              h) as [r h'].
  cbn [fst] in H, Y. subst r.
  split; [exact Y|]. split.
  - apply Forall_map. eapply Forall_impl; [|exact Y]. now intros kv [_ S].
  - intros n status G. 
    induction results as [|[k v] results IH]; [discriminate|].
    inversion Y as [|? ? [Hk _] Hr]; subst. cbn in G, Hk.
    destruct (String.eqb k n) eqn:E.
    + apply String.eqb_eq in E. injection G as <-. congruence.
    + now apply IH.
Qed.

End Run.

(** *** The properties at work *)

Import Scenarios Cases.

Lemma X3_witness :
  exists c,
    fst (inspect_config_path demo_env "kube-system" "a.local"
           "gpu-debug-a-local" "/host/etc/containerd/config.toml" [])
    = Ok c
    /\ exists_ c = true
    /\ config_content c = config_toml
    /\ (nvidia_runtime_configured c = true
        <-> occurs_ci "nvidia" config_toml /\ occurs_ci "runc" config_toml).
Proof.
  apply (X3_remote_record_configured_iff demo_env "kube-system"
           "a.local" "gpu-debug-a-local" "/host/etc/containerd/config.toml"
           config_toml [] "" "" ""); reflexivity.
Defined.

Lemma X5_witness :
  deploy_debug_pod down_env "kube-system" utf8 "a.local" []
  = (Ok (false, "Failed to create pod: Unable to connect to the server"),
     [Ran (KubectlGetPod "gpu-debug-a-local" "kube-system")
          (Completed 1 "" "Unable to connect to the server");
      Ran (TempYaml (create_debug_pod_spec "kube-system" "a.local"))
          (Completed 1 "" "Unable to connect to the server");
      Ran (KubectlApply "" (create_debug_pod_spec "kube-system" "a.local"))
          (Completed 1 "" "Unable to connect to the server");
      Ran (Unlink "") (Completed 1 "" "Unable to connect to the server")]).
Proof.
  apply (X5_failed_creation_stops_at_once down_env "kube-system" utf8
           "a.local" [] 0 1 0 1 "" "Unable to connect to the server"
           "" "Unable to connect to the server"
           "" "Unable to connect to the server"
           "" "Unable to connect to the server"); reflexivity.
Defined.

Lemma X6_witness :
  fst (deploy_debug_pod demo_env "kube-system" utf8 "a.local" [])
  = Ok (true, "gpu-debug-a-local")
  /\ seconds_slept
       (added [] (snd (deploy_debug_pod demo_env "kube-system" utf8 "a.local" [])))
     <= 59.
Proof.
  split; [vm_compute; reflexivity|].
  apply (X6_success_comes_before_the_timeout demo_env "kube-system" utf8
           "a.local" [] "gpu-debug-a-local").
  vm_compute. reflexivity.
Defined.

Lemma X8_witness :
  exists configs symptoms,
    fst (analyze_single_node demo_env "kube-system" "c2NyaXB0" utf8 node_b [])
    = Ok {| node_name := "b.local";
            containerd_configs := configs;
            gpu_failure_symptoms := Some symptoms;
            debug_pod_deployed := true;
            execution_error := None |}
    /\ map config_path configs = remote_config_paths.
Proof.
  eapply (X8_outcome_after_provisioning demo_env "kube-system"
           "c2NyaXB0" utf8 node_b []).
  - reflexivity.
  - vm_compute. reflexivity.
Defined.

Lemma X14_witness :
  Forall sound (map snd two_outcomes)
  /\ let s := Report.summary two_outcomes in
     let b := fill_buckets two_outcomes no_buckets in
     List.length (error_nodes b) = Report.nodes_with_errors s
     /\ List.length (unconfigured_nodes b) + Report.nodes_with_errors s
        + Report.nodes_with_nvidia_runtime s = Report.total_nodes s
     /\ Report.nodes_with_nvidia_runtime s <= Report.nodes_with_configs s
     /\ (missing_binary_nodes b = []
         <-> Report.nodes_with_missing_binary s = 0).
Proof.
  assert (S : Forall sound (map snd two_outcomes)).
  { repeat constructor; cbn; try discriminate; try tauto; try reflexivity;
      intros; try discriminate; try (vm_compute; reflexivity); congruence. }
  split; [exact S|].
  exact (X14_summary_and_groups_agree two_outcomes S).
Defined.

Lemma X16_witness :
  section_of release_values = Some (JDict toolkit_section)
  /\ exists v,
       Toolkit._validate_toolkit_config plain_str release_values = Ok v
       /\ Toolkit.config_details v = JDict toolkit_section
       /\ (Toolkit.toolkit_config_valid v = true
           <-> Toolkit.missing_configs v = [])
       /\ (Toolkit.toolkit_config_valid v = true
           <-> compliant toolkit_section).
Proof.
  split; [reflexivity|].
  apply (X16_valid_iff_compliant plain_str release_values
           toolkit_section).
  reflexivity.
Defined.

Lemma X24_witness :
  exists results,
    fst (analyze_cluster demo_env demo_json "kube-system" "c2NyaXB0" utf8 5
           reversed true [])
    = Ok results
    /\ Forall filed results
    /\ Forall sound (map snd results)
    /\ (forall n status,
          dict_get results n = Some status -> node_name status = n).
Proof.
  eexists. split; [vm_compute; reflexivity|].
  apply (X24_outcomes_of_a_run_are_filed_and_sound demo_env demo_json
           "kube-system" "c2NyaXB0" utf8 5 reversed true []).
  vm_compute. reflexivity.
Defined.

End Extras.

(* ===================================================================== *)
(** ** The checks of the cluster as a whole: properties *)
(* ===================================================================== *)

Module ClusterFacts.
Import PyStr Runtime Analyzer Spec Notions PyStrFacts RuntimeFacts.
Import Cluster ClusterNotions.

Lemma attribute_only_get v k d : attribute_only (get v k d).
Proof.
  destruct v as [| | | | |d']; cbn; try (now eexists).
  now destruct (dict_get d' k).
Qed.

Lemma attribute_only_bind {A B} (r : result A) (k : A -> result B) :
  attribute_only r -> (forall a, attribute_only (k a)) ->
  attribute_only (rbind r k).
Proof. destruct r as [a|e]; simpl; auto. Qed.

Lemma scan_pods_spec pods : forall acc l,
  scan_pods pods acc = Ok l ->
  exists new,
    l = (acc ++ new)%list
    /\ List.length new <= List.length pods
    /\ Forall (fun p => exists pod,
                 In pod pods /\ wants_gpu pod /\ stuck pod (pp_status p)
                 /\ describes pod p) new
    /\ (forall pod phase,
          In pod pods -> wants_gpu pod -> stuck pod phase ->
          exists p, In p new /\ pp_status p = phase /\ describes pod p).
Proof.
  induction pods as [|pod pods IH]; intros acc l H.
  - cbn in H. injection H as <-. exists []. rewrite app_nil_r.
    split; [reflexivity|]. split; [cbn; lia|]. split; [constructor|].
    intros pod phase [].
  - cbn [scan_pods] in H.
    apply Extras.rbind_ok in H as (spec & Hspec & H).
    apply Extras.rbind_ok in H as (containers & Hcont & H).
    apply Extras.rbind_ok in H as (cs & Hcs & H).
    apply Extras.rbind_ok in H as (g & Hg & H).
    destruct g.
    + apply Extras.rbind_ok in H as (status & Hstatus & H).
      apply Extras.rbind_ok in H as (phase & Hphase & H).
      apply Extras.rbind_ok in H as (cst & Hcst & H).
      apply Extras.rbind_ok in H as (sts & Hsts & H).
      apply Extras.rbind_ok in H as (errs & Herrs & H).
      destruct (eq_str phase "Pending" || errs) eqn:Hstuck.
      * apply Extras.rbind_ok in H as (metadata & Hmeta & H).
        apply Extras.rbind_ok in H as (name & Hname & H).
        apply Extras.rbind_ok in H as (metadata' & Hmeta' & H).
        apply Extras.rbind_ok in H as (namespace & Hns & H).
        apply Extras.rbind_ok in H as (spec' & Hspec' & H).
        apply Extras.rbind_ok in H as (node & Hnode & H).
        destruct (IH _ _ H) as (new & -> & Hlen & Hall & Hcomp).
        rewrite <- app_assoc. eexists. split; [reflexivity|].
        assert (W : wants_gpu pod) by (now exists spec, containers, cs).
        assert (T : stuck pod phase) by (now exists status, cst, sts, errs).
        assert (D : describes pod
                      {| pp_name := name; pp_namespace := namespace;
                         pp_status := phase; pp_node := node |}).
        { split.
          - exists metadata. cbn. rewrite Hmeta in Hmeta'.
            injection Hmeta' as <-. now repeat split.
          - exists spec'. now split. }
        split; [cbn; lia|]. split.
        -- constructor.
           ++ exists pod. split; [now left|].
              split; [exact W|split; [exact T|exact D]].
           ++ eapply Forall_impl; [|exact Hall].
              intros p (pod' & Hin & Hp). exists pod'. split; [now right|exact Hp].
        -- intros pod' phase' [<- | Hin] W' T'.
           ++ eexists. split; [now left|]. split; [|exact D]. cbn.
              destruct T' as (st' & cst' & sts' & errs' & A1 & A2 & _).
              congruence.
           ++ destruct (Hcomp pod' phase' Hin W' T') as (p & Hp & Hq).
              exists p. split; [now right|exact Hq].
      * destruct (IH _ _ H) as (new & -> & Hlen & Hall & Hcomp).
        exists new. split; [reflexivity|]. split; [cbn; lia|]. split.
        -- eapply Forall_impl; [|exact Hall].
           intros p (pod' & Hin & Hp). exists pod'. split; [now right|exact Hp].
        -- intros pod' phase' [<- | Hin] W' T'.
           ++ exfalso.
              destruct T' as (st' & cst' & sts' & errs' & A1 & A2 & A3 & A4
                              & A5 & A6).
              rewrite Hstatus in A1. injection A1 as <-.
              rewrite Hphase in A2. injection A2 as <-.
              rewrite Hcst in A3. injection A3 as <-.
              rewrite Hsts in A4. injection A4 as <-.
              rewrite Herrs in A5. injection A5 as <-.
              congruence.
           ++ now apply Hcomp.
    + destruct (IH _ _ H) as (new & -> & Hlen & Hall & Hcomp).
      exists new. split; [reflexivity|]. split; [cbn; lia|]. split.
      * eapply Forall_impl; [|exact Hall].
        intros p (pod' & Hin & Hp). exists pod'. split; [now right|exact Hp].
      * intros pod' phase' [<- | Hin] W' T'.
        -- exfalso. destruct W' as (s' & c' & cs' & A1 & A2 & A3 & A4).
           rewrite Hspec in A1. injection A1 as <-.
           rewrite Hcont in A2. injection A2 as <-.
           rewrite Hcs in A3. injection A3 as <-.
           congruence.
        -- now apply Hcomp.
Qed.

Section ClusterChecks.
Variable world : World.
Variable json_loads : string -> option JSON.
Variable yaml_safe_load : string -> option JSON.
Variable py_str : JSON -> string.
Variable status_text : Argv -> nat -> string.
Variable kubectl_available : bool.

Lemma mildr_validate values :
  mild (Toolkit._validate_toolkit_config py_str values).
Proof.
  unfold Toolkit._validate_toolkit_config.
  apply Proofs.mild_rbind; [apply Proofs.mild_get|intros t].
  apply Proofs.mild_rbind; [now destruct t|intros d].
  apply Proofs.mild_rbind; [apply Proofs.mild_get|intros e].
  now destruct t.
Qed.

Lemma mildr_find_release l : mild (find_release l).
Proof.
  induction l as [|r l IH]; cbn [find_release]; [exact I|].
  apply Proofs.mild_rbind; [apply Proofs.mild_get|intros n].
  apply Proofs.mild_rbind; [now destruct n|intros b]. now destruct b.
Qed.

Lemma mildr_find_helmrelease l : mild (find_helmrelease l).
Proof.
  induction l as [|r l IH]; cbn [find_helmrelease]; [exact I|].
  apply Proofs.mild_rbind; [apply Proofs.mild_get|intros m].
  apply Proofs.mild_rbind; [apply Proofs.mild_get|intros n].
  apply Proofs.mild_rbind; [now destruct n|intros b]. now destruct b.
Qed.

(** What the check of a found release leaves, from [found_status]. *)
Lemma check_release_values_spec release h :
  exists r c ev,
    check_release_values world yaml_safe_load py_str release (found_status, h)
    = (r, (c, (h ++ ev)%list))
    /\ (ev = [] \/ exists n resp, ev = [Spawned (helm_get_values n) resp])
    /\ ((r = Ok tt /\ reached py_str c)
        \/ (exists e, r = Raise e /\ is_Exception e = true
                      /\ c = found_status)).
Proof.
  unfold check_release_values, try_except_of, bind at 1, lift at 1.
  destruct (rbind (getitem release "name") (fun name => as_str name))
    as [n|e] eqn:N.
  - cbn [fst snd]. unfold bind at 1, spawn_checked, bind at 1, spawn.
    cbn [fst snd].
    destruct (world h _) as [rc out err|cls msg] eqn:W.
    + cbn [returncode stderr stdout]. destruct (rc =? 0)%nat eqn:R.
      * unfold ret at 1. unfold bind at 1, lift at 1, safe_load.
        cbn [stdout].
        destruct (yaml_safe_load out) as [values|].
        -- unfold bind at 1, lift at 1.
           pose proof (mildr_validate values) as M.
           destruct (Toolkit._validate_toolkit_config py_str values)
             as [v|e] eqn:V.
           ++ eexists _, _, _. split; [reflexivity|].
              split; [right; now eexists _, _|].
              left. split; [reflexivity|]. cbn [fst].
              now apply (reached_validated py_str values v).
           ++ cbn in M. destruct e as [cls msg|]; [|discriminate].
              cbn [handle is_class existsb]. 
              destruct (String.eqb cls "CalledProcessError") eqn:E1;
                [|destruct (String.eqb cls "YAMLError") eqn:E2];
                cbn [orb].
              ** eexists _, _, _. split; [reflexivity|].
                 split; [right; now eexists _, _|]. left.
                 split; [reflexivity|]. apply reached_failed.
              ** eexists _, _, _. split; [reflexivity|].
                 split; [right; now eexists _, _|]. left.
                 split; [reflexivity|]. apply reached_failed.
              ** eexists _, _, _. split; [reflexivity|].
                 split; [right; now eexists _, _|]. right.
                 eexists. split; [reflexivity|]. split; reflexivity.
        -- cbn [handle is_class existsb String.eqb Ascii.eqb Bool.eqb orb].
           eexists _, _, _. split; [reflexivity|].
           split; [right; now eexists _, _|]. left.
           split; [reflexivity|]. apply reached_failed.
      * unfold raise at 1.
        cbn [handle is_class existsb String.eqb Ascii.eqb Bool.eqb orb].
        eexists _, _, _. split; [reflexivity|].
        split; [right; now eexists _, _|]. left.
        split; [reflexivity|]. apply reached_failed.
    + cbn [handle is_class existsb].
      destruct (String.eqb cls "CalledProcessError") eqn:E1;
        [|destruct (String.eqb cls "YAMLError") eqn:E2];
        cbn [orb].
      * eexists _, _, _. split; [reflexivity|].
        split; [right; now eexists _, _|]. left.
        split; [reflexivity|]. apply reached_failed.
      * eexists _, _, _. split; [reflexivity|].
        split; [right; now eexists _, _|]. left.
        split; [reflexivity|]. apply reached_failed.
      * eexists _, _, _. split; [reflexivity|].
        split; [right; now eexists _, _|]. right.
        eexists. split; [reflexivity|]. split; reflexivity.
  - assert (M : mild (rbind (getitem release "name")
                            (fun name => as_str name))).
    { apply Proofs.mild_rbind; [apply Proofs.mild_getitem|intros a; now destruct a]. }
    rewrite N in M. cbn in M. destruct e as [cls msg|]; [|discriminate].
    cbn [handle is_class existsb fst snd].
    destruct (String.eqb cls "CalledProcessError") eqn:E1;
      [|destruct (String.eqb cls "YAMLError") eqn:E2];
      cbn [orb].
    + exists (Ok tt). eexists _, []. rewrite app_nil_r.
      split; [reflexivity|]. split; [now left|]. left.
      split; [reflexivity|]. apply reached_failed.
    + exists (Ok tt). eexists _, []. rewrite app_nil_r.
      split; [reflexivity|]. split; [now left|]. left.
      split; [reflexivity|]. apply reached_failed.
    + eexists _, _, []. rewrite app_nil_r.
      split; [reflexivity|]. split; [now left|]. right.
      eexists. split; [reflexivity|]. split; reflexivity.
Qed.

Lemma validate_verdict values v :
  Toolkit._validate_toolkit_config py_str values = Ok v ->
  (Toolkit.toolkit_config_valid v = true <-> Toolkit.missing_configs v = []).
Proof.
  intros H.
  destruct (section_of values) as [[| | | | |t]|] eqn:S;
    try (destruct (Extras.validate_other py_str values) as (msg & Hm);
         [intros t'; rewrite S; discriminate|congruence]).
  rewrite (Extras.validate_dict py_str values t S) in H.
  injection H as <-. cbv zeta.
  cbn [Toolkit.toolkit_config_valid Toolkit.missing_configs].
  apply Extras.nil_test.
Qed.

Lemma reached_initial : reached py_str initial_status.
Proof. apply (reached_unfound py_str []). cbn. lia. Qed.

Lemma reached_one_error msg :
  reached py_str
    {| helm_release_found := false; toolkit_config_valid := false;
       missing_configs := []; errors := [msg]; config_details := None |}.
Proof. apply (reached_unfound py_str [msg]). cbn. lia. Qed.

Lemma check_helm_list_spec h :
  exists r c ev,
    check_helm_list world json_loads yaml_safe_load py_str (initial_status, h)
    = (r, (c, (h ++ ev)%list))
    /\ (exists resp,
          ev = [Spawned helm_list resp]
          \/ exists n resp',
               ev = [Spawned helm_list resp;
                     Spawned (helm_get_values n) resp'])
    /\ ((r = Ok tt /\ reached py_str c)
        \/ (exists e, r = Raise e /\ is_Exception e = true
                      /\ (c = initial_status \/ c = found_status))).
Proof.
  unfold check_helm_list, try_except_of, bind at 1, spawn_checked, bind at 1,
    spawn.
  cbn [fst snd]. fold helm_list.
  destruct (world h helm_list) as [rc out err|cls msg] eqn:W.
  - cbn [returncode stderr stdout]. destruct (rc =? 0)%nat eqn:R.
    + unfold ret at 1. unfold bind at 1, lift at 1. cbn [stdout].
      pose proof (Proofs.mild_loads json_loads out) as ML.
      unfold Analyzer.loads in ML. unfold loads.
      destruct (json_loads out) as [helm_releases|].
      * unfold bind at 1, lift at 1.
        assert (MF : mild (rbind (iterate helm_releases)
                                 (fun releases => find_release releases))).
        { apply Proofs.mild_rbind; [now destruct helm_releases|intros a].
          apply mildr_find_release. }
        destruct (rbind (iterate helm_releases) _) as [o|e].
        -- destruct o as [release|]; cbn [found_one].
           ++ destruct (Toolkit.truthy_value release).
              ** unfold bind at 1, set_found, modify. cbn [fst snd].
                 change {| helm_release_found := true;
                           toolkit_config_valid :=
                             toolkit_config_valid initial_status;
                           missing_configs := missing_configs initial_status;
                           errors := errors initial_status;
                           config_details := config_details initial_status |}
                   with found_status.
                 destruct (check_release_values_spec release
                             (h ++ [Spawned helm_list (Completed rc out err)]))
                   as (r & c & ev & E & T & O).
                 rewrite E, <- app_assoc.
                 destruct O as [(-> & Hc) | (e & -> & He & ->)].
                 --- eexists _, _, _. split; [reflexivity|]. split.
                     +++ eexists. destruct T as [-> | (n & resp & ->)];
                           [now left|right; now eexists _, _].
                     +++ left. now split.
                 --- destruct e as [cls msg|]; [|discriminate].
                     cbn [handle is_class existsb].
                     destruct (String.eqb cls "CalledProcessError") eqn:E1;
                       [|destruct (String.eqb cls "JSONDecodeError") eqn:E2];
                       cbn [orb].
                     +++ eexists _, _, _. split; [reflexivity|]. split.
                         *** eexists. destruct T as [-> | (n & resp & ->)];
                               [now left|right; now eexists _, _].
                         *** left. split; [reflexivity|]. apply reached_failed.
                     +++ eexists _, _, _. split; [reflexivity|]. split.
                         *** eexists. destruct T as [-> | (n & resp & ->)];
                               [now left|right; now eexists _, _].
                         *** left. split; [reflexivity|]. apply reached_failed.
                     +++ eexists _, _, _. split; [reflexivity|]. split.
                         *** eexists. destruct T as [-> | (n & resp & ->)];
                               [now left|right; now eexists _, _].
                         *** right. eexists. split; [reflexivity|].
                             split; [reflexivity|now right].
              ** eexists _, _, _. split; [reflexivity|].
                 split; [eexists; now left|]. left.
                 split; [reflexivity|apply reached_initial].
           ++ eexists _, _, _. split; [reflexivity|].
              split; [eexists; now left|]. left.
              split; [reflexivity|apply reached_initial].
        -- cbn in MF. destruct e as [cls msg|]; [|discriminate].
           cbn [handle is_class existsb].
           destruct (String.eqb cls "CalledProcessError") eqn:E1;
             [|destruct (String.eqb cls "JSONDecodeError") eqn:E2];
             cbn [orb].
           ++ eexists _, _, _. split; [reflexivity|].
              split; [eexists; now left|]. left.
              split; [reflexivity|apply reached_one_error].
           ++ eexists _, _, _. split; [reflexivity|].
              split; [eexists; now left|]. left.
              split; [reflexivity|apply reached_one_error].
           ++ eexists _, _, _. split; [reflexivity|].
              split; [eexists; now left|]. right.
              eexists. split; [reflexivity|]. split; [reflexivity|now left].
      * cbn [handle is_class existsb String.eqb Ascii.eqb Bool.eqb orb].
        eexists _, _, _. split; [reflexivity|].
        split; [eexists; now left|]. left.
        split; [reflexivity|apply reached_one_error].
    + unfold raise at 1.
      cbn [handle is_class existsb String.eqb Ascii.eqb Bool.eqb orb].
      eexists _, _, _. split; [reflexivity|].
      split; [eexists; now left|]. left.
      split; [reflexivity|apply reached_one_error].
  - cbn [handle is_class existsb].
    destruct (String.eqb cls "CalledProcessError") eqn:E1;
      [|destruct (String.eqb cls "JSONDecodeError") eqn:E2];
      cbn [orb].
    + eexists _, _, _. split; [reflexivity|].
      split; [eexists; now left|]. left.
      split; [reflexivity|apply reached_one_error].
    + eexists _, _, _. split; [reflexivity|].
      split; [eexists; now left|]. left.
      split; [reflexivity|apply reached_one_error].
    + eexists _, _, _. split; [reflexivity|].
      split; [eexists; now left|]. right.
      eexists. split; [reflexivity|]. split; [reflexivity|now left].
Qed.

Lemma check_helmreleases_spec output h :
  exists r c,
    check_helmreleases json_loads py_str output (initial_status, h)
    = (r, (c, h))
    /\ ((r = Ok tt /\ reached py_str c)
        \/ (exists e, r = Raise e /\ is_Exception e = true
                      /\ (c = initial_status \/ c = found_status))).
Proof.
  unfold check_helmreleases, try_except_of, bind at 1, lift at 1, loads.
  destruct (json_loads output) as [helmreleases|].
  - unfold bind at 1, lift at 1.
    match goal with |- context [rbind ?a ?k] =>
      assert (MF : mild (rbind a k));
      [apply Proofs.mild_rbind; [apply Proofs.mild_get|intros its];
       apply Proofs.mild_rbind; [now destruct its|intros hrs];
       apply mildr_find_helmrelease|];
      destruct (rbind a k) as [o|e] end.
    + destruct o as [hr|]; cbn [found_one].
      * destruct (Toolkit.truthy_value hr).
        -- unfold bind at 1, set_found, modify. cbn [fst snd].
           change {| helm_release_found := true;
                     toolkit_config_valid :=
                       toolkit_config_valid initial_status;
                     missing_configs := missing_configs initial_status;
                     errors := errors initial_status;
                     config_details := config_details initial_status |}
             with found_status.
           unfold bind at 1, lift at 1.
           match goal with |- context [rbind ?a ?k] =>
             assert (MV : mild (rbind a k));
             [apply Proofs.mild_rbind; [apply Proofs.mild_get|intros spec];
              apply Proofs.mild_rbind; [apply Proofs.mild_get|intros values];
              apply mildr_validate|];
             destruct (rbind a k) as [v|e] eqn:V end.
           ++ eexists _, _. split; [reflexivity|]. left.
              split; [reflexivity|]. cbn [fst].
              destruct (get hr "spec" empty_dict) as [spec|]; [|discriminate].
              cbn [rbind] in V.
              destruct (get spec "values" empty_dict) as [values|];
                [|discriminate].
              cbn [rbind] in V.
              now apply (reached_validated py_str values v).
           ++ cbn in MV. destruct e as [cls msg|]; [|discriminate].
              cbn [handle is_class existsb].
              destruct (String.eqb cls "JSONDecodeError") eqn:E2; cbn [orb].
              ** eexists _, _. split; [reflexivity|]. left.
                 split; [reflexivity|]. apply reached_failed.
              ** eexists _, _. split; [reflexivity|]. right.
                 eexists. split; [reflexivity|].
                 split; [reflexivity|now right].
        -- eexists _, _. split; [reflexivity|]. left.
           split; [reflexivity|apply reached_one_error].
      * eexists _, _. split; [reflexivity|]. left.
        split; [reflexivity|apply reached_one_error].
    + cbn in MF. destruct e as [cls msg|]; [|discriminate].
      cbn [handle is_class existsb].
      destruct (String.eqb cls "JSONDecodeError") eqn:E2; cbn [orb].
      * eexists _, _. split; [reflexivity|]. left.
        split; [reflexivity|apply reached_one_error].
      * eexists _, _. split; [reflexivity|]. right.
        eexists. split; [reflexivity|]. split; [reflexivity|now left].
  - cbn [handle is_class existsb String.eqb Ascii.eqb Bool.eqb orb].
    eexists _, _. split; [reflexivity|]. left.
    split; [reflexivity|apply reached_one_error].
Qed.

Lemma reached_after_error c msg :
  c = initial_status \/ c = found_status ->
  reached py_str
    {| helm_release_found := helm_release_found c;
       toolkit_config_valid := toolkit_config_valid c;
       missing_configs := missing_configs c;
       errors := (errors c ++ [msg])%list;
       config_details := config_details c |}.
Proof.
  intros [-> | ->]; cbn; [apply reached_one_error|apply reached_failed].
Qed.

Lemma mildr_has_errors sts : mild (has_errors sts).
Proof.
  induction sts as [|s sts IH]; cbn [has_errors]; [exact I|].
  apply Proofs.mild_rbind; [apply Proofs.mild_get|intros state].
  apply Proofs.mild_rbind; [apply Proofs.mild_get|intros waiting].
  apply Proofs.mild_rbind; [apply Proofs.mild_get|intros reason].
  now destruct (_ || _).
Qed.

Lemma mildr_scan_pods pods : forall acc, mild (scan_pods pods acc).
Proof.
  induction pods as [|pod pods IH]; intros acc; cbn [scan_pods]; [exact I|].
  apply Proofs.mild_rbind; [apply Proofs.mild_get|intros spec].
  apply Proofs.mild_rbind; [apply Proofs.mild_get|intros containers].
  apply Proofs.mild_rbind; [now destruct containers|intros cs].
  apply Proofs.mild_rbind; [apply Proofs.mild_requests_gpu|intros g].
  destruct g; [|apply IH].
  apply Proofs.mild_rbind; [apply Proofs.mild_get|intros status].
  apply Proofs.mild_rbind; [apply Proofs.mild_get|intros phase].
  apply Proofs.mild_rbind; [apply Proofs.mild_get|intros container_statuses].
  apply Proofs.mild_rbind; [now destruct container_statuses|intros sts].
  apply Proofs.mild_rbind; [apply mildr_has_errors|intros errs].
  destruct (_ || _); [|apply IH].
  apply Proofs.mild_rbind; [apply Proofs.mild_getitem|intros metadata].
  apply Proofs.mild_rbind; [apply Proofs.mild_getitem|intros name].
  apply Proofs.mild_rbind; [apply Proofs.mild_getitem|intros metadata'].
  apply Proofs.mild_rbind; [apply Proofs.mild_getitem|intros namespace].
  apply Proofs.mild_rbind; [apply Proofs.mild_get|intros spec'].
  apply Proofs.mild_rbind; [apply Proofs.mild_get|intros node].
  apply IH.
Qed.

(** [_run_kubectl]: no request without [kubectl], one otherwise; success
    is an exit status of 0. *)
Lemma run_kubectl_spec {S} (args : list string) (c : S) (h : list Call) :
  (kubectl_available = false
   /\ _run_kubectl world status_text kubectl_available args (c, h)
      = (Ok (false, "kubectl not available"), (c, h)))
  \/ (kubectl_available = true
      /\ exists resp,
           world h ("kubectl" :: args) = resp
           /\ _run_kubectl world status_text kubectl_available args (c, h)
              = (match resp with
                 | Completed rc out err =>
                     Ok ((rc =? 0)%nat,
                         if (rc =? 0)%nat then out
                         else if truthy err then err
                              else status_text ("kubectl" :: args) rc)
                 | Fails cls msg => Raise (Exception cls msg)
                 end,
                 (c, (h ++ [Spawned ("kubectl" :: args) resp])%list))).
Proof.
  unfold _run_kubectl. destruct kubectl_available; cbn [negb].
  - right. split; [reflexivity|]. eexists. split; [reflexivity|].
    unfold bind, spawn. cbn [fst snd].
    destruct (world h ("kubectl" :: args)) as [rc out err|cls msg];
      [|reflexivity].
    cbn [returncode stdout stderr]. now destruct (rc =? 0)%nat.
  - left. split; reflexivity.
Qed.

(** The check as a whole: it returns, in one of the three states, after
    command lines taken from the plan in order. *)
Lemma helm_check_spec h :
  exists c ev,
    check_gpu_operator_helm_config world json_loads yaml_safe_load py_str
      status_text kubectl_available h
    = (Ok c, (h ++ ev)%list)
    /\ reached py_str c
    /\ ev <> []
    /\ (exists n tail,
          request_plan kubectl_available n
          = (map argv_of ev ++ tail)%list)
    /\ (forall rc out err,
          world h helm_version = Completed (S rc) out err ->
          map argv_of ev = [helm_version]
          /\ helm_release_found c = false
          /\ errors c = ["Helm not available or not configured"]).
Proof.
  unfold check_gpu_operator_helm_config, fill_config_status, try_except,
    bind at 1, spawn.
  cbn [fst snd]. fold helm_version.
  destruct (world h helm_version) as [rc out err|cls msg] eqn:W.
  - cbn [returncode]. destruct rc as [|rc]; cbn [Nat.eqb negb].
    + unfold bind at 1. fold kubectl_helmreleases.
      destruct (run_kubectl_spec
                  ["get"; "helmreleases.helm.fluxcd.io";
                   "-n"; "gpu-operator"; "-o"; "json"] initial_status
                  (h ++ [Spawned helm_version (Completed 0 out err)])%list)
        as [(K & E) | (K & resp & Hresp & E)];
        fold kubectl_helmreleases in *; rewrite E, K; clear E.
      * cbn [negb].
        destruct (check_helm_list_spec
                    (h ++ [Spawned helm_version (Completed 0 out err)])%list)
          as (r & c & ev & E & (resp & T) & O).
        rewrite E, <- !app_assoc.
        assert (P : exists n tail,
                   request_plan false n
                   = (map argv_of
                        ([Spawned helm_version (Completed 0 out err)] ++ ev)
                      ++ tail)%list).
        { destruct T as [-> | (n & resp' & ->)].
          - exists EmptyString. eexists. reflexivity.
          - exists n, []. reflexivity. }
        destruct O as [(-> & Hc) | (e & -> & He & Hc)].
        -- eexists _, _. split; [reflexivity|]. split; [exact Hc|].
           split; [discriminate|]. split; [exact P|discriminate].
        -- rewrite He. unfold add_error, modify. cbn [fst snd].
           eexists _, _. split; [reflexivity|].
           split; [now apply reached_after_error|].
           split; [discriminate|]. split; [exact P|discriminate].
      * destruct resp as [rc' out' err'|cls msg].
        -- destruct (rc' =? 0)%nat; cbn [negb].
           ++ destruct (check_helmreleases_spec out'
                ((h ++ [Spawned helm_version (Completed 0 out err)])
                   ++ [Spawned kubectl_helmreleases
                         (Completed rc' out' err')])%list)
                as (r & c & E & O).
              rewrite E, <- app_assoc.
              destruct O as [(-> & Hc) | (e & -> & He & Hc)].
              ** eexists _, _. split; [reflexivity|]. split; [exact Hc|].
                 split; [discriminate|]. split; [|discriminate].
                 exists EmptyString. eexists. reflexivity.
              ** rewrite He. unfold add_error, modify. cbn [fst snd].
                 eexists _, _. split; [reflexivity|].
                 split; [now apply reached_after_error|].
                 split; [discriminate|]. split; [|discriminate].
                 exists EmptyString. eexists. reflexivity.
           ++ destruct (check_helm_list_spec
                ((h ++ [Spawned helm_version (Completed 0 out err)])
                   ++ [Spawned kubectl_helmreleases
                         (Completed rc' out' err')])%list)
                as (r & c & ev & E & (resp & T) & O).
              rewrite E, <- !app_assoc.
              assert (P : exists n tail,
                         request_plan true n
                         = (map argv_of
                              ([Spawned helm_version (Completed 0 out err)]
                               ++ [Spawned kubectl_helmreleases
                                     (Completed rc' out' err')] ++ ev)
                            ++ tail)%list).
              { destruct T as [-> | (n & resp' & ->)].
                - exists EmptyString. eexists. reflexivity.
                - exists n, []. reflexivity. }
              destruct O as [(-> & Hc) | (e & -> & He & Hc)].
              ** eexists _, _. split; [reflexivity|]. split; [exact Hc|].
                 split; [discriminate|]. split; [exact P|discriminate].
              ** rewrite He. unfold add_error, modify. cbn [fst snd].
                 eexists _, _. split; [reflexivity|].
                 split; [now apply reached_after_error|].
                 split; [discriminate|]. split; [exact P|discriminate].
        -- cbn [is_Exception]. unfold add_error, modify. cbn [fst snd].
           rewrite <- app_assoc.
           eexists _, _. split; [reflexivity|].
           split; [apply reached_one_error|].
           split; [discriminate|]. split; [|discriminate].
           exists EmptyString. eexists. reflexivity.
    + unfold add_error, modify. cbn [fst snd].
      eexists _, _. split; [reflexivity|].
      split; [apply reached_one_error|].
      split; [discriminate|]. split.
      * exists EmptyString. eexists. reflexivity.
      * intros rc0 out0 err0 _. repeat split.
  - cbn [is_Exception]. unfold add_error, modify. cbn [fst snd].
    eexists _, _. split; [reflexivity|].
    split; [apply reached_one_error|].
    split; [discriminate|]. split; [|discriminate].
    exists EmptyString. eexists. reflexivity.
Qed.

(** X19.  [check_gpu_operator_helm_config] never raises, whatever
    [helm] and [kubectl] answer, and the dictionary it returns is
    consistent: it holds at most one error; without a release found it is
    not valid, lists no finding and holds no details, and the same goes as
    soon as an error is recorded; the toolkit configuration is reported
    valid exactly when a release was found, its values were validated
    (details are there) with no finding, and no error was recorded. *)
Theorem X19_helm_verdict_is_consistent (h : list Call) :
  exists c ev,
    check_gpu_operator_helm_config world json_loads yaml_safe_load py_str
      status_text kubectl_available h
    = (Ok c, (h ++ ev)%list)
    /\ List.length (errors c) <= 1
    /\ (helm_release_found c = false ->
        toolkit_config_valid c = false /\ missing_configs c = []
        /\ config_details c = None)
    /\ (errors c <> [] ->
        toolkit_config_valid c = false /\ missing_configs c = []
        /\ config_details c = None)
    /\ (toolkit_config_valid c = true
        <-> helm_release_found c = true /\ errors c = []
            /\ config_details c <> None /\ missing_configs c = []).
Proof.
  destruct (helm_check_spec h) as (c & ev & E & R & _).
  exists c, ev. split; [exact E|].
  destruct R as [errs L | values v V | msg];
    cbn [helm_release_found toolkit_config_valid missing_configs errors
         config_details].
  - split; [exact L|]. split; [auto|]. split; [auto|].
    split; [discriminate|]. intros (F & _). discriminate.
  - split; [cbn; lia|]. split; [discriminate|].
    split; [intros H; now destruct H|].
    pose proof (validate_verdict values v V) as I. split.
    + intros T. repeat split; try discriminate. now apply I.
    + intros (_ & _ & _ & M). now apply I.
  - split; [cbn; lia|]. split; [discriminate|]. split; [auto|].
    split; [discriminate|]. intros (_ & F & _). discriminate.
Qed.

(** X20.  The command lines of [check_gpu_operator_helm_config] are
    taken from one plan, in order and without repeats: [helm version],
    the FluxCD listing through [kubectl] (when [kubectl] is available),
    [helm list], [helm get values] of the release found.  The check always
    starts with [helm version], and when that exits with an error it stops
    there with the error [Helm not available or not configured]. *)
Theorem X20_helm_requests_follow_the_plan (h : list Call) :
  exists c ev,
    check_gpu_operator_helm_config world json_loads yaml_safe_load py_str
      status_text kubectl_available h
    = (Ok c, (h ++ ev)%list)
    /\ ev <> []
    /\ (exists release tail,
          request_plan kubectl_available release
          = (map argv_of ev ++ tail)%list)
    /\ (forall rc out err,
          world h helm_version = Completed (S rc) out err ->
          map argv_of ev = [helm_version]
          /\ helm_release_found c = false
          /\ errors c = ["Helm not available or not configured"]).
Proof.
  destruct (helm_check_spec h) as (c & ev & E & _ & N & P & G).
  now exists c, ev.
Qed.

(** X21.  [get_pending_gpu_pods] makes at most one request and leaves
    the caller's state alone.  It returns the empty list without [kubectl],
    when the listing exits with an error and when its output is not JSON.
    When it returns pods, the listing succeeded and the pods returned are
    those of the listed pods that request a GPU and are pending or have a
    container waiting in an error state: each record is made of such a
    pod, with its phase, and each such pod has its record. *)
Theorem X21_pending_pods_are_the_stuck_gpu_pods {S} (c : S) (h : list Call) :
  exists r ev,
    get_pending_gpu_pods world json_loads status_text kubectl_available (c, h)
    = (r, (c, (h ++ ev)%list))
    /\ List.length ev <= 1
    /\ (kubectl_available = false -> r = Ok [] /\ ev = [])
    /\ (forall rc out err,
          kubectl_available = true ->
          world h pods_listing = Completed rc out err ->
          rc <> 0 \/ json_loads out = None ->
          r = Ok [])
    /\ (forall l,
          r = Ok l -> l <> [] ->
          exists out err data pods,
            world h pods_listing = Completed 0 out err
            /\ json_loads out = Some data
            /\ listed data = Ok pods
            /\ List.length l <= List.length pods
            /\ Forall (fun p => exists pod,
                         In pod pods /\ wants_gpu pod
                         /\ stuck pod (pp_status p) /\ describes pod p) l
            /\ (forall pod phase,
                  In pod pods -> wants_gpu pod -> stuck pod phase ->
                  exists p, In p l /\ pp_status p = phase
                            /\ describes pod p)).
Proof.
  unfold get_pending_gpu_pods, bind at 1. fold pods_listing.
  destruct (run_kubectl_spec ["get"; "pods"; "--all-namespaces"; "-o"; "json"]
              c h) as [(K & E) | (K & resp & Hresp & E)];
    fold pods_listing in *; rewrite E, K; clear E.
  - cbn [negb]. unfold ret. exists (Ok []), []. rewrite app_nil_r.
    split; [reflexivity|]. split; [cbn; lia|]. split; [auto|].
    split; [discriminate|]. intros l [= <-] N. now destruct N.
  - destruct resp as [rc out err|cls msg].
    + destruct (Nat.eqb_spec rc 0) as [->|Hrc]; cbn [negb].
      * unfold try_except_of, bind at 1, lift at 1, loads.
        destruct (json_loads out) as [data|] eqn:J.
        -- unfold lift.
           change (rbind (get data "items" empty_list)
                         (fun its => rbind (iterate its)
                                       (fun pods => scan_pods pods [])))
             with (rbind (rbind (get data "items" empty_list) iterate)
                         (fun pods => scan_pods pods [])) || idtac.
           destruct (rbind (get data "items" empty_list)
                       (fun its => rbind (iterate its)
                                     (fun pods => scan_pods pods [])))
             as [l|e] eqn:R.
           ++ eexists _, _. split; [reflexivity|]. split; [cbn; lia|].
              split; [discriminate|]. split.
              ** intros rc0 out0 err0 _ W. rewrite Hresp in W.
                 injection W as <- <- <-.
                 intros [N | N]; [now destruct N|congruence].
              ** intros l' [= <-] N.
                 apply Extras.rbind_ok in R as (its & Hits & R).
                 apply Extras.rbind_ok in R as (pods & Hpods & R).
                 destruct (scan_pods_spec pods [] l R)
                   as (new & -> & Hlen & Hall & Hcomp).
                 cbn [List.app] in *.
                 exists out, err, data, pods.
                 split; [exact Hresp|]. split; [exact J|].
                 split; [unfold listed; now rewrite Hits|].
                 now repeat split.
           ++ assert (M : mild (Raise (A:=list PendingPod) e)).
              { rewrite <- R.
                apply Proofs.mild_rbind; [apply Proofs.mild_get|intros its].
                apply Proofs.mild_rbind; [now destruct its|intros pods].
                apply mildr_scan_pods. }
              cbn in M. destruct e as [cls msg|]; [|discriminate].
              cbn [handle is_class existsb].
              destruct (String.eqb cls "JSONDecodeError"); cbn [orb].
              ** eexists _, _. split; [reflexivity|]. split; [cbn; lia|].
                 split; [discriminate|]. split; [reflexivity|].
                 intros l [= <-] N. now destruct N.
              ** eexists _, _. split; [reflexivity|]. split; [cbn; lia|].
                 split; [discriminate|]. split.
                 --- intros rc0 out0 err0 _ W. rewrite Hresp in W.
                     injection W as <- <- <-.
                     intros [N | N]; [now destruct N|congruence].
                 --- discriminate.
        -- cbn [handle is_class existsb String.eqb Ascii.eqb Bool.eqb orb].
           eexists _, _. split; [reflexivity|]. split; [cbn; lia|].
           split; [discriminate|]. split; [reflexivity|].
           intros l [= <-] N. now destruct N.
      * destruct (rc =? 0)%nat eqn:R; [apply Nat.eqb_eq in R; lia|].
        cbn [negb]. eexists _, _. split; [reflexivity|]. split; [cbn; lia|].
        split; [discriminate|]. split; [reflexivity|].
        intros l [= <-] N. now destruct N.
    + eexists _, _. split; [reflexivity|]. split; [cbn; lia|].
      split; [discriminate|]. split; [|discriminate].
      intros rc0 out0 err0 _ W. rewrite Hresp in W. discriminate.
Qed.

(** X22.  When [kubectl] was not found at start-up, no check of the
    cluster runs it: the pending pods are the empty list, the device plugin
    and the toolkit are reported as not found, all three without any
    request, and the check of the release only runs [helm]. *)
Theorem X22_without_kubectl_no_kubectl_request {S} (c : S) (h : list Call) :
  kubectl_available = false ->
  get_pending_gpu_pods world json_loads status_text kubectl_available (c, h)
  = (Ok [], (c, h))
  /\ check_nvidia_device_plugin_status world json_loads py_str status_text
       kubectl_available (c, h)
     = (Ok [("error", "Device plugin not found")], (c, h))
  /\ check_nvidia_container_toolkit_status world json_loads py_str
       status_text kubectl_available (c, h)
     = (Ok "Error: Toolkit not found", (c, h))
  /\ exists status ev,
       check_gpu_operator_helm_config world json_loads yaml_safe_load py_str
         status_text kubectl_available h
       = (Ok status, (h ++ ev)%list)
       /\ Forall (fun call => hd EmptyString (argv_of call) = "helm") ev.
Proof.
  intros K.
  split; [|split; [|split]].
  - unfold get_pending_gpu_pods, bind, _run_kubectl. now rewrite K.
  - unfold check_nvidia_device_plugin_status, bind, _run_kubectl.
    now rewrite K.
  - unfold check_nvidia_container_toolkit_status, bind, _run_kubectl.
    now rewrite K.
  - destruct (helm_check_spec h) as (status & ev & E & _ & _ & P & _).
    exists status, ev. split; [exact E|].
    destruct P as (n & tail & P). rewrite K in P.
    apply Forall_forall. intros call Hin.
    assert (Hin' : In (argv_of call) (request_plan false n)).
    { rewrite P. apply in_or_app. left. now apply in_map. }
    cbn in Hin'.
    destruct Hin' as [<- | [<- | [<- | []]]]; reflexivity.
Qed.

(** X23.  The two daemonset checks make at most one request, and raise
    nothing but [Exception]s.  The device plugin's status holds the three
    counts exactly when the listing exited with 0 and printed JSON; it is
    the parse error when the output was no JSON, and [Device plugin not
    found] when [kubectl] is missing or the listing did not exit with 0.
    The toolkit's status is [Ready: ...], or one of the two error texts,
    under the same conditions. *)
Theorem X23_daemonset_checks {S} (c : S) (h : list Call) :
  (exists r ev,
     check_nvidia_device_plugin_status world json_loads py_str status_text
       kubectl_available (c, h)
     = (r, (c, (h ++ ev)%list))
     /\ List.length ev <= 1
     /\ mild r
     /\ forall d,
          r = Ok d ->
          (keys d = ["desired"; "ready"; "available"]
           /\ answered world json_loads h device_plugin_listing)
          \/ (d = [("error", "Failed to parse device plugin status")]
              /\ exists out err,
                   world h device_plugin_listing = Completed 0 out err
                   /\ json_loads out = None)
          \/ (d = [("error", "Device plugin not found")]
              /\ ~ exists out err,
                     kubectl_available = true
                     /\ world h device_plugin_listing = Completed 0 out err))
  /\ (exists r ev,
        check_nvidia_container_toolkit_status world json_loads py_str
          status_text kubectl_available (c, h)
        = (r, (c, (h ++ ev)%list))
        /\ List.length ev <= 1
        /\ mild r
        /\ forall s,
             r = Ok s ->
             (startswith "Ready: " s = true
              /\ answered world json_loads h toolkit_listing)
             \/ (s = "Error: Failed to parse toolkit status"
                 /\ exists out err,
                      world h toolkit_listing = Completed 0 out err
                      /\ json_loads out = None)
             \/ (s = "Error: Toolkit not found"
                 /\ ~ exists out err,
                        kubectl_available = true
                        /\ world h toolkit_listing = Completed 0 out err)).
Proof.
  split.
  - unfold check_nvidia_device_plugin_status, bind at 1.
    destruct (run_kubectl_spec
                ["get"; "daemonset"; "nvidia-device-plugin-daemonset";
                 "-n"; "gpu-operator"; "-o"; "json"] c h)
      as [(K & E) | (K & resp & Hresp & E)];
      fold device_plugin_listing in *; rewrite E; clear E.
    + unfold ret. exists (Ok [("error", "Device plugin not found")]), [].
      rewrite app_nil_r. split; [reflexivity|]. split; [cbn; lia|].
      split; [exact I|]. intros d [= <-]. right; right.
      split; [reflexivity|]. intros (out & err & K' & _). congruence.
    + destruct resp as [rc out err|cls msg].
      * destruct (Nat.eqb_spec rc 0) as [->|Hrc].
        -- unfold try_except_of, bind at 1, lift at 1, loads.
           destruct (json_loads out) as [data|] eqn:J.
           ++ unfold lift.
              match goal with |- context [rbind ?a ?k] =>
                assert (M : attribute_only (rbind a k));
                [apply attribute_only_bind;
                   [apply attribute_only_get|intros si];
                 apply attribute_only_bind;
                   [apply attribute_only_get|intros x1];
                 apply attribute_only_bind;
                   [apply attribute_only_get|intros x2];
                 apply attribute_only_bind;
                   [apply attribute_only_get|intros x3];
                 exact I|];
                destruct (rbind a k) as [d|e] eqn:R end.
              ** eexists _, _. split; [reflexivity|]. split; [cbn; lia|].
                 split; [exact I|]. intros d' [= <-]. left. split.
                 --- apply Extras.rbind_ok in R as (si & _ & R).
                     apply Extras.rbind_ok in R as (x1 & _ & R).
                     apply Extras.rbind_ok in R as (x2 & _ & R).
                     apply Extras.rbind_ok in R as (x3 & _ & R).
                     now injection R as <-.
                 --- now exists out, err, data.
              ** cbn in M. destruct M as (msg & ->).
                 cbn [handle is_class existsb String.eqb Ascii.eqb Bool.eqb
                      orb].
                 eexists _, _. split; [reflexivity|]. split; [cbn; lia|].
                 split; [reflexivity|]. discriminate.
           ++ cbn [handle is_class existsb String.eqb Ascii.eqb Bool.eqb orb].
              eexists _, _. split; [reflexivity|]. split; [cbn; lia|].
              split; [exact I|]. intros d [= <-]. right; left.
              split; [reflexivity|]. now exists out, err.
        -- destruct (rc =? 0)%nat eqn:R; [apply Nat.eqb_eq in R; lia|].
           eexists _, _. split; [reflexivity|]. split; [cbn; lia|].
           split; [exact I|]. intros d [= <-]. right; right.
           split; [reflexivity|]. intros (out' & err' & _ & W).
           rewrite Hresp in W. injection W as -> _ _. now apply Hrc.
      * eexists _, _. split; [reflexivity|]. split; [cbn; lia|].
        split; [reflexivity|]. discriminate.
  - unfold check_nvidia_container_toolkit_status, bind at 1.
    destruct (run_kubectl_spec
                ["get"; "daemonset"; "nvidia-container-toolkit-daemonset";
                 "-n"; "gpu-operator"; "-o"; "json"] c h)
      as [(K & E) | (K & resp & Hresp & E)];
      fold toolkit_listing in *; rewrite E; clear E.
    + unfold ret. exists (Ok "Error: Toolkit not found"), [].
      rewrite app_nil_r. split; [reflexivity|]. split; [cbn; lia|].
      split; [exact I|]. intros d [= <-]. right; right.
      split; [reflexivity|]. intros (out & err & K' & _). congruence.
    + destruct resp as [rc out err|cls msg].
      * destruct (Nat.eqb_spec rc 0) as [->|Hrc].
        -- unfold try_except_of, bind at 1, lift at 1, loads.
           destruct (json_loads out) as [data|] eqn:J.
           ++ unfold lift.
              match goal with |- context [rbind ?a ?k] =>
                assert (M : attribute_only (rbind a k));
                [apply attribute_only_bind;
                   [apply attribute_only_get|intros si];
                 apply attribute_only_bind;
                   [apply attribute_only_get|intros x1];
                 apply attribute_only_bind;
                   [apply attribute_only_get|intros x2];
                 exact I|];
                destruct (rbind a k) as [d|e] eqn:R end.
              ** eexists _, _. split; [reflexivity|]. split; [cbn; lia|].
                 split; [exact I|]. intros d' [= <-]. left. split.
                 --- apply Extras.rbind_ok in R as (si & _ & R).
                     apply Extras.rbind_ok in R as (x1 & _ & R).
                     apply Extras.rbind_ok in R as (x2 & _ & R).
                     now injection R as <-.
                 --- now exists out, err, data.
              ** cbn in M. destruct M as (msg & ->).
                 cbn [handle is_class existsb String.eqb Ascii.eqb Bool.eqb
                      orb].
                 eexists _, _. split; [reflexivity|]. split; [cbn; lia|].
                 split; [reflexivity|]. discriminate.
           ++ cbn [handle is_class existsb String.eqb Ascii.eqb Bool.eqb orb].
              eexists _, _. split; [reflexivity|]. split; [cbn; lia|].
              split; [exact I|]. intros d [= <-]. right; left.
              split; [reflexivity|]. now exists out, err.
        -- destruct (rc =? 0)%nat eqn:R; [apply Nat.eqb_eq in R; lia|].
           eexists _, _. split; [reflexivity|]. split; [cbn; lia|].
           split; [exact I|]. intros d [= <-]. right; right.
           split; [reflexivity|]. intros (out' & err' & _ & W).
           rewrite Hresp in W. injection W as -> _ _. now apply Hrc.
      * eexists _, _. split; [reflexivity|]. split; [cbn; lia|].
        split; [reflexivity|]. discriminate.
Qed.
End ClusterChecks.

Lemma X22_witness :
  get_pending_gpu_pods no_helm_world Scenarios.demo_json no_status_text
    false (tt, [])
  = (Ok [], (tt, []))
  /\ check_nvidia_device_plugin_status no_helm_world Scenarios.demo_json
       Cases.plain_str no_status_text false (tt, [])
     = (Ok [("error", "Device plugin not found")], (tt, []))
  /\ check_nvidia_container_toolkit_status no_helm_world Scenarios.demo_json
       Cases.plain_str no_status_text false (tt, [])
     = (Ok "Error: Toolkit not found", (tt, []))
  /\ exists status ev,
       check_gpu_operator_helm_config no_helm_world Scenarios.demo_json
         no_yaml Cases.plain_str no_status_text false []
       = (Ok status, ([] ++ ev)%list)
       /\ Forall (fun call => hd EmptyString (argv_of call) = "helm") ev.
Proof.
  apply (X22_without_kubectl_no_kubectl_request no_helm_world
           Scenarios.demo_json no_yaml Cases.plain_str no_status_text false
           tt []).
  reflexivity.
Defined.

End ClusterFacts.
